(** * The chatroom broker (server.js), embedded in Rocq

    The broker is a single-threaded, event-driven program: every handler
    (connection, message, pong, close, the two interval timers) runs to
    completion on the broker's state.  The embedding follows the source
    handler by handler:

    - JavaScript values arriving in messages are the inductive [value];
    - the [clientInfo] objects live in a heap addressed by reference, so that
      the closure variable [clientInfo] of a connection and the entry of the
      [clients] Map alias the same object, as in the source;
    - the [clients] Map is an association list in insertion order;
    - handlers are written in a small monad [M] that threads the broker's
      state, collects the calls made on sockets and on the console, and
      propagates exceptions: up to the [try]/[catch] of the message handler,
      and out of the close handler and the timer callbacks, which have none;
    - building a string from a value of a message (a template literal) can
      raise a TypeError, and the handlers raise it where the source does;
    - [Date.now()] reads an oracle, one reading per call. *)

From Stdlib Require Import ZArith QArith Qround List Sorted String Lia.
From stdpp Require Import base gmap list strings.
Import ListNotations.

Set Warnings "-register-all".
Local Open Scope string_scope.
Local Open Scope Z_scope.
Local Open Scope list_scope.

(** ** JavaScript values *)

(** What [JSON.parse] can produce, plus [undefined] (the result of reading a
    property that is not there).  Numbers are kept as rationals: the broker
    never computes with a number taken from a message, it only tests its
    truthiness.  [VObj props] lists the own properties of an object, each key
    once. *)
Inductive value : Type :=
| VUndefined
| VNull
| VBool (b : bool)
| VNum (q : Q)
| VStr (s : string)
| VArr (items : list value)
| VObj (props : list (string * value)).

Inductive exn : Type :=
| SyntaxError
| TypeError.

Inductive result (A : Type) : Type :=
| Ok (a : A)
| Throw (e : exn).
Arguments Ok {A} a.
Arguments Throw {A} e.

(** [ToBoolean]: the test behind [a || b], [cond ? a : b] and [if]. *)
Definition truthy (v : value) : bool :=
  match v with
  | VUndefined | VNull => false
  | VBool b => b
  | VNum q => negb (Qeq_bool q 0)
  | VStr s => negb (String.eqb s "")
  | VArr _ | VObj _ => true
  end.

(** [a || b] *)
Definition or_else (a b : value) : value := if truthy a then a else b.

(** [v === 'lit'] for a string literal. *)
Definition strict_eq_str (v : value) (lit : string) : bool :=
  match v with
  | VStr s => String.eqb s lit
  | _ => false
  end.

Fixpoint own_property (k : string) (props : list (string * value)) : value :=
  match props with
  | [] => VUndefined
  | (k', v) :: rest => if String.eqb k k' then v else own_property k rest
  end.

(** [v.k] for the keys the broker reads ([type], [name], [agentType],
    [status], [task], [from], [text], [category]): reading a property of
    [null] or [undefined] throws a TypeError; primitives and arrays carry none
    of these keys. *)
Definition get_property (v : value) (k : string) : result value :=
  match v with
  | VUndefined | VNull => Throw TypeError
  | VObj props => Ok (own_property k props)
  | VBool _ | VNum _ | VStr _ | VArr _ => Ok VUndefined
  end.

(** A frame as it reaches [JSON.parse(data.toString())]: either text that is
    not JSON, or the text of a JSON value. *)
Inductive frame : Type :=
| NotJson (raw : string)
| Json (v : value).

Definition JSON_parse (data : frame) : result value :=
  match data with
  | NotJson _ => Throw SyntaxError
  | Json v => Ok v
  end.

(** [Math.round]: nearest integer, ties towards plus infinity. *)
Definition Math_round (q : Q) : Z := Qfloor (q + (1 # 2)).

(** ** Strings assembled by the broker

    A template literal or string concatenation is kept as the list of its
    pieces.  Building the string applies [ToString] to each piece.  On the
    values of [JSON.parse] that returns, but for an object with an own property
    [toString] (after [JSON.parse] never a function, so that it cannot be
    called, while the inherited [valueOf] returns the object itself) and for an
    array that holds such an object (its [join] converts each element): there
    it raises a TypeError. *)
Inductive piece : Type :=
| Lit (s : string)
| Val (v : value)
| Int (n : Z)
| ErrMessage (e : exn).

Definition text := list piece.

(** [ToString(v)] returns. *)
Fixpoint printable (v : value) : bool :=
  match v with
  | VArr items => forallb printable items
  | VObj props =>
      negb (existsb (fun kv => match kv with (k, _) => String.eqb k "toString" end) props)
  | _ => true
  end.

Definition printable_piece (p : piece) : bool :=
  match p with
  | Val v => printable v
  | Lit _ | Int _ | ErrMessage _ => true
  end.

(** ** Connection records and messages sent by the broker *)

(** A WebSocket object [ws], and a reference to a [clientInfo] object, are
    both identified by a number. *)
Abbreviation conn := nat (only parsing).
Abbreviation loc := nat (only parsing).

(** The object behind [clientInfo] / [clients.get(ws)].  [leaving] is
    [false] while the property is absent. *)
Record info : Type := Info {
  name : value;
  type : value;
  alive : bool;
  joinedAt : Z;
  status : value;
  task : value;
  leaving : bool
}.

Definition set_alive (b : bool) (i : info) : info :=
  Info (name i) (type i) b (joinedAt i) (status i) (task i) (leaving i).
Definition set_status (s : value) (i : info) : info :=
  Info (name i) (type i) (alive i) (joinedAt i) s (task i) (leaving i).
Definition set_task (t : value) (i : info) : info :=
  Info (name i) (type i) (alive i) (joinedAt i) (status i) t (leaving i).
Definition set_leaving (b : bool) (i : info) : info :=
  Info (name i) (type i) (alive i) (joinedAt i) (status i) (task i) b.

(** An entry of [participants_update]. *)
Record participant : Type := Participant {
  p_name : value;
  p_type : value;
  p_status : value;
  p_task : value;
  p_joinedAt : Z
}.

(** An entry of [who_response]. *)
Record online_entry : Type := Online {
  o_name : value;
  o_type : value;
  o_joinedAt : Z
}.

(** The objects handed to [JSON.stringify] before sending. *)
Inductive server_msg : Type :=
| MsgSystem (txt : text) (timestamp : Z)
| MsgChat (from agentType txt : value) (timestamp : Z)
| MsgDiscovery (from agentType category txt : value) (timestamp : Z)
| MsgParticipantsUpdate (participants : list participant) (timestamp : Z)
| MsgWhoResponse (online : list online_entry) (timestamp : Z).

Definition timestamp_of (m : server_msg) : Z :=
  match m with
  | MsgSystem _ t | MsgChat _ _ _ t | MsgDiscovery _ _ _ _ t
  | MsgParticipantsUpdate _ t | MsgWhoResponse _ t => t
  end.

(** Calls the broker makes on sockets and on the console. *)
Inductive action : Type :=
| ws_send (to : conn) (message : server_msg)
| ws_ping (to : conn)
| ws_terminate (to : conn)
| console_log (line : text)
| console_error (line : text).

(** ** The JavaScript [Map], in insertion order *)
Module JsMap.
Section Ops.
Context {V : Type}.

Fixpoint get (k : conn) (m : list (conn * V)) : option V :=
  match m with
  | [] => None
  | (k', v) :: rest => if Nat.eqb k k' then Some v else get k rest
  end.

Definition has (k : conn) (m : list (conn * V)) : bool :=
  match get k m with Some _ => true | None => false end.

(** [set] on a present key replaces the value and keeps the position;
    on an absent key it appends. *)
Fixpoint set (k : conn) (v : V) (m : list (conn * V)) : list (conn * V) :=
  match m with
  | [] => [(k, v)]
  | (k', v') :: rest =>
      if Nat.eqb k k' then (k, v) :: rest else (k', v') :: set k v rest
  end.

Definition delete (k : conn) (m : list (conn * V)) : list (conn * V) :=
  List.filter (fun e => negb (Nat.eqb k (fst e))) m.

Definition keys (m : list (conn * V)) : list conn := List.map fst m.

Definition size (m : list (conn * V)) : nat := List.length m.
End Ops.
End JsMap.

(** ** The broker's state *)

(** The values of [ws.readyState]. *)
Definition CONNECTING : Z := 0.
Definition OPEN : Z := 1.
Definition CLOSING : Z := 2.
Definition CLOSED : Z := 3.

(** The periods of the two timers, in milliseconds; the model has one event
    per firing.  [CLIENT_TIMEOUT] is declared by the source and never used. *)
Definition HEARTBEAT_INTERVAL : Z := 5000.
Definition CLIENT_TIMEOUT : Z := 15000.
Definition PARTICIPANT_UPDATE_INTERVAL : Z := 5000.

Record world : Type := World {
  clients : list (conn * loc);      (* const clients = new Map() *)
  heap : gmap loc info;             (* the clientInfo objects *)
  next_loc : loc;                   (* next fresh reference *)
  clientInfo : gmap conn loc;       (* [let clientInfo] of each connection *)
  readyState : gmap conn Z;         (* [ws.readyState], owned by the transport *)
  clock : nat -> Z;                 (* the readings of [Date.now()] *)
  reads : nat                       (* how many readings were taken *)
}.

#[global] Instance info_inhabited : Inhabited info :=
  populate (Info (VStr "unknown") (VStr "unknown") true 0 (VStr "idle") VNull false).

(** ** The handler monad *)

Definition M (A : Type) : Type := world -> result A * world * list action.

Definition ret {A} (a : A) : M A := fun w => (Ok a, w, []).

Definition bind {A B} (m : M A) (f : A -> M B) : M B :=
  fun w =>
    match m w with
    | (Ok a, w1, o1) =>
        match f a w1 with
        | (r, w2, o2) => (r, w2, o1 ++ o2)
        end
    | (Throw e, w1, o1) => (Throw e, w1, o1)
    end.

Declare Scope M_scope.
Delimit Scope M_scope with M.
Notation "x <- m ;; k" := (bind m (fun x => k))
  (at level 20, m at level 99, k at level 200, only parsing) : M_scope.
Notation "m ;; k" := (bind m (fun _ => k))
  (at level 100, k at level 200, only parsing) : M_scope.
Local Open Scope M_scope.

(** [throw] of a value computed outside the monad. *)
Definition lift {A} (r : result A) : M A := fun w => (r, w, []).

(** Evaluating a template literal (or a concatenation with a string): the
    string, or the TypeError of the first piece that cannot be converted. *)
Definition template (t : text) : M text :=
  if forallb printable_piece t then ret t else lift (Throw TypeError).

(** [try { body } catch (err) { handler }]: what [body] did before throwing
    stays done. *)
Definition try_catch (body : M unit) (handler : exn -> M unit) : M unit :=
  fun w =>
    match body w with
    | (Ok a, w1, o1) => (Ok a, w1, o1)
    | (Throw e, w1, o1) =>
        match handler e w1 with
        | (r, w2, o2) => (r, w2, o1 ++ o2)
        end
    end.

Definition gets {A} (f : world -> A) : M A := fun w => (Ok (f w), w, []).
Definition modify (f : world -> world) : M unit := fun w => (Ok tt, f w, []).
Definition emit (a : action) : M unit := fun w => (Ok tt, w, [a]).

Definition when (b : bool) (m : M unit) : M unit := if b then m else ret tt.

Fixpoint for_each {A} (l : list A) (body : A -> M unit) : M unit :=
  match l with
  | [] => ret tt
  | x :: rest => body x ;; for_each rest body
  end.

(** *** Primitive operations *)

Definition Date_now : M Z :=
  fun w =>
    (Ok (clock w (reads w)),
     World (clients w) (heap w) (next_loc w) (clientInfo w) (readyState w)
           (clock w) (S (reads w)),
     []).

(** An object literal [{ name: ..., ... }]: a fresh object. *)
Definition new_object (i : info) : M loc :=
  fun w =>
    (Ok (next_loc w),
     World (clients w) (<[next_loc w := i]> (heap w)) (S (next_loc w))
           (clientInfo w) (readyState w) (clock w) (reads w),
     []).

(** Reading the fields of the object behind a reference. *)
Definition deref (l : loc) : M info := gets (fun w => heap w !!! l).

(** Assigning fields of the object behind a reference. *)
Definition update (l : loc) (f : info -> info) : M unit :=
  modify (fun w =>
    World (clients w) (<[l := f (heap w !!! l)]> (heap w)) (next_loc w)
          (clientInfo w) (readyState w) (clock w) (reads w)).

Definition clients_has (ws : conn) : M bool := gets (fun w => JsMap.has ws (clients w)).
Definition clients_get (ws : conn) : M (option loc) := gets (fun w => JsMap.get ws (clients w)).
Definition clients_set (ws : conn) (l : loc) : M unit :=
  modify (fun w =>
    World (JsMap.set ws l (clients w)) (heap w) (next_loc w) (clientInfo w)
          (readyState w) (clock w) (reads w)).
Definition clients_delete (ws : conn) : M unit :=
  modify (fun w =>
    World (JsMap.delete ws (clients w)) (heap w) (next_loc w) (clientInfo w)
          (readyState w) (clock w) (reads w)).

(** The closure variable [clientInfo] of connection [ws]; the connection
    handler initialises it before any other handler of [ws] can run. *)
Definition read_clientInfo (ws : conn) : M loc :=
  gets (fun w => default 0%nat (clientInfo w !! ws)).
Definition assign_clientInfo (ws : conn) (l : loc) : M unit :=
  modify (fun w =>
    World (clients w) (heap w) (next_loc w) (<[ws := l]> (clientInfo w))
          (readyState w) (clock w) (reads w)).

Definition ready (w : world) (ws : conn) : Z := default CLOSED (readyState w !! ws).

(** [readyState] is set by the transport; [terminate()] destroys the socket,
    which leaves an open or closing connection in state CLOSING until its
    close event is emitted. *)
Definition set_readyState (ws : conn) (rs : Z) : M unit :=
  modify (fun w =>
    World (clients w) (heap w) (next_loc w) (clientInfo w)
          (<[ws := rs]> (readyState w)) (clock w) (reads w)).

Definition send (ws : conn) (message : server_msg) : M unit := emit (ws_send ws message).
Definition ping (ws : conn) : M unit := emit (ws_ping ws).
Definition terminate (ws : conn) : M unit :=
  emit (ws_terminate ws) ;;
  rs <- gets (fun w => ready w ws) ;;
  when ((rs =? OPEN) || (rs =? CLOSING)) (set_readyState ws CLOSING).

(** ** The broker (server.js) *)

(** [function broadcast(wss, clients, message)] *)
Definition broadcast (message : server_msg) : M unit :=
  ks <- gets (fun w => JsMap.keys (clients w)) ;;
  for_each ks (fun client =>
    rs <- gets (fun w => ready w client) ;;
    when (rs =? 1) (send client message)).

(** The object pushed for one entry by [broadcastParticipants]. *)
Definition participant_of (i : info) : participant :=
  {| p_name := name i;
     p_type := type i;
     p_status := if strict_eq_str (type i) "user" then VStr "observer"
                 else or_else (status i) (VStr "idle");
     p_task := or_else (task i) VNull;
     p_joinedAt := joinedAt i |}.

Fixpoint map_M {A B} (f : A -> M B) (l : list A) : M (list B) :=
  match l with
  | [] => ret []
  | x :: rest => y <- f x ;; ys <- map_M f rest ;; ret (y :: ys)
  end.

(** [function broadcastParticipants()] *)
Definition broadcastParticipants : M unit :=
  es <- gets clients ;;
  participants <- map_M (fun e => i <- deref (snd e) ;; ret (participant_of i)) es ;;
  now <- Date_now ;;
  broadcast (MsgParticipantsUpdate participants now).

(** The body of the [for (const [ws, info] of clients.entries())] loop of
    the heartbeat callback. *)
Definition heartbeat_entry (e : conn * loc) : M unit :=
  let ws := fst e in
  i <- deref (snd e) ;;
  if negb (alive i) then
    line <- template [Lit "! "; Val (name i); Lit " (no heartbeat response, terminating)"] ;;
    emit (console_log line) ;;
    terminate ws
  else
    update (snd e) (set_alive false) ;;
    ping ws.

(** The callback of [heartbeatInterval]. *)
Definition heartbeat : M unit :=
  now <- Date_now ;;
  es <- gets clients ;;
  for_each es heartbeat_entry.

(** The callback of [participantInterval]. *)
Definition participantTick : M unit :=
  n <- gets (fun w => JsMap.size (clients w)) ;;
  when (0 <? n)%nat broadcastParticipants.

(** [wss.on('connection', (ws) => ...)]: the part that runs at once.  The
    transport hands over an open socket. *)
Definition on_connection (ws : conn) : M unit :=
  set_readyState ws OPEN ;;
  now <- Date_now ;;
  l <- new_object (Info (VStr "unknown") (VStr "unknown") true now (VStr "idle") VNull false) ;;
  assign_clientInfo ws l.

(** [ws.on('pong', ...)] *)
Definition on_pong (ws : conn) : M unit :=
  h <- clients_has ws ;;
  if h then
    ol <- clients_get ws ;;
    match ol with
    | Some l => update l (set_alive true)
    | None => ret tt
    end
  else ret tt.

(** [clients.get(ws).leaving = true], guarded by [clients.has(ws)]. *)
Definition mark_leaving (ws : conn) : M unit :=
  ol <- clients_get ws ;;
  match ol with
  | Some l => update l (set_leaving true)
  | None => ret tt
  end.

(** The body of the [try] block of [ws.on('message', ...)]. *)
Definition handle_message (ws : conn) (data : frame) : M unit :=
  msg <- lift (JSON_parse data) ;;
  t <- lift (get_property msg "type") ;;
  if strict_eq_str t "register" then
    registerTime <- Date_now ;;
    m_name <- lift (get_property msg "name") ;;
    m_agentType <- lift (get_property msg "agentType") ;;
    l <- new_object (Info m_name (or_else m_agentType (VStr "agent")) true
                          registerTime (VStr "idle") VNull false) ;;
    assign_clientInfo ws l ;;
    c <- read_clientInfo ws ;;
    clients_set ws c ;;
    c <- read_clientInfo ws ;;
    ci <- deref c ;;
    txt <- template [Val (name ci); Lit " joined"] ;;
    now <- Date_now ;;
    broadcast (MsgSystem txt now) ;;
    broadcastParticipants ;;
    c <- read_clientInfo ws ;;
    ci <- deref c ;;
    line <- template [Lit "+ "; Val (name ci); Lit " ("; Val (type ci); Lit ")"] ;;
    emit (console_log line)
  else
  t <- lift (get_property msg "type") ;;
  if strict_eq_str t "status_update" then
    h <- clients_has ws ;;
    when h (
      ol <- clients_get ws ;;
      match ol with
      | Some l =>
          m_status <- lift (get_property msg "status") ;;
          update l (set_status (or_else m_status (VStr "idle"))) ;;
          m_task <- lift (get_property msg "task") ;;
          update l (set_task (or_else m_task VNull)) ;;
          broadcastParticipants ;;
          i <- deref l ;;
          line <- template ([Lit "~ "; Val (name i); Lit " status: "; Val (status i)] ++
                            (if truthy (task i) then [Lit " - "; Val (task i)] else [Lit ""])) ;;
          emit (console_log line)
      | None => ret tt
      end)
  else
  (t <- lift (get_property msg "type") ;;
   when (strict_eq_str t "chat") (
     m_from <- lift (get_property msg "from") ;;
     l <- read_clientInfo ws ;;
     ci <- deref l ;;
     m_text <- lift (get_property msg "text") ;;
     now <- Date_now ;;
     broadcast (MsgChat (or_else m_from (name ci)) (type ci) m_text now))) ;;
  (t <- lift (get_property msg "type") ;;
   when (strict_eq_str t "discovery") (
     m_category <- lift (get_property msg "category") ;;
     h <- clients_has ws ;;
     when (strict_eq_str m_category "leaving" && h) (mark_leaving ws) ;;
     m_from <- lift (get_property msg "from") ;;
     l <- read_clientInfo ws ;;
     ci <- deref l ;;
     m_category <- lift (get_property msg "category") ;;
     m_text <- lift (get_property msg "text") ;;
     now <- Date_now ;;
     broadcast (MsgDiscovery (or_else m_from (name ci)) (type ci) m_category m_text now))) ;;
  (t <- lift (get_property msg "type") ;;
   when (strict_eq_str t "leaving") (
     h <- clients_has ws ;;
     when h (mark_leaving ws))) ;;
  (t <- lift (get_property msg "type") ;;
   when (strict_eq_str t "who") (
     es <- gets clients ;;
     online <- map_M (fun e => i <- deref (snd e) ;;
                               ret (Online (name i) (type i) (joinedAt i))) es ;;
     now <- Date_now ;;
     send ws (MsgWhoResponse online now))).

(** [ws.on('message', (data) => { try { ... } catch (err) { ... } })] *)
Definition on_message (ws : conn) (data : frame) : M unit :=
  try_catch (handle_message ws data)
    (fun err => emit (console_error [Lit "Invalid message:"; ErrMessage err])).

(** [let exitReason = ...] of the close handler. *)
Definition exitReason (code : Z) (i : info) : string :=
  if (code =? 1000) || leaving i then "left normally"
  else if code =? 1001 then "going away"
  else if code =? 1006 then "connection lost"
  else if negb (alive i) then "heartbeat timeout"
  else "disconnected".

(** [ws.on('close', (code, reason) => ...)]; the transport has set
    [readyState] to CLOSED before it emits the event.  The text of the notice
    is built before its timestamp is read; nothing catches what it raises. *)
Definition on_close (ws : conn) (code : Z) (reason : string) : M unit :=
  set_readyState ws CLOSED ;;
  h <- clients_has ws ;;
  when h (
    ol <- clients_get ws ;;
    match ol with
    | Some l =>
        i <- deref l ;;
        now <- Date_now ;;
        let duration := Math_round (inject_Z (now - joinedAt i) / inject_Z 1000) in
        let exit := exitReason code i in
        clients_delete ws ;;
        txt <- template [Val (name i); Lit " "; Lit exit; Lit " (was here ";
                         Int duration; Lit "s)"] ;;
        now' <- Date_now ;;
        broadcast (MsgSystem txt now') ;;
        broadcastParticipants ;;
        line <- template [Lit "- "; Val (name i); Lit " ["; Lit exit; Lit "] (code: ";
                          Int code; Lit ", duration: "; Int duration; Lit "s)"] ;;
        emit (console_log line)
    | None => ret tt
    end).

(** [ws.on('error', ...)] *)
Definition on_error (ws : conn) (message : string) : M unit :=
  emit (console_error [Lit "WebSocket error:"; Lit message]).

(** ** Events and runs

    The broker only ever reacts to events.  A listener of [ws] exists once
    the connection event of [ws] has run; the transport emits message, pong
    and close events only for a connection that has not closed, and a close
    event once.

    An exception that escapes a handler (the close handler and the two timer
    callbacks have no [try]) reaches the process as an uncaught exception.
    What the handler did before it stays done: [step] gives that state and
    those calls, and [uncaught] tells which exception escaped.  Node ends the
    process there unless the program that embeds the broker listens for
    ['uncaughtException']; [run] goes on to the next event, so that what is
    proved of every run holds in both cases. *)
Inductive event : Type :=
| Connection (ws : conn)
| Message (ws : conn) (data : frame)
| Pong (ws : conn)
| Close (ws : conn) (code : Z) (reason : string)
| Error (ws : conn) (message : string)
| Closing (ws : conn)            (* the transport leaves OPEN: close handshake begun *)
| HeartbeatTick
| ParticipantTick.

Definition handler (ev : event) : M unit :=
  match ev with
  | Connection ws => on_connection ws
  | Message ws data => on_message ws data
  | Pong ws => on_pong ws
  | Close ws code reason => on_close ws code reason
  | Error ws message => on_error ws message
  | Closing ws => set_readyState ws CLOSING
  | HeartbeatTick => heartbeat
  | ParticipantTick => participantTick
  end.

(** Connections whose listeners exist and whose close event has not come. *)
Definition live (w : world) (ws : conn) : bool :=
  match clientInfo w !! ws with
  | Some _ => negb (ready w ws =? CLOSED)
  | None => false
  end.

(** Which events the transport and the timers can deliver in a state. *)
Definition enabled (w : world) (ev : event) : bool :=
  match ev with
  | Connection ws =>
      match clientInfo w !! ws with Some _ => false | None => true end
  | Message ws _ | Pong ws | Close ws _ _ | Error ws _ | Closing ws => live w ws
  | HeartbeatTick | ParticipantTick => true
  end.

Definition step (w : world) (ev : event) : world * list action :=
  match handler ev w with
  | (_, w', out) => (w', out)
  end.

Definition uncaught (w : world) (ev : event) : option exn :=
  match handler ev w with
  | (Throw e, _, _) => Some e
  | (Ok _, _, _) => None
  end.

(** A history of events, from a state: the final state and everything the
    broker did, or [None] when the history is not one the environment can
    produce. *)
Fixpoint run (w : world) (tr : list event) : option (world * list action) :=
  match tr with
  | [] => Some (w, [])
  | ev :: rest =>
      if enabled w ev then
        match step w ev with
        | (w1, out1) =>
            match run w1 rest with
            | Some (w2, out2) => Some (w2, out1 ++ out2)
            | None => None
            end
        end
      else None
  end.

(** The broker right after [createServer], with a given clock. *)
Definition init (clk : nat -> Z) : world :=
  World [] ∅ 0%nat ∅ ∅ clk 0%nat.

Definition sends (out : list action) : list (conn * server_msg) :=
  flat_map (fun a => match a with ws_send c m => [(c, m)] | _ => [] end) out.

(** Who receives a broadcast in a state, and what a snapshot holds. *)
Definition recipients (w : world) : list conn :=
  List.filter (fun c => ready w c =? 1) (JsMap.keys (clients w)).

Definition snapshot (w : world) : list participant :=
  List.map (fun e => participant_of (heap w !!! snd e)) (clients w).

Definition online_list (w : world) : list online_entry :=
  List.map (fun e => let i := heap w !!! snd e in Online (name i) (type i) (joinedAt i))
           (clients w).

Definition deliver (message : server_msg) (cs : list conn) : list action :=
  List.map (fun c => ws_send c message) cs.

Definition read_clock (w : world) : world :=
  World (clients w) (heap w) (next_loc w) (clientInfo w) (readyState w)
        (clock w) (S (reads w)).

(** *** The states the handlers lead to *)

Definition after_close (w : world) (ws : conn) : world :=
  World (JsMap.delete ws (clients w)) (heap w) (next_loc w) (clientInfo w)
        (<[ws := CLOSED]> (readyState w)) (clock w) (S (S (S (reads w)))).

(** The state in which the close handler builds the text of its notice: the
    record is out of the registry and the clock was read once. *)
Definition removed (w : world) (ws : conn) : world :=
  World (JsMap.delete ws (clients w)) (heap w) (next_loc w) (clientInfo w)
        (<[ws := CLOSED]> (readyState w)) (clock w) (S (reads w)).

Definition duration_at (w : world) (i : info) : Z :=
  Math_round (inject_Z (clock w (reads w) - joinedAt i) / inject_Z 1000).

Definition leave_notice (w : world) (code : Z) (i : info) : server_msg :=
  MsgSystem [Val (name i); Lit " "; Lit (exitReason code i); Lit " (was here ";
             Int (duration_at w i); Lit "s)"]
            (clock w (S (reads w))).

(** [msg.k] once [msg] is known to be an object. *)
Definition props_of (msg : value) : list (string * value) :=
  match msg with VObj props => props | _ => [] end.
Definition field (msg : value) (k : string) : value := own_property k (props_of msg).

(** The object a [register] message creates. *)
Definition registered_info (w : world) (msg : value) : info :=
  Info (field msg "name") (or_else (field msg "agentType") (VStr "agent"))
       true (clock w (reads w)) (VStr "idle") VNull false.

Definition after_register (w : world) (ws : conn) (msg : value) : world :=
  World (JsMap.set ws (next_loc w) (clients w))
        (<[next_loc w := registered_info w msg]> (heap w))
        (S (next_loc w))
        (<[ws := next_loc w]> (clientInfo w))
        (readyState w) (clock w) (S (S (S (reads w)))).

(** The state in which the register branch builds the text of its notice:
    the record is in the registry and the clock was read once. *)
Definition registered (w : world) (ws : conn) (msg : value) : world :=
  World (JsMap.set ws (next_loc w) (clients w))
        (<[next_loc w := registered_info w msg]> (heap w))
        (S (next_loc w))
        (<[ws := next_loc w]> (clientInfo w))
        (readyState w) (clock w) (S (reads w)).

(** The record of a registered connection. *)
Definition record_of (w : world) (ws : conn) : option info :=
  match JsMap.get ws (clients w) with
  | Some l => Some (heap w !!! l)
  | None => None
  end.

(** The object behind the closure variable [clientInfo] of [ws]. *)
Definition closure_info (w : world) (ws : conn) : info :=
  heap w !!! default 0%nat (clientInfo w !! ws).

Definition with_heap (w : world) (h : gmap loc info) : world :=
  World (clients w) h (next_loc w) (clientInfo w) (readyState w) (clock w) (reads w).

(** [clients.get(ws).leaving = true] when [ws] is registered. *)
Definition after_leaving (w : world) (ws : conn) : world :=
  match JsMap.get ws (clients w) with
  | Some l => with_heap w (<[l := set_leaving true (heap w !!! l)]> (heap w))
  | None => w
  end.

Definition after_status_update (w : world) (l : loc) (msg : value) : world :=
  with_heap w
    (<[l := set_task (or_else (field msg "task") VNull)
              (set_status (or_else (field msg "status") (VStr "idle")) (heap w !!! l))]>
       (heap w)).

Definition chat_msg (w : world) (ws : conn) (msg : value) : server_msg :=
  MsgChat (or_else (field msg "from") (name (closure_info w ws)))
          (type (closure_info w ws)) (field msg "text") (clock w (reads w)).

Definition discovery_msg (w : world) (ws : conn) (msg : value) : server_msg :=
  MsgDiscovery (or_else (field msg "from") (name (closure_info w ws)))
               (type (closure_info w ws)) (field msg "category") (field msg "text")
               (clock w (reads w)).

(** The six kinds the message handler reacts to. *)
Definition known_kinds : list string :=
  ["register"; "status_update"; "chat"; "discovery"; "leaving"; "who"].

(** The state in which a [discovery] message is relayed: the sender's
    record is marked first when the category is ['leaving']. *)
Definition marked (w : world) (ws : conn) (msg : value) : world :=
  if strict_eq_str (field msg "category") "leaving" then after_leaving w ws else w.

Definition after_connection (w : world) (ws : conn) : world :=
  World (clients w)
        (<[next_loc w := Info (VStr "unknown") (VStr "unknown") true
                              (clock w (reads w)) (VStr "idle") VNull false]> (heap w))
        (S (next_loc w))
        (<[ws := next_loc w]> (clientInfo w))
        (<[ws := OPEN]> (readyState w)) (clock w) (S (reads w)).

Definition after_pong (w : world) (ws : conn) : world :=
  match JsMap.get ws (clients w) with
  | Some l => with_heap w (<[l := set_alive true (heap w !!! l)]> (heap w))
  | None => w
  end.

(** The log line of an entry whose liveness flag is false cannot be built:
    the iteration raises, and with it the loop and the callback. *)
Definition probe_throws (w : world) (e : conn * loc) : bool :=
  negb (alive (heap w !!! snd e)) && negb (printable (name (heap w !!! snd e))).

(** One iteration of the heartbeat loop that does not raise, on entry [e] of
    [clients]: what it calls and the state it leaves. *)
Definition probe_actions (h : gmap loc info) (e : conn * loc) : list action :=
  if negb (alive (h !!! snd e)) then
    [console_log [Lit "! "; Val (name (h !!! snd e));
                  Lit " (no heartbeat response, terminating)"];
     ws_terminate (fst e)]
  else [ws_ping (fst e)].

Definition probe (w : world) (e : conn * loc) : world :=
  if negb (alive (heap w !!! snd e)) then
    if (ready w (fst e) =? OPEN) || (ready w (fst e) =? CLOSING) then
      World (clients w) (heap w) (next_loc w) (clientInfo w)
            (<[fst e := CLOSING]> (readyState w)) (clock w) (reads w)
    else w
  else with_heap w (<[snd e := set_alive false (heap w !!! snd e)]> (heap w)).

Definition after_heartbeat (w : world) : world :=
  fold_left probe (clients w) (read_clock w).

Definition with_readyState (w : world) (ws : conn) (rs : Z) : world :=
  World (clients w) (heap w) (next_loc w) (clientInfo w)
        (<[ws := rs]> (readyState w)) (clock w) (reads w).

Definition join_notice (w : world) (msg : value) : server_msg :=
  MsgSystem [Val (name (registered_info w msg)); Lit " joined"] (clock w (S (reads w))).

Definition is_send (a : action) : bool :=
  match a with ws_send _ _ => true | _ => false end.

Definition is_console (a : action) : bool :=
  match a with console_log _ | console_error _ => true | _ => false end.

(** What the [catch] of the message handler writes. *)
Definition invalid_message (e : exn) : action :=
  console_error [Lit "Invalid message:"; ErrMessage e].

(** A [console.log] of a template literal that ends the [try] block of the
    message handler: the line, or what the [catch] writes when the line cannot
    be built. *)
Definition logged (line : text) : action :=
  if forallb printable_piece line then console_log line else invalid_message TypeError.

(** ** The broker as a transition relation

    One constructor per way a handler can run, those that end in an exception
    included: the register branch whose notice cannot be built, the close
    handler likewise, and the heartbeat loop, which stops at the first entry
    whose log line cannot be built.  [step] refines the relation
    ([step_transition] below). *)
Inductive transition (w : world) : event -> world -> list action -> Prop :=
| T_connection ws :
    transition w (Connection ws) (after_connection w ws) []
| T_invalid ws data e :
    transition w (Message ws data) w [console_error [Lit "Invalid message:"; ErrMessage e]]
| T_ignored ws msg :
    transition w (Message ws (Json msg)) w []
| T_register ws msg line :
    transition w (Message ws (Json msg)) (after_register w ws msg)
      (deliver (join_notice w msg) (recipients (after_register w ws msg)) ++
       deliver (MsgParticipantsUpdate (snapshot (after_register w ws msg))
                                      (clock w (S (S (reads w)))))
               (recipients (after_register w ws msg)) ++
       [logged line])
| T_register_throws ws msg :
    transition w (Message ws (Json msg)) (registered w ws msg) [invalid_message TypeError]
| T_status_update ws msg l line :
    JsMap.get ws (clients w) = Some l ->
    transition w (Message ws (Json msg)) (read_clock (after_status_update w l msg))
      (deliver (MsgParticipantsUpdate (snapshot (after_status_update w l msg))
                                      (clock w (reads w)))
               (recipients w) ++ [logged line])
| T_chat ws msg :
    transition w (Message ws (Json msg)) (read_clock w)
      (deliver (chat_msg w ws msg) (recipients w))
| T_discovery ws msg :
    transition w (Message ws (Json msg)) (read_clock (marked w ws msg))
      (deliver (discovery_msg (marked w ws msg) ws msg) (recipients w))
| T_leaving ws msg :
    transition w (Message ws (Json msg)) (after_leaving w ws) []
| T_who ws msg :
    transition w (Message ws (Json msg)) (read_clock w)
      [ws_send ws (MsgWhoResponse (online_list w) (clock w (reads w)))]
| T_pong ws :
    transition w (Pong ws) (after_pong w ws) []
| T_close ws code reason l line :
    JsMap.get ws (clients w) = Some l ->
    transition w (Close ws code reason) (after_close w ws)
      (deliver (leave_notice w code (heap w !!! l)) (recipients (after_close w ws)) ++
       deliver (MsgParticipantsUpdate (snapshot (after_close w ws))
                                      (clock w (S (S (reads w)))))
               (recipients (after_close w ws)) ++ [console_log line])
| T_close_throws ws code reason l :
    JsMap.get ws (clients w) = Some l ->
    transition w (Close ws code reason) (removed w ws) []
| T_close_unregistered ws code reason :
    JsMap.get ws (clients w) = None ->
    transition w (Close ws code reason) (with_readyState w ws CLOSED) []
| T_error ws message :
    transition w (Error ws message) w [console_error [Lit "WebSocket error:"; Lit message]]
| T_closing ws :
    transition w (Closing ws) (with_readyState w ws CLOSING) []
| T_heartbeat es rest out :
    clients w = es ++ rest ->
    forallb (fun a => negb (is_send a)) out = true ->
    transition w HeartbeatTick (fold_left probe es (read_clock w)) out
| T_participants_none :
    clients w = [] ->
    transition w ParticipantTick w []
| T_participants :
    clients w <> [] ->
    transition w ParticipantTick (read_clock w)
      (deliver (MsgParticipantsUpdate (snapshot w) (clock w (reads w))) (recipients w)).

(** ** Concrete histories used in the examples below *)

Definition demo_clock (n : nat) : Z := 1000 * Z.of_nat n.
Definition backwards_clock (n : nat) : Z := 100000 - 1000 * Z.of_nat n.

Definition wsA : conn := 1%nat.
Definition wsB : conn := 2%nat.

Definition register_frame (n ty : string) : frame :=
  Json (VObj [("type", VStr "register"); ("name", VStr n); ("agentType", VStr ty)]).
Definition chat_frame (txt : string) : frame :=
  Json (VObj [("type", VStr "chat"); ("text", VStr txt)]).
Definition discovery_frame (cat txt : string) : frame :=
  Json (VObj [("type", VStr "discovery"); ("category", VStr cat); ("text", VStr txt)]).
Definition leaving_frame : frame := Json (VObj [("type", VStr "leaving")]).

(** Two agents join; [wsB] then stops answering pings: the first tick
    pings both, only [wsA] answers, the second tick terminates [wsB]. *)
Definition silent_history : list event :=
  [Connection wsA; Connection wsB;
   Message wsA (register_frame "auth-analyzer" "agent");
   Message wsB (register_frame "db-explorer" "agent");
   HeartbeatTick; Pong wsA; HeartbeatTick].

Definition state_after (clk : nat -> Z) (tr : list event) : world :=
  match run (init clk) tr with
  | Some (w, _) => w
  | None => init clk
  end.

Definition output_of (clk : nat -> Z) (tr : list event) : list action :=
  match run (init clk) tr with
  | Some (_, out) => out
  | None => []
  end.

(** One agent has registered; [wsA] is connected but has not. *)
Definition one_registered_history : list event :=
  [Connection wsA; Connection wsB; Message wsB (register_frame "db-explorer" "agent")].

(** Both agents have registered. *)
Definition two_registered_history : list event :=
  [Connection wsA; Connection wsB;
   Message wsA (register_frame "auth-analyzer" "agent");
   Message wsB (register_frame "db-explorer" "agent")].

Definition chat_value (txt : string) : value :=
  VObj [("type", VStr "chat"); ("text", VStr txt)].

(** The exception raised before the message handler has entered any of its
    branches, if any: [JSON.parse] rejects the frame, or the parsed value is
    [null], whose [type] cannot be read.  (A branch can raise one later, while
    it builds a string; that is not a matter of the frame's shape.) *)
Definition rejected (data : frame) : option exn :=
  match JSON_parse data with
  | Throw e => Some e
  | Ok msg =>
      match get_property msg "type" with
      | Throw e => Some e
      | Ok _ => None
      end
  end.

(** What a snapshot entry must say about a record. *)
Definition entry_for (i : info) (p : participant) : Prop :=
  p_name p = name i /\ p_type p = type i /\ p_joinedAt p = joinedAt i /\
  (type i = VStr "user" -> p_status p = VStr "observer") /\
  (type i <> VStr "user" ->
     p_status p = if truthy (status i) then status i else VStr "idle") /\
  p_task p = (if truthy (task i) then task i else VNull).

Definition who_value : value := VObj [("type", VStr "who")].
Definition leaving_value : value := VObj [("type", VStr "leaving")].

(** ** The representation invariant of reachable states

    Each key of [clients] occurs once; the entry of a registered connection
    is the very object its closure variable [clientInfo] refers to, and the
    connection has not closed; references in use are allocated, and no two
    connections share an object. *)
Definition registry_ok (w : world) : Prop :=
  List.NoDup (JsMap.keys (clients w)) /\
  (forall ws l, JsMap.get ws (clients w) = Some l ->
                clientInfo w !! ws = Some l /\ live w ws = true) /\
  (forall ws l, clientInfo w !! ws = Some l -> (l < next_loc w)%nat) /\
  (forall ws1 ws2 l, clientInfo w !! ws1 = Some l -> clientInfo w !! ws2 = Some l ->
                     ws1 = ws2).

(** The timestamps of what was sent, in the order of sending. *)
Definition stamps (out : list action) : list Z :=
  List.map (fun p => timestamp_of (snd p)) (sends out).

(** [ts] are readings number [lo] to [hi - 1] of the clock, taken in
    order. *)
Definition stamped (clk : nat -> Z) (lo hi : nat) (ts : list Z) : Prop :=
  exists idxs, ts = List.map clk idxs /\
               StronglySorted Nat.le idxs /\
               Forall (fun i => (lo <= i < hi)%nat) idxs.

(** One agent joins and sends two chat messages. *)
Definition two_chats_history : list event :=
  [Connection wsA; Message wsA (register_frame "auth-analyzer" "agent");
   Message wsA (chat_frame "first"); Message wsA (chat_frame "second")].

(** Does a system notice give this exit reason? *)
Definition gives_reason (r : string) (m : server_msg) : bool :=
  match m with
  | MsgSystem txt _ =>
      existsb (fun p => match p with Lit s => String.eqb s r | _ => false end) txt
  | _ => false
  end.

(** ** Whose event it is *)

(** The connection an event comes from; the two timers belong to none. *)
Definition subject (ev : event) : option conn :=
  match ev with
  | Connection ws | Message ws _ | Pong ws | Close ws _ _ | Error ws _ | Closing ws => Some ws
  | HeartbeatTick | ParticipantTick => None
  end.

Definition is_heartbeat (ev : event) : bool :=
  match ev with HeartbeatTick => true | _ => false end.

Definition status_value (st : string) : value :=
  VObj [("type", VStr "status_update"); ("status", VStr st)].

(** A register message that gives neither a name nor a role. *)
Definition bare_register_value : value := VObj [("type", VStr "register")].

(** A register message whose name is an object with a property [toString]. *)
Definition odd_register_value : value :=
  VObj [("type", VStr "register"); ("name", VObj [("toString", VNum (1 # 1))])].

(** Every [readyState] the transport has set is OPEN, CLOSING or CLOSED. *)
Definition ready_range (w : world) : Prop :=
  forall ws rs, readyState w !! ws = Some rs -> rs = OPEN \/ rs = CLOSING \/ rs = CLOSED.

Definition is_who_response (m : server_msg) : bool :=
  match m with MsgWhoResponse _ _ => true | _ => false end.

(** Where a history leads from a given state, and what it makes the broker
    do ([w] and nothing when the history cannot happen). *)
Definition end_state (w : world) (tr : list event) : world :=
  match run w tr with
  | Some (w', _) => w'
  | None => w
  end.

Definition end_output (w : world) (tr : list event) : list action :=
  match run w tr with
  | Some (_, out) => out
  | None => []
  end.

Definition is_close_of (ws : conn) (ev : event) : bool :=
  match ev with
  | Close ws' _ _ => Nat.eqb ws ws'
  | _ => false
  end.

(** The fields of a record that only its own connection can change. *)
Definition same_but_alive (i i' : info) : Prop :=
  name i' = name i /\ type i' = type i /\ joinedAt i' = joinedAt i /\
  status i' = status i /\ task i' = task i /\ leaving i' = leaving i.

(** ** Names that can be written into a template literal

    Names enter a record through [register] only; in a history whose
    [register] messages carry names that [ToString] accepts, no notice and no
    log line of the close handler and of the heartbeat raises. *)
Definition registers_printable (ev : event) : bool :=
  match ev with
  | Message _ (Json msg) =>
      match get_property msg "type" with
      | Ok t => if strict_eq_str t "register" then printable (field msg "name") else true
      | Throw _ => true
      end
  | _ => true
  end.

Definition names_printable (w : world) : Prop :=
  forall l : loc, printable (name (heap w !!! l)) = true.

(** * The client adapter (chatroom-mcp.js): message buffer and sending *)

Module Client.

(** [a === b] for two values that come from different calls of [JSON.parse]
    (or from a call argument and a parsed message): primitives are compared
    by value, and two arrays or objects are never the same object. *)
Definition strict_eq (a b : value) : bool :=
  match a, b with
  | VUndefined, VUndefined => true
  | VNull, VNull => true
  | VBool x, VBool y => Bool.eqb x y
  | VNum x, VNum y => Qeq_bool x y
  | VStr x, VStr y => String.eqb x y
  | _, _ => false
  end.

Definition primitive (v : value) : bool :=
  match v with
  | VArr _ | VObj _ => false
  | _ => true
  end.

(** The connection state object [conn] of one agent.  A pending question is
    identified by its timer. *)
Record connection : Type := Connection {
  ws : option (nat * Z);                 (* the socket and its readyState, or null *)
  type : value;
  connected : bool;
  registered : bool;
  pendingQuestions : gmap string nat;
  lastWhoResponse : value                (* undefined until the first answer *)
}.

Definition set_lastWhoResponse (v : value) (c : connection) : connection :=
  Connection (ws c) (type c) (connected c) (registered c) (pendingQuestions c) v.
Definition set_pendingQuestions (q : gmap string nat) (c : connection) : connection :=
  Connection (ws c) (type c) (connected c) (registered c) q (lastWhoResponse c).

(** Calls made by the client. *)
Inductive call : Type :=
| clearTimeout (timer : nat)
| resolve (timer : nat) (answer : string)
| send (socket : nat) (data : frame).

(** The callback of [messages.some(...)]:
    [m.timestamp === msg.timestamp && m.from === msg.from && m.text === msg.text] *)
Definition same_key (m msg : value) : result bool :=
  match get_property m "timestamp" with
  | Throw e => Throw e
  | Ok mt =>
  match get_property msg "timestamp" with
  | Throw e => Throw e
  | Ok gt =>
  if negb (strict_eq mt gt) then Ok false else
  match get_property m "from" with
  | Throw e => Throw e
  | Ok mf =>
  match get_property msg "from" with
  | Throw e => Throw e
  | Ok gf =>
  if negb (strict_eq mf gf) then Ok false else
  match get_property m "text" with
  | Throw e => Throw e
  | Ok mx =>
  match get_property msg "text" with
  | Throw e => Throw e
  | Ok gx => Ok (strict_eq mx gx)
  end end end end end end.

(** [messages.some(callback)]: stops at the first element the callback
    accepts. *)
Fixpoint some (msg : value) (ms : list value) : result bool :=
  match ms with
  | [] => Ok false
  | m :: rest =>
      match same_key m msg with
      | Throw e => Throw e
      | Ok true => Ok true
      | Ok false => some msg rest
      end
  end.

(** [messages.push(msg); if (messages.length > 100) messages.shift();] *)
Definition push (msg : value) (ms : list value) : list value :=
  if (100 <? List.length (ms ++ [msg]))%nat then List.tl (ms ++ [msg]) else ms ++ [msg].

Section Handler.

(** [text.match(...)] with the pattern of an answer tag on a string (the
    characters [A: then lower-case hexadecimal digits, a closing bracket,
    white space, and the rest of the line): the question id and the answer of
    the first match, if there is one. *)
Variable answer_tag : string -> option (string * string).

(** The part of the handler after the buffer: an answer to a pending
    question.  [None] when it throws ([msg.text] is truthy and has no
    [match] method). *)
Definition check_answer (name msg : value) (c : connection)
  : option (connection * list call) :=
  match get_property msg "type", get_property msg "text", get_property msg "from" with
  | Ok t, Ok txt, Ok from =>
      if strict_eq_str t "chat" && truthy txt && negb (strict_eq from name) then
        match txt with
        | VStr s =>
            match answer_tag s with
            | Some (qId, answer) =>
                match pendingQuestions c !! qId with
                | Some pending =>
                    Some (set_pendingQuestions (delete qId (pendingQuestions c)) c,
                          [clearTimeout pending; resolve pending answer])
                | None => Some (c, [])
                end
            | None => Some (c, [])
            end
        | _ => None
        end
      else Some (c, [])
  | _, _, _ => None
  end.

(** [ws.on('message', (data) => { try { ... } catch (e) {} })] of the
    connection of agent [name], on the shared buffer [messages] and the
    agent's [conn]. *)
Definition on_message (name : value) (data : frame)
           (messages : list value) (conn : connection)
  : list value * connection * list call :=
  match JSON_parse data with
  | Throw _ => (messages, conn, [])
  | Ok msg =>
  match get_property msg "type" with
  | Throw _ => (messages, conn, [])
  | Ok t =>
      if strict_eq_str t "who_response" then
        match get_property msg "clients" with
        | Throw _ => (messages, conn, [])
        | Ok cl => (messages, set_lastWhoResponse (or_else cl (VArr [])) conn, [])
        end
      else
        match some msg messages with
        | Throw _ => (messages, conn, [])
        | Ok isDupe =>
            let messages' := if negb isDupe then push msg messages else messages in
            match check_answer name msg conn with
            | Some (conn', calls) => (messages', conn', calls)
            | None => (messages', conn, [])
            end
        end
  end
  end.

End Handler.

(** [connections.get(name)]: keys are compared as [===] does (a key that is
    an array or an object is never found again). *)
Fixpoint connections_get (name : value) (connections : list (value * connection))
  : option connection :=
  match connections with
  | [] => None
  | (k, c) :: rest => if strict_eq k name then Some c else connections_get name rest
  end.

(** The values [JSON.parse] returns: no [undefined] anywhere inside. *)
Fixpoint json_value (v : value) : bool :=
  match v with
  | VUndefined => false
  | VArr vs => forallb json_value vs
  | VObj props => forallb (fun kv => match kv with (_, x) => json_value x end) props
  | _ => true
  end.

(** An argument of a tool call: left out, or a value of the parsed request. *)
Definition tool_argument (v : value) : bool :=
  match v with
  | VUndefined => true
  | _ => json_value v
  end.

(** [JSON.stringify] of an object literal whose property values are tool
    arguments, as the broker's [JSON.parse] reads it back: properties that
    are [undefined] are left out, the others come back as they were. *)
Definition JSON_stringify (props : list (string * value)) : frame :=
  Json (VObj (List.filter (fun kv => match snd kv with VUndefined => false | _ => true end)
                          props)).

(** The result objects [{ success, error }] and [{ success, message }]. *)
Inductive outcome : Type :=
| Failure (error : text)
| Success (message : string).

(** [function broadcast(message, category, senderName)] *)
Definition broadcast (connections : list (value * connection))
           (message category senderName : value) : outcome * list call :=
  if negb (truthy senderName) then
    (Failure [Lit "Name is required to send messages"], [])
  else
    match connections_get senderName connections with
    | None => (Failure [Val senderName; Lit " is not connected"], [])
    | Some conn =>
        if negb (connected conn) then
          (Failure [Val senderName; Lit " is not connected"], [])
        else
          match ws conn with
          | None => (Failure [Val senderName; Lit " is not connected"], [])
          | Some (socket, readyState) =>
              if negb (readyState =? 1) then
                (Failure [Val senderName; Lit " is not connected"], [])
              else
                let msg :=
                  if truthy category then
                    [("type", VStr "discovery"); ("category", category);
                     ("text", message); ("from", senderName)]
                  else
                    [("type", VStr "chat"); ("text", message); ("from", senderName)] in
                (Success "Message sent", [send socket (JSON_stringify msg)])
          end
    end.

End Client.

(** ** Concrete inputs for the client *)

(** The fields the buffer compares. *)
Definition key_fields : list string := ["timestamp"; "from"; "text"].

Definition demo_answer_tag (s : string) : option (string * string) :=
  if String.eqb s "[A:1f2e] use the v2 endpoint" then Some ("1f2e", "use the v2 endpoint")
  else None.

Definition relayed_chat (from txt : string) (ts : Z) : value :=
  VObj [("type", VStr "chat"); ("from", VStr from); ("agentType", VStr "agent");
        ("text", VStr txt); ("timestamp", VNum (inject_Z ts))].

Definition idle_connection : Client.connection :=
  Client.Connection (Some (7%nat, 1)) (VStr "agent") true true ∅ VUndefined.

Definition asking_connection : Client.connection :=
  Client.Connection (Some (7%nat, 1)) (VStr "agent") true true {[ "1f2e" := 4%nat ]} VUndefined.

(** The buffer only ever holds parsed values other than [null]. *)
Definition no_null (ms : list value) : bool :=
  forallb (fun m => match m with VNull | VUndefined => false | _ => true end) ms.

Definition agent_connections : list (value * Client.connection) :=
  [(VStr "auth-analyzer", idle_connection)].

(** * Proofs *)

(** ** Running the monad *)

Lemma bind_ok {A B} (m : M A) (f : A -> M B) w a w1 o1 :
  m w = (Ok a, w1, o1) ->
  bind m f w = (let '(r, w2, o2) := f a w1 in (r, w2, o1 ++ o2)).
Proof. intros H. unfold bind. rewrite H. reflexivity. Qed.

Lemma bind_throw {A B} (m : M A) (f : A -> M B) w e w1 o1 :
  m w = (Throw e, w1, o1) -> bind m f w = (Throw e, w1, o1).
Proof. intros H. unfold bind. rewrite H. reflexivity. Qed.

Lemma bind_assoc {A B C} (m : M A) (g : A -> M B) (k : B -> M C) w :
  bind (bind m g) k w = bind m (fun a => bind (g a) k) w.
Proof.
  unfold bind. destruct (m w) as [[[a|e] w1] o1]; [|reflexivity].
  destruct (g a w1) as [[[b|e] w2] o2]; [|reflexivity].
  destruct (k b w2) as [[r w3] o3]. rewrite app_assoc. reflexivity.
Qed.

Lemma bind_lift_ok {A B} (a : A) (f : A -> M B) w :
  bind (lift (Ok a)) f w = f a w.
Proof. unfold bind, lift. destruct (f a w) as [[r w2] o2]. reflexivity. Qed.

Lemma bind_ret {A B} (a : A) (f : A -> M B) w :
  bind (ret a) f w = f a w.
Proof. unfold bind, ret. destruct (f a w) as [[r w2] o2]. reflexivity. Qed.

Lemma bind_gets {A B} (g : world -> A) (f : A -> M B) w :
  bind (gets g) f w = f (g w) w.
Proof. unfold bind, gets. destruct (f (g w) w) as [[r w2] o2]. reflexivity. Qed.

Lemma bind_modify {B} (g : world -> world) (f : unit -> M B) w :
  bind (modify g) f w = f tt (g w).
Proof. unfold bind, modify. destruct (f tt (g w)) as [[r w2] o2]. reflexivity. Qed.

Lemma bind_emit {B} (a : action) (f : unit -> M B) w :
  bind (emit a) f w = (let '(r, w2, o2) := f tt w in (r, w2, a :: o2)).
Proof. reflexivity. Qed.

Lemma bind_Date_now {B} (f : Z -> M B) w :
  bind Date_now f w = f (clock w (reads w)) (read_clock w).
Proof.
  unfold bind, Date_now, read_clock.
  destruct (f _ _) as [[r w2] o2]. reflexivity.
Qed.

Lemma bind_new_object {B} (i : info) (f : loc -> M B) w :
  bind (new_object i) f w =
  f (next_loc w)
    (World (clients w) (<[next_loc w := i]> (heap w)) (S (next_loc w))
           (clientInfo w) (readyState w) (clock w) (reads w)).
Proof.
  unfold bind, new_object. destruct (f _ _) as [[r w2] o2]. reflexivity.
Qed.

Lemma bind_template_ok {B} (t : text) (f : text -> M B) w :
  forallb printable_piece t = true -> bind (template t) f w = f t w.
Proof. intros H. unfold template. rewrite H. apply bind_ret. Qed.

Lemma bind_template_throws {B} (t : text) (f : text -> M B) w :
  forallb printable_piece t = false -> bind (template t) f w = (Throw TypeError, w, []).
Proof. intros H. unfold template. rewrite H. reflexivity. Qed.

Lemma try_catch_ok (body : M unit) (handler : exn -> M unit) w a w1 o1 :
  body w = (Ok a, w1, o1) -> try_catch body handler w = (Ok a, w1, o1).
Proof. intros H. unfold try_catch. rewrite H. reflexivity. Qed.

Lemma try_catch_throw (body : M unit) (handler : exn -> M unit) w e w1 o1 :
  body w = (Throw e, w1, o1) ->
  try_catch body handler w = (let '(r, w2, o2) := handler e w1 in (r, w2, o1 ++ o2)).
Proof. intros H. unfold try_catch. rewrite H. reflexivity. Qed.

Lemma for_each_pure {A} (l : list A) (body : A -> M unit) (acts : A -> list action) w :
  (forall x, body x w = (Ok tt, w, acts x)) ->
  for_each l body w = (Ok tt, w, flat_map acts l).
Proof.
  intros Hbody. induction l as [|x l IH]; simpl.
  - reflexivity.
  - unfold bind. rewrite Hbody, IH. reflexivity.
Qed.

Lemma map_M_pure {A B} (l : list A) (f : A -> M B) (g : A -> B) w :
  (forall x, f x w = (Ok (g x), w, [])) ->
  map_M f l w = (Ok (List.map g l), w, []).
Proof.
  intros Hf. induction l as [|x l IH]; simpl.
  - reflexivity.
  - unfold bind. rewrite Hf, IH. reflexivity.
Qed.

Lemma flat_map_when (m : server_msg) (p : conn -> bool) (cs : list conn) :
  flat_map (fun c => if p c then [ws_send c m] else []) cs
  = deliver m (List.filter p cs).
Proof.
  induction cs as [|c cs IH]; simpl; [reflexivity|].
  destruct (p c); simpl; rewrite IH; reflexivity.
Qed.

(** [broadcast] sends the message once to every key of [clients] whose
    [readyState] is 1, in Map order, and touches nothing. *)
Lemma broadcast_spec (m : server_msg) (w : world) :
  broadcast m w = (Ok tt, w, deliver m (recipients w)).
Proof.
  unfold broadcast, recipients.
  rewrite (bind_ok _ _ w (JsMap.keys (clients w)) w []) by reflexivity.
  rewrite (for_each_pure _ _ (fun c => if ready w c =? 1 then [ws_send c m] else [])).
  - rewrite flat_map_when. reflexivity.
  - intros c. unfold bind, gets, when, send, emit, ret.
    destruct (ready w c =? 1); reflexivity.
Qed.

Lemma broadcastParticipants_spec (w : world) :
  broadcastParticipants w
  = (Ok tt, read_clock w,
     deliver (MsgParticipantsUpdate (snapshot w) (clock w (reads w)))
             (recipients w)).
Proof.
  unfold broadcastParticipants.
  rewrite (bind_ok _ _ w (clients w) w []) by reflexivity.
  rewrite (bind_ok _ _ w (snapshot w) w []).
  2:{ unfold snapshot. apply map_M_pure. intros e. reflexivity. }
  rewrite (bind_ok _ _ w (clock w (reads w)) (read_clock w) []) by reflexivity.
  rewrite broadcast_spec. reflexivity.
Qed.

#[global] Arguments broadcast : simpl never.
#[global] Arguments broadcastParticipants : simpl never.

Ltac msimpl :=
  cbn [ret lift gets modify emit when
       JSON_parse get_property strict_eq_str String.eqb Ascii.eqb Bool.eqb andb negb
       clients heap next_loc clientInfo readyState clock reads read_clock with_heap
       JsMap.size List.length Nat.ltb Nat.leb
       fst snd app default from_option id].

Ltac mbroadcast :=
  first [ erewrite bind_ok by apply broadcast_spec
        | erewrite bind_ok by apply broadcastParticipants_spec
        | rewrite broadcast_spec
        | rewrite broadcastParticipants_spec ].

(** Symbolic execution of a handler: unfold the derived operations, push
    the state through the binds, decide the comparisons of string literals,
    use the closed forms of the two broadcast functions, and rewrite with the
    facts [tac] knows. *)
Ltac mrun tac :=
  repeat (progress
    (unfold clients_has, clients_get, clients_set, clients_delete,
            read_clientInfo, assign_clientInfo, set_readyState, send, ping,
            mark_leaving, deref, update, JsMap.has;
     rewrite ?bind_assoc, ?bind_lift_ok, ?bind_ret, ?bind_gets, ?bind_modify,
             ?bind_Date_now, ?bind_new_object, ?bind_emit;
     msimpl;
     tac;
     rewrite ?lookup_insert_eq;
     msimpl;
     rewrite ?lookup_total_insert_eq, ?insert_insert_eq, ?app_nil_r;
     try mbroadcast)).

(** ** Closed forms of the handlers *)

Lemma on_close_registered (w : world) (ws : conn) (l : loc) (code : Z) (reason : string) :
  JsMap.get ws (clients w) = Some l ->
  printable (name (heap w !!! l)) = true ->
  on_close ws code reason w =
    (Ok tt, after_close w ws,
     deliver (leave_notice w code (heap w !!! l)) (recipients (after_close w ws)) ++
     deliver (MsgParticipantsUpdate (snapshot (after_close w ws)) (clock w (S (S (reads w)))))
             (recipients (after_close w ws)) ++
     [console_log [Lit "- "; Val (name (heap w !!! l)); Lit " [";
                   Lit (exitReason code (heap w !!! l)); Lit "] (code: ";
                   Int code; Lit ", duration: "; Int (duration_at w (heap w !!! l)); Lit "s)"]]).
Proof.
  intros Hget Hp. unfold on_close.
  mrun ltac:(rewrite ?Hget).
  rewrite bind_template_ok by (cbn; rewrite Hp; reflexivity).
  mrun idtac.
  rewrite bind_template_ok by (cbn; rewrite Hp; reflexivity).
  mrun idtac. reflexivity.
Qed.

(** A name that cannot be converted: the exception leaves the handler once
    the record is out of the registry, before anything is sent. *)
Lemma on_close_throws (w : world) (ws : conn) (l : loc) (code : Z) (reason : string) :
  JsMap.get ws (clients w) = Some l ->
  printable (name (heap w !!! l)) = false ->
  on_close ws code reason w = (Throw TypeError, removed w ws, []).
Proof.
  intros Hget Hp. unfold on_close.
  mrun ltac:(rewrite ?Hget).
  rewrite bind_template_throws by (cbn; rewrite Hp; reflexivity).
  reflexivity.
Qed.

Lemma on_close_unregistered (w : world) (ws : conn) (code : Z) (reason : string) :
  JsMap.get ws (clients w) = None ->
  on_close ws code reason w =
    (Ok tt,
     World (clients w) (heap w) (next_loc w) (clientInfo w)
           (<[ws := CLOSED]> (readyState w)) (clock w) (reads w),
     []).
Proof.
  intros Hget. unfold on_close.
  mrun ltac:(rewrite ?Hget). reflexivity.
Qed.

Lemma type_is_string (msg : value) (k : string) :
  get_property msg "type" = Ok (VStr k) ->
  exists props, msg = VObj props /\ own_property "type" props = VStr k.
Proof.
  destruct msg; simpl; intros H; try discriminate.
  injection H as H. eauto.
Qed.

(** The two ways a template literal can end. *)
Ltac template_cases :=
  match goal with
  | |- context [bind (template ?t) _ _] =>
      let Hl := fresh "Hl" in
      destruct (forallb printable_piece t) eqn:Hl;
      [rewrite (bind_template_ok t) by exact Hl
      |rewrite (bind_template_throws t) by exact Hl]
  end.

Ltac on_message_start Ht props Hp :=
  destruct (type_is_string _ _ Ht) as (props & -> & Hp);
  unfold on_message; apply try_catch_ok; unfold handle_message.

Lemma on_message_register (w : world) (ws : conn) (msg : value) :
  get_property msg "type" = Ok (VStr "register") ->
  printable (field msg "name") = true ->
  on_message ws (Json msg) w =
    (Ok tt, after_register w ws msg,
     deliver (MsgSystem [Val (name (registered_info w msg)); Lit " joined"]
                        (clock w (S (reads w))))
             (recipients (after_register w ws msg)) ++
     deliver (MsgParticipantsUpdate (snapshot (after_register w ws msg))
                                    (clock w (S (S (reads w)))))
             (recipients (after_register w ws msg)) ++
     [logged [Lit "+ "; Val (name (registered_info w msg)); Lit " (";
              Val (type (registered_info w msg)); Lit ")"]]).
Proof.
  intros Ht Hname. destruct (type_is_string _ _ Ht) as (props & -> & Hp).
  unfold field, props_of in Hname.
  unfold on_message, try_catch, handle_message.
  mrun ltac:(rewrite ?Hp).
  rewrite bind_template_ok by (cbn; rewrite Hname; reflexivity).
  mrun idtac.
  unfold logged, registered_info, field, props_of. cbn [name type].
  template_cases; cbn [emit]; rewrite ?app_nil_r, <- ?app_assoc; reflexivity.
Qed.

(** A name that cannot be converted: the record is in the registry when the
    text of the join notice raises; the [catch] logs, nothing is sent. *)
Lemma on_message_register_throws (w : world) (ws : conn) (msg : value) :
  get_property msg "type" = Ok (VStr "register") ->
  printable (field msg "name") = false ->
  on_message ws (Json msg) w
  = (Ok tt, registered w ws msg, [invalid_message TypeError]).
Proof.
  intros Ht Hname. destruct (type_is_string _ _ Ht) as (props & -> & Hp).
  unfold field, props_of in Hname.
  unfold on_message, try_catch, handle_message.
  mrun ltac:(rewrite ?Hp).
  rewrite bind_template_throws by (cbn; rewrite Hname; reflexivity).
  reflexivity.
Qed.

Lemma on_message_status_update (w : world) (ws : conn) (l : loc) (msg : value) :
  get_property msg "type" = Ok (VStr "status_update") ->
  JsMap.get ws (clients w) = Some l ->
  on_message ws (Json msg) w =
    (Ok tt, read_clock (after_status_update w l msg),
     deliver (MsgParticipantsUpdate (snapshot (after_status_update w l msg))
                                    (clock w (reads w)))
             (recipients w) ++
     [logged
        ([Lit "~ "; Val (name (heap w !!! l)); Lit " status: ";
          Val (or_else (field msg "status") (VStr "idle"))] ++
         (if truthy (or_else (field msg "task") VNull)
          then [Lit " - "; Val (or_else (field msg "task") VNull)] else [Lit ""]))]).
Proof.
  intros Ht Hget. destruct (type_is_string _ _ Ht) as (props & -> & Hp).
  unfold on_message, try_catch, handle_message.
  mrun ltac:(rewrite ?Hp, ?Hget).
  unfold logged, field, props_of. cbn [name status task set_status set_task].
  template_cases; cbn [emit]; rewrite ?app_nil_r, <- ?app_assoc; reflexivity.
Qed.

Lemma on_message_status_update_unregistered (w : world) (ws : conn) (msg : value) :
  get_property msg "type" = Ok (VStr "status_update") ->
  JsMap.get ws (clients w) = None ->
  on_message ws (Json msg) w = (Ok tt, w, []).
Proof.
  intros Ht Hget. on_message_start Ht props Hp.
  mrun ltac:(rewrite ?Hp, ?Hget). reflexivity.
Qed.

Lemma on_message_chat (w : world) (ws : conn) (msg : value) :
  get_property msg "type" = Ok (VStr "chat") ->
  on_message ws (Json msg) w =
    (Ok tt, read_clock w, deliver (chat_msg w ws msg) (recipients w)).
Proof.
  intros Ht. on_message_start Ht props Hp.
  mrun ltac:(rewrite ?Hp). reflexivity.
Qed.

Lemma after_leaving_frame (w : world) (ws : conn) :
  clients (after_leaving w ws) = clients w /\
  readyState (after_leaving w ws) = readyState w /\
  clock (after_leaving w ws) = clock w /\
  reads (after_leaving w ws) = reads w /\
  clientInfo (after_leaving w ws) = clientInfo w /\
  next_loc (after_leaving w ws) = next_loc w.
Proof.
  unfold after_leaving. destruct (JsMap.get ws (clients w)); cbn; auto 10.
Qed.

Lemma marked_frame (w : world) (ws : conn) (msg : value) :
  clients (marked w ws msg) = clients w /\
  readyState (marked w ws msg) = readyState w /\
  clock (marked w ws msg) = clock w /\
  reads (marked w ws msg) = reads w /\
  clientInfo (marked w ws msg) = clientInfo w /\
  next_loc (marked w ws msg) = next_loc w.
Proof.
  unfold marked. destruct (strict_eq_str _ _); [apply after_leaving_frame | auto 10].
Qed.

Lemma on_message_discovery (w : world) (ws : conn) (msg : value) :
  get_property msg "type" = Ok (VStr "discovery") ->
  on_message ws (Json msg) w =
    (Ok tt, read_clock (marked w ws msg),
     deliver (discovery_msg (marked w ws msg) ws msg) (recipients w)).
Proof.
  intros Ht. on_message_start Ht props Hp.
  unfold marked, after_leaving, field, props_of.
  destruct (strict_eq_str (own_property "category" props) "leaving") eqn:Hc;
    destruct (JsMap.get ws (clients w)) as [l|] eqn:Hget;
    mrun ltac:(rewrite ?Hp, ?Hc, ?Hget); reflexivity.
Qed.

Lemma on_message_leaving (w : world) (ws : conn) (msg : value) :
  get_property msg "type" = Ok (VStr "leaving") ->
  on_message ws (Json msg) w = (Ok tt, after_leaving w ws, []).
Proof.
  intros Ht. on_message_start Ht props Hp.
  unfold after_leaving.
  destruct (JsMap.get ws (clients w)) as [l|] eqn:Hget;
    mrun ltac:(rewrite ?Hp, ?Hget); reflexivity.
Qed.

Lemma on_message_who (w : world) (ws : conn) (msg : value) :
  get_property msg "type" = Ok (VStr "who") ->
  on_message ws (Json msg) w =
    (Ok tt, read_clock w,
     [ws_send ws (MsgWhoResponse (online_list w) (clock w (reads w)))]).
Proof.
  intros Ht. on_message_start Ht props Hp.
  mrun ltac:(rewrite ?Hp).
  erewrite bind_ok.
  2:{ apply (map_M_pure _ _ (fun e => let i := heap w !!! snd e in
                                       Online (name i) (type i) (joinedAt i))).
      intros e. reflexivity. }
  mrun idtac. reflexivity.
Qed.

(** A message whose [type] is none of the six kinds changes nothing and
    causes no call at all. *)
Lemma on_message_other (w : world) (ws : conn) (msg t : value) :
  get_property msg "type" = Ok t ->
  Forall (fun k => strict_eq_str t k = false) known_kinds ->
  on_message ws (Json msg) w = (Ok tt, w, []).
Proof.
  intros Ht Hk. unfold known_kinds in Hk.
  repeat match goal with H : Forall _ (_ :: _) |- _ => inversion H; clear H; subst end.
  unfold on_message. apply try_catch_ok. unfold handle_message.
  cbn [JSON_parse]. rewrite bind_lift_ok.
  repeat (rewrite ?Ht, ?bind_assoc, ?bind_lift_ok;
          match goal with H : strict_eq_str t _ = false |- _ => rewrite H; clear H end;
          cbn [when]; rewrite ?bind_ret).
  reflexivity.
Qed.

(** A frame that is not JSON, or the JSON value [null], makes the [try]
    block throw; the [catch] logs it. *)
Lemma on_message_not_json (w : world) (ws : conn) (raw : string) :
  on_message ws (NotJson raw) w =
    (Ok tt, w, [console_error [Lit "Invalid message:"; ErrMessage SyntaxError]]).
Proof. reflexivity. Qed.

Lemma on_message_no_type (w : world) (ws : conn) (msg : value) (e : exn) :
  get_property msg "type" = Throw e ->
  on_message ws (Json msg) w =
    (Ok tt, w, [console_error [Lit "Invalid message:"; ErrMessage e]]).
Proof.
  intros Ht. unfold on_message.
  rewrite (try_catch_throw _ _ w e w []).
  - reflexivity.
  - unfold handle_message. cbn [JSON_parse]. rewrite bind_lift_ok.
    apply bind_throw. unfold lift. rewrite Ht. reflexivity.
Qed.

Lemma on_pong_spec (w : world) (ws : conn) :
  on_pong ws w = (Ok tt, after_pong w ws, []).
Proof.
  unfold on_pong, after_pong.
  destruct (JsMap.get ws (clients w)) as [l|] eqn:Hget;
    mrun ltac:(rewrite ?Hget); reflexivity.
Qed.

Lemma on_connection_spec (w : world) (ws : conn) :
  on_connection ws w = (Ok tt, after_connection w ws, []).
Proof. reflexivity. Qed.

Lemma participantTick_spec (w : world) :
  participantTick w =
    match clients w with
    | [] => (Ok tt, w, [])
    | _ :: _ => (Ok tt, read_clock w,
                 deliver (MsgParticipantsUpdate (snapshot w) (clock w (reads w)))
                         (recipients w))
    end.
Proof.
  unfold participantTick. destruct (clients w) as [|e es] eqn:Hc.
  - mrun ltac:(rewrite ?Hc). reflexivity.
  - mrun ltac:(rewrite ?Hc). cbn [JsMap.size List.length Nat.ltb Nat.leb when].
    mrun idtac. reflexivity.
Qed.

(** ** The heartbeat loop *)

Lemma for_each_fold {A} (body : A -> M unit) (next : world -> A -> world)
      (acts : world -> A -> list action) (P : world -> Prop) :
  (forall x w, P w -> body x w = (Ok tt, next w x, acts w x)) ->
  (forall x w, P w -> P (next w x)) ->
  forall (l : list A) (w : world), P w ->
    exists out, for_each l body w = (Ok tt, fold_left next l w, out) /\
      out = (fix go (l : list A) (w : world) : list action :=
               match l with
               | [] => []
               | x :: rest => acts w x ++ go rest (next w x)
               end) l w.
Proof.
  intros Hbody Hnext l. induction l as [|x l IH]; intros w Hw.
  - eexists. split; reflexivity.
  - destruct (IH (next w x) (Hnext x w Hw)) as (out & Hrun & Hout).
    eexists. split; [|reflexivity].
    cbn [for_each fold_left]. unfold bind. rewrite (Hbody x w Hw), Hrun, Hout. reflexivity.
Qed.

Lemma heartbeat_body (e : conn * loc) (w : world) :
  probe_throws w e = false ->
  heartbeat_entry e w = (Ok tt, probe w e, probe_actions (heap w) e).
Proof.
  unfold probe_throws, heartbeat_entry, probe, probe_actions, terminate.
  intros Hp. mrun idtac.
  destruct (alive (heap w !!! snd e)); mrun idtac; [reflexivity|].
  cbn [negb andb] in Hp. apply negb_false_iff in Hp.
  rewrite bind_template_ok by (cbn; rewrite Hp; reflexivity).
  mrun idtac.
  destruct ((ready w (fst e) =? OPEN) || (ready w (fst e) =? CLOSING)); reflexivity.
Qed.

Lemma heartbeat_body_throws (e : conn * loc) (w : world) :
  probe_throws w e = true ->
  heartbeat_entry e w = (Throw TypeError, w, []).
Proof.
  unfold probe_throws, heartbeat_entry.
  intros Hp. apply andb_prop in Hp. destruct Hp as [Ha Hn].
  apply negb_true_iff in Hn.
  mrun idtac. rewrite Ha.
  rewrite bind_template_throws by (cbn; rewrite Hn; reflexivity).
  reflexivity.
Qed.

Lemma probe_frame (w : world) (e : conn * loc) :
  clients (probe w e) = clients w /\ next_loc (probe w e) = next_loc w /\
  clientInfo (probe w e) = clientInfo w /\ clock (probe w e) = clock w /\
  reads (probe w e) = reads w.
Proof.
  unfold probe. destruct (negb _); [destruct (_ || _)|]; cbn; auto.
Qed.

Lemma probe_heap_other (w : world) (e : conn * loc) (l : loc) :
  l <> snd e -> heap (probe w e) !!! l = heap w !!! l.
Proof.
  intros Hne. unfold probe. destruct (negb _); [destruct (_ || _); reflexivity|].
  cbn. rewrite lookup_total_insert_ne by congruence. reflexivity.
Qed.

Lemma set_alive_false_id (i : info) : alive i = false -> set_alive false i = i.
Proof. destruct i; cbn; intros ->; reflexivity. Qed.

Lemma probe_heap_same (w : world) (e : conn * loc) :
  heap (probe w e) !!! snd e = set_alive false (heap w !!! snd e).
Proof.
  unfold probe. destruct (alive (heap w !!! snd e)) eqn:Ha; cbn.
  - apply lookup_total_insert_eq.
  - rewrite set_alive_false_id by assumption.
    destruct (_ || _); reflexivity.
Qed.

Lemma fold_probe_frame (es : list (conn * loc)) (w : world) :
  clients (fold_left probe es w) = clients w /\
  next_loc (fold_left probe es w) = next_loc w /\
  clientInfo (fold_left probe es w) = clientInfo w /\
  clock (fold_left probe es w) = clock w /\
  reads (fold_left probe es w) = reads w.
Proof.
  revert w. induction es as [|e es IH]; intros w; cbn [fold_left]; [auto|].
  destruct (IH (probe w e)) as (-> & -> & -> & -> & ->). apply probe_frame.
Qed.

Lemma fold_probe_heap_other (es : list (conn * loc)) (w : world) (l : loc) :
  ~ In l (List.map snd es) -> heap (fold_left probe es w) !!! l = heap w !!! l.
Proof.
  revert w. induction es as [|e es IH]; intros w Hnin; cbn [fold_left]; [reflexivity|].
  cbn in Hnin. rewrite IH by tauto. apply probe_heap_other. intros ->. tauto.
Qed.

Lemma fold_probe_heap_in (es : list (conn * loc)) (w : world) (l : loc) :
  List.NoDup (List.map snd es) -> In l (List.map snd es) ->
  heap (fold_left probe es w) !!! l = set_alive false (heap w !!! l).
Proof.
  revert w. induction es as [|e es IH]; intros w Hnd Hin; cbn [fold_left]; [destruct Hin|].
  cbn in Hnd, Hin. inversion Hnd as [|? ? Hnin Hnd']; subst.
  destruct Hin as [<-|Hin].
  - rewrite fold_probe_heap_other by assumption. apply probe_heap_same.
  - rewrite IH by assumption. rewrite probe_heap_other; [reflexivity|].
    intros ->. tauto.
Qed.

Lemma probe_actions_ext (h1 h2 : gmap loc info) (es : list (conn * loc)) :
  (forall l, In l (List.map snd es) -> h1 !!! l = h2 !!! l) ->
  flat_map (probe_actions h1) es = flat_map (probe_actions h2) es.
Proof.
  induction es as [|e es IH]; intros Hagree; cbn; [reflexivity|].
  rewrite IH by (intros l Hl; apply Hagree; cbn; auto).
  unfold probe_actions. rewrite (Hagree (snd e)) by (cbn; auto). reflexivity.
Qed.

Lemma names_insert (h : gmap loc info) (l : loc) (i : info) :
  (forall l', printable (name (h !!! l')) = true) ->
  printable (name i) = true ->
  forall l', printable (name (<[l := i]> h !!! l')) = true.
Proof.
  intros Hh Hi l'. destruct (decide (l' = l)) as [->|Hne].
  - rewrite lookup_total_insert_eq. exact Hi.
  - rewrite lookup_total_insert_ne by congruence. apply Hh.
Qed.

Lemma names_probe (w : world) (e : conn * loc) :
  names_printable w -> names_printable (probe w e).
Proof.
  intros Hw. unfold probe. destruct (negb _).
  - destruct (_ || _); exact Hw.
  - unfold names_printable. cbn [with_heap heap]. apply names_insert; [exact Hw | apply Hw].
Qed.

Lemma names_no_throw (w : world) (e : conn * loc) :
  names_printable w -> probe_throws w e = false.
Proof.
  intros Hw. unfold probe_throws. rewrite (Hw (snd e)). apply andb_false_r.
Qed.

(** The heartbeat tick, when every name can be converted and no two entries
    of [clients] share an object: every entry is judged on the flag it had
    when the tick began. *)
Lemma heartbeat_spec (w : world) :
  names_printable w ->
  List.NoDup (List.map snd (clients w)) ->
  heartbeat w = (Ok tt, after_heartbeat w, flat_map (probe_actions (heap w)) (clients w)).
Proof.
  intros Hw Hnd. unfold heartbeat, after_heartbeat.
  rewrite bind_Date_now, bind_gets. cbn [clients read_clock].
  destruct (for_each_fold heartbeat_entry probe (fun w e => probe_actions (heap w) e)
              names_printable
              (fun e w Hw => heartbeat_body e w (names_no_throw w e Hw))
              (fun e w Hw => names_probe w e Hw)
              (clients w) (read_clock w) Hw)
    as (out & Hrun & Hout).
  rewrite Hrun. f_equal. rewrite Hout. clear Hrun Hout out Hw.
  change (heap w) with (heap (read_clock w)).
  generalize (read_clock w) as w0. revert Hnd.
  generalize (clients w) as es. clear w.
  induction es as [|e es IH]; intros Hnd w0; cbn [flat_map]; [reflexivity|].
  cbn in Hnd. inversion Hnd as [|? ? Hnin Hnd']; subst.
  rewrite IH by assumption. f_equal.
  apply probe_actions_ext. intros l Hl. apply probe_heap_other.
  intros ->. tauto.
Qed.

(** ** [step] refines [transition] *)

Lemma strict_eq_str_true (t : value) (k : string) :
  strict_eq_str t k = true -> t = VStr k.
Proof.
  destruct t; cbn; try discriminate. intros H. apply String.eqb_eq in H. congruence.
Qed.

Lemma on_message_transition (w : world) (ws : conn) (data : frame) :
  exists w' out, on_message ws data w = (Ok tt, w', out) /\
                 transition w (Message ws data) w' out.
Proof.
  destruct data as [raw|msg].
  { do 2 eexists. split; [apply on_message_not_json | constructor]. }
  destruct (get_property msg "type") as [t|e] eqn:Ht.
  2:{ do 2 eexists. split; [apply on_message_no_type; eassumption | constructor]. }
  destruct (strict_eq_str t "register") eqn:E1.
  { apply strict_eq_str_true in E1; subst t.
    destruct (printable (field msg "name")) eqn:Hname.
    - do 2 eexists. split; [apply on_message_register; assumption | apply T_register].
    - do 2 eexists. split; [apply on_message_register_throws; assumption | constructor]. }
  destruct (strict_eq_str t "status_update") eqn:E2.
  { apply strict_eq_str_true in E2; subst t.
    destruct (JsMap.get ws (clients w)) as [l|] eqn:Hget.
    - do 2 eexists. split; [eapply on_message_status_update; eassumption |].
      apply T_status_update. assumption.
    - do 2 eexists. split; [eapply on_message_status_update_unregistered; eassumption |].
      constructor. }
  destruct (strict_eq_str t "chat") eqn:E3.
  { apply strict_eq_str_true in E3; subst t.
    do 2 eexists. split; [apply on_message_chat; assumption | constructor]. }
  destruct (strict_eq_str t "discovery") eqn:E4.
  { apply strict_eq_str_true in E4; subst t.
    do 2 eexists. split; [apply on_message_discovery; assumption | constructor]. }
  destruct (strict_eq_str t "leaving") eqn:E5.
  { apply strict_eq_str_true in E5; subst t.
    do 2 eexists. split; [apply on_message_leaving; assumption | constructor]. }
  destruct (strict_eq_str t "who") eqn:E6.
  { apply strict_eq_str_true in E6; subst t.
    do 2 eexists. split; [apply on_message_who; assumption | constructor]. }
  do 2 eexists. split; [|apply T_ignored].
  eapply on_message_other; [eassumption|].
  unfold known_kinds. repeat constructor; assumption.
Qed.

Lemma heartbeat_entry_no_send (e : conn * loc) (w : world) :
  forallb (fun a => negb (is_send a)) (probe_actions (heap w) e) = true.
Proof. unfold probe_actions. destruct (negb _); reflexivity. Qed.

(** The loop in general: it handles a first part of the entries and stops at
    the first one whose log line cannot be built, if there is one. *)
Lemma heartbeat_loop (es : list (conn * loc)) (w : world) :
  exists pre rest r out,
    es = pre ++ rest /\
    for_each es heartbeat_entry w = (r, fold_left probe pre w, out) /\
    forallb (fun a => negb (is_send a)) out = true.
Proof.
  revert w. induction es as [|e es IH]; intros w.
  - exists [], [], (Ok tt), []. repeat split.
  - destruct (probe_throws w e) eqn:Hp.
    + exists [], (e :: es), (Throw TypeError), []. split; [reflexivity|].
      split; [|reflexivity].
      cbn [for_each fold_left]. apply bind_throw. apply heartbeat_body_throws. exact Hp.
    + destruct (IH (probe w e)) as (pre & rest & r & out & -> & Hrun & Hout).
      exists (e :: pre), rest, r, (probe_actions (heap w) e ++ out).
      split; [reflexivity|]. split.
      * cbn [for_each fold_left]. unfold bind.
        rewrite (heartbeat_body e w Hp), Hrun. reflexivity.
      * rewrite forallb_app, heartbeat_entry_no_send, Hout. reflexivity.
Qed.

Lemma heartbeat_runs (w : world) :
  exists es rest r out,
    clients w = es ++ rest /\
    heartbeat w = (r, fold_left probe es (read_clock w), out) /\
    forallb (fun a => negb (is_send a)) out = true.
Proof.
  destruct (heartbeat_loop (clients w) (read_clock w))
    as (es & rest & r & out & Hes & Hrun & Hout).
  exists es, rest, r, out. split; [exact Hes|]. split; [|exact Hout].
  unfold heartbeat. rewrite bind_Date_now, bind_gets. exact Hrun.
Qed.

Lemma step_transition (w : world) (ev : event) :
  transition w ev (fst (step w ev)) (snd (step w ev)).
Proof.
  unfold step. destruct ev as [ws|ws data|ws|ws code reason|ws m|ws| |]; cbn [handler].
  - rewrite on_connection_spec. constructor.
  - destruct (on_message_transition w ws data) as (w' & out & -> & Ht). exact Ht.
  - rewrite on_pong_spec. constructor.
  - destruct (JsMap.get ws (clients w)) as [l|] eqn:Hget.
    + destruct (printable (name (heap w !!! l))) eqn:Hp.
      * rewrite (on_close_registered _ _ _ _ _ Hget Hp). eapply T_close. eassumption.
      * rewrite (on_close_throws _ _ _ _ _ Hget Hp). eapply T_close_throws. eassumption.
    + rewrite (on_close_unregistered _ _ _ _ Hget). constructor. assumption.
  - constructor.
  - constructor.
  - destruct (heartbeat_runs w) as (es & rest & r & out & Hes & -> & Hout).
    eapply T_heartbeat; eassumption.
  - rewrite participantTick_spec. destruct (clients w) eqn:Hc; cbn [fst snd].
    + apply T_participants_none. assumption.
    + apply T_participants. congruence.
Qed.

(** The message handler lets no exception escape. *)
Lemma on_message_returns (w : world) (ws : conn) (data : frame) :
  exists w' out, on_message ws data w = (Ok tt, w', out).
Proof. destruct (on_message_transition w ws data) as (w' & out & Hrun & _). eauto. Qed.

(** ** The Map operations *)

Lemma get_set_eq {V} (k : conn) (v : V) (m : list (conn * V)) :
  JsMap.get k (JsMap.set k v m) = Some v.
Proof.
  induction m as [|[k' v'] m IH]; cbn.
  - rewrite Nat.eqb_refl. reflexivity.
  - destruct (Nat.eqb k k') eqn:E; cbn; rewrite ?E, ?Nat.eqb_refl; auto.
Qed.

Lemma get_set_ne {V} (k k' : conn) (v : V) (m : list (conn * V)) :
  k <> k' -> JsMap.get k' (JsMap.set k v m) = JsMap.get k' m.
Proof.
  intros Hne. induction m as [|[k0 v0] m IH]; cbn.
  - destruct (Nat.eqb_spec k' k); congruence.
  - destruct (Nat.eqb_spec k k0); cbn.
    + subst k0. destruct (Nat.eqb_spec k' k); congruence.
    + destruct (Nat.eqb k' k0); auto.
Qed.

Lemma get_delete_eq {V} (k : conn) (m : list (conn * V)) :
  JsMap.get k (JsMap.delete k m) = None.
Proof.
  induction m as [|[k' v'] m IH]; cbn; [reflexivity|].
  destruct (Nat.eqb k k') eqn:E; cbn; rewrite ?E; auto.
Qed.

Lemma get_delete_ne {V} (k k' : conn) (m : list (conn * V)) :
  k <> k' -> JsMap.get k' (JsMap.delete k m) = JsMap.get k' m.
Proof.
  intros Hne. induction m as [|[k0 v0] m IH]; cbn; [reflexivity|].
  destruct (Nat.eqb_spec k k0); cbn.
  - subst k0. destruct (Nat.eqb_spec k' k); [congruence | exact IH].
  - destruct (Nat.eqb k' k0); auto.
Qed.

Lemma in_keys_get {V} (k : conn) (m : list (conn * V)) :
  In k (JsMap.keys m) <-> exists v, JsMap.get k m = Some v.
Proof.
  induction m as [|[k' v'] m IH]; cbn.
  - split; [tauto | intros [v Hv]; discriminate].
  - destruct (Nat.eqb_spec k k').
    + subst. split; eauto.
    + rewrite <- IH. split; [intros [Heq|H]; [cbn in Heq; congruence | exact H] | auto].
Qed.

Lemma keys_set_present {V} (k : conn) (v v0 : V) (m : list (conn * V)) :
  JsMap.get k m = Some v0 -> JsMap.keys (JsMap.set k v m) = JsMap.keys m.
Proof.
  induction m as [|[k' v'] m IH]; cbn; [discriminate|].
  destruct (Nat.eqb_spec k k'); cbn.
  - subst. reflexivity.
  - intros H. unfold JsMap.keys in IH. rewrite IH by assumption. reflexivity.
Qed.

Lemma keys_set_absent {V} (k : conn) (v : V) (m : list (conn * V)) :
  JsMap.get k m = None -> JsMap.keys (JsMap.set k v m) = JsMap.keys m ++ [k].
Proof.
  induction m as [|[k' v'] m IH]; cbn; [reflexivity|].
  destruct (Nat.eqb_spec k k'); cbn; [discriminate|].
  intros H. unfold JsMap.keys in IH. rewrite IH by assumption. reflexivity.
Qed.

Lemma in_keys_delete {V} (k k' : conn) (m : list (conn * V)) :
  In k' (JsMap.keys (JsMap.delete k m)) <-> k' <> k /\ In k' (JsMap.keys m).
Proof.
  rewrite !in_keys_get. destruct (Nat.eq_dec k k') as [<-|Hne].
  - rewrite get_delete_eq. split; [intros [v Hv]; discriminate | tauto].
  - rewrite get_delete_ne by assumption. split; [intros H; split; [congruence|exact H] | tauto].
Qed.

(** ** What was sent *)

Lemma sends_app (a b : list action) : sends (a ++ b) = sends a ++ sends b.
Proof. unfold sends. apply flat_map_app. Qed.

Lemma sends_deliver (m : server_msg) (cs : list conn) :
  sends (deliver m cs) = List.map (fun c => (c, m)) cs.
Proof. induction cs as [|c cs IH]; cbn; [reflexivity | rewrite <- IH; reflexivity]. Qed.

Lemma sends_no_send (out : list action) :
  forallb (fun a => negb (is_send a)) out = true -> sends out = [].
Proof.
  induction out as [|a out IH]; cbn; [reflexivity|].
  destruct a; cbn; try discriminate; assumption.
Qed.

Lemma sends_logged (line : text) : sends [logged line] = [].
Proof. unfold logged. destruct (forallb _ _); reflexivity. Qed.

Lemma not_in_logged (c : conn) (m : server_msg) (line : text) :
  ~ In (ws_send c m) [logged line].
Proof. unfold logged. destruct (forallb _ _); cbn; intuition discriminate. Qed.

Lemma in_recipients (w : world) (c : conn) :
  In c (recipients w) <-> In c (JsMap.keys (clients w)) /\ ready w c = OPEN.
Proof.
  unfold recipients. rewrite filter_In. unfold OPEN.
  split; intros [H1 H2]; split; auto; lia.
Qed.

(** ** The elapsed time reported at close *)

Lemma Math_round_div_1000 (d : Z) :
  Math_round (inject_Z d / inject_Z 1000) = (d + 500) / 1000.
Proof.
  unfold Math_round, Qfloor, Qdiv, Qmult, Qinv, Qplus, inject_Z. cbn.
  change (Z.pos (1 * 1000 * 2)) with (1000 * 2).
  replace (d * 1 * 2 + 1 * Z.pos (1 * 1000)) with ((d + 500) * 2) by lia.
  apply Z.div_mul_cancel_r; lia.
Qed.

(** ** The reason given at close *)

Lemma exitReason_precedence (code : Z) (i : info) :
  (code = 1000 \/ leaving i = true -> exitReason code i = "left normally") /\
  (code <> 1000 -> leaving i = false -> code = 1001 ->
     exitReason code i = "going away") /\
  (code <> 1000 -> leaving i = false -> code <> 1001 -> code = 1006 ->
     exitReason code i = "connection lost") /\
  (code <> 1000 -> leaving i = false -> code <> 1001 -> code <> 1006 ->
     alive i = false -> exitReason code i = "heartbeat timeout") /\
  (code <> 1000 -> leaving i = false -> code <> 1001 -> code <> 1006 ->
     alive i = true -> exitReason code i = "disconnected").
Proof.
  unfold exitReason. repeat split.
  - intros [->| ->]; [reflexivity|]. rewrite orb_true_r. reflexivity.
  - intros H0 -> ->. reflexivity.
  - intros H0 -> H1 ->. reflexivity.
  - intros H0 -> H1 H6 ->.
    destruct (Z.eqb_spec code 1000), (Z.eqb_spec code 1001), (Z.eqb_spec code 1006);
      try contradiction; reflexivity.
  - intros H0 -> H1 H6 ->.
    destruct (Z.eqb_spec code 1000), (Z.eqb_spec code 1001), (Z.eqb_spec code 1006);
      try contradiction; reflexivity.
Qed.

(** ** Reachable states *)

Lemma nodup_keys_set {V} (k : conn) (v : V) (m : list (conn * V)) :
  List.NoDup (JsMap.keys m) -> List.NoDup (JsMap.keys (JsMap.set k v m)).
Proof.
  intros Hnd. destruct (JsMap.get k m) as [v0|] eqn:Hget.
  - rewrite (keys_set_present _ _ _ _ Hget). exact Hnd.
  - rewrite (keys_set_absent _ _ _ Hget).
    apply List.NoDup_app; [exact Hnd | constructor; [intros [] | constructor] |].
    intros x Hx [<-|[]]. apply in_keys_get in Hx. destruct Hx as [v' Hv']. congruence.
Qed.

Lemma nodup_keys_delete {V} (k : conn) (m : list (conn * V)) :
  List.NoDup (JsMap.keys m) -> List.NoDup (JsMap.keys (JsMap.delete k m)).
Proof.
  unfold JsMap.keys, JsMap.delete. induction m as [|[k' v'] m IH]; cbn; intros Hnd.
  - constructor.
  - inversion Hnd as [|? ? Hnin Hnd']; subst.
    destruct (Nat.eqb k k'); cbn; [auto|].
    constructor; [|auto].
    intros Hin. apply Hnin. apply in_map_iff in Hin. destruct Hin as ([k0 v0] & Hk & Hin).
    apply filter_In in Hin. apply in_map_iff. exists (k0, v0). tauto.
Qed.

Lemma in_get {V} (k : conn) (v : V) (m : list (conn * V)) :
  List.NoDup (JsMap.keys m) -> In (k, v) m -> JsMap.get k m = Some v.
Proof.
  induction m as [|[k' v'] m IH]; cbn; intros Hnd Hin; [destruct Hin|].
  inversion Hnd as [|? ? Hnin Hnd']; subst.
  destruct Hin as [Heq|Hin].
  - injection Heq as -> ->. rewrite Nat.eqb_refl. reflexivity.
  - destruct (Nat.eqb_spec k k') as [->|Hne]; [|auto].
    exfalso. apply Hnin. apply in_map_iff. exists (k', v). auto.
Qed.

Lemma get_in {V} (k : conn) (v : V) (m : list (conn * V)) :
  JsMap.get k m = Some v -> In (k, v) m.
Proof.
  induction m as [|[k' v'] m IH]; cbn; [discriminate|].
  destruct (Nat.eqb_spec k k') as [->|Hne].
  - intros H. injection H as ->. auto.
  - auto.
Qed.

Lemma live_ext (w1 w2 : world) (ws : conn) :
  clientInfo w1 = clientInfo w2 -> ready w1 ws = ready w2 ws -> live w1 ws = live w2 ws.
Proof. unfold live. intros -> ->. reflexivity. Qed.

Lemma registry_ok_ext (w w' : world) :
  clients w' = clients w -> clientInfo w' = clientInfo w -> next_loc w' = next_loc w ->
  (forall ws, live w ws = true -> live w' ws = true) ->
  registry_ok w -> registry_ok w'.
Proof.
  intros Hc Hci Hn Hlive (H1 & H2 & H3 & H4).
  unfold registry_ok. rewrite Hc, Hci, Hn.
  repeat split; auto.
  - apply (H2 ws l); assumption.
  - apply Hlive. apply (H2 ws l); assumption.
Qed.

Lemma registry_ok_init (clk : nat -> Z) : registry_ok (init clk).
Proof.
  unfold registry_ok, init. cbn [clients clientInfo next_loc].
  split; [constructor|]. split; [|split].
  - intros ws l H. discriminate.
  - intros ws l H. rewrite lookup_empty in H. discriminate.
  - intros ws1 ws2 l H. rewrite lookup_empty in H. discriminate.
Qed.

Lemma ready_with_readyState (w : world) (ws c : conn) (rs : Z) :
  ready (with_readyState w ws rs) c = if decide (ws = c) then rs else ready w c.
Proof.
  unfold ready, with_readyState. cbn [readyState].
  rewrite lookup_insert. destruct (decide (ws = c)); reflexivity.
Qed.

Lemma live_probe (w : world) (e : conn * loc) (c : conn) :
  live (probe w e) c = live w c.
Proof.
  unfold probe. destruct (negb _); [|reflexivity].
  destruct ((ready w (fst e) =? OPEN) || (ready w (fst e) =? CLOSING)) eqn:Hr; [|reflexivity].
  unfold live. cbn [clientInfo]. destruct (clientInfo w !! c); [|reflexivity].
  change (World (clients w) (heap w) (next_loc w) (clientInfo w)
                (<[fst e := CLOSING]> (readyState w)) (clock w) (reads w))
    with (with_readyState w (fst e) CLOSING).
  rewrite ready_with_readyState. destruct (decide (fst e = c)) as [<-|]; [|reflexivity].
  unfold OPEN, CLOSING, CLOSED in *.
  destruct (Z.eqb_spec (ready w (fst e)) 3); [|reflexivity].
  rewrite e0 in Hr. discriminate.
Qed.

Lemma live_fold_probe (es : list (conn * loc)) (w : world) (c : conn) :
  live (fold_left probe es w) c = live w c.
Proof.
  revert w. induction es as [|e es IH]; intros w; cbn [fold_left].
  - reflexivity.
  - rewrite IH. apply live_probe.
Qed.

Lemma registry_ok_after_register (w : world) (ws : conn) (msg : value) :
  live w ws = true -> registry_ok w -> registry_ok (after_register w ws msg).
Proof.
  intros Hen (H1 & H2 & H3 & H4).
  unfold registry_ok, after_register. cbn [clients clientInfo next_loc].
  split; [apply nodup_keys_set; exact H1|]. split; [|split].
  + intros c l. destruct (decide (ws = c)) as [<-|Hne].
    * rewrite get_set_eq. intros H. injection H as <-.
      split; [apply lookup_insert_eq|].
      unfold live in *. cbn [clientInfo]. rewrite lookup_insert_eq.
      destruct (clientInfo w !! ws); [exact Hen | discriminate].
    * rewrite get_set_ne by exact Hne. intros Hget.
      destruct (H2 c l Hget) as [Hci Hlive].
      split; [rewrite lookup_insert_ne by exact Hne; exact Hci|].
      unfold live in *. cbn [clientInfo]. rewrite lookup_insert_ne by exact Hne.
      exact Hlive.
  + intros c l. rewrite lookup_insert. destruct (decide (ws = c)).
    * intros H. injection H as <-. lia.
    * intros H. apply H3 in H. lia.
  + intros c1 c2 l. rewrite !lookup_insert.
    destruct (decide (ws = c1)), (decide (ws = c2)); intros E1 E2; try congruence.
    * injection E1 as <-. apply H3 in E2. lia.
    * injection E2 as <-. apply H3 in E1. lia.
    * eapply H4; eassumption.
Qed.

Lemma registry_ok_after_close (w : world) (ws : conn) :
  registry_ok w -> registry_ok (after_close w ws).
Proof.
  intros (H1 & H2 & H3 & H4).
  unfold registry_ok, after_close. cbn [clients clientInfo next_loc].
  split; [apply nodup_keys_delete; exact H1|]. split; [|split; assumption].
  intros c l'. destruct (decide (ws = c)) as [<-|Hne].
  + rewrite get_delete_eq. discriminate.
  + rewrite get_delete_ne by exact Hne. intros Hget.
    destruct (H2 c l' Hget) as [Hci Hlive]. split; [exact Hci|].
    unfold live, ready in *. cbn [clientInfo readyState].
    rewrite lookup_insert_ne by exact Hne. exact Hlive.
Qed.

Lemma registry_ok_step (w w' : world) (ev : event) (out : list action) :
  transition w ev w' out -> enabled w ev = true -> registry_ok w -> registry_ok w'.
Proof.
  intros Htr Hen Hok.
  destruct Htr; cbn [enabled] in Hen.
  - (* connection *)
    destruct Hok as (H1 & H2 & H3 & H4).
    destruct (clientInfo w !! ws) eqn:Hfresh; [discriminate|].
    unfold registry_ok, after_connection. cbn [clients clientInfo next_loc].
    split; [exact H1|]. split; [|split].
    + intros c l Hget. destruct (H2 c l Hget) as [Hci Hlive].
      assert (Hne : ws <> c) by congruence.
      split; [rewrite lookup_insert_ne by exact Hne; exact Hci|].
      unfold live, ready in *. cbn [clientInfo readyState].
      rewrite !lookup_insert_ne by exact Hne. exact Hlive.
    + intros c l. rewrite lookup_insert. destruct (decide (ws = c)).
      * intros H. injection H as <-. lia.
      * intros H. apply H3 in H. lia.
    + intros c1 c2 l. rewrite !lookup_insert.
      destruct (decide (ws = c1)), (decide (ws = c2)); intros E1 E2; try congruence.
      * injection E1 as <-. apply H3 in E2. lia.
      * injection E2 as <-. apply H3 in E1. lia.
      * eapply H4; eassumption.
  - exact Hok.
  - exact Hok.
  - (* register *)
    apply registry_ok_after_register; assumption.
  - (* register, the notice cannot be built *)
    apply (registry_ok_ext (after_register w ws msg));
      [reflexivity | reflexivity | reflexivity | auto |].
    apply registry_ok_after_register; assumption.
  - (* status update *)
    apply (registry_ok_ext w); [reflexivity | reflexivity | reflexivity | auto | exact Hok].
  - (* chat *)
    apply (registry_ok_ext w); [reflexivity | reflexivity | reflexivity | auto | exact Hok].
  - (* discovery *)
    destruct (marked_frame w ws msg) as (Hc & Hr & _ & _ & Hci & Hn).
    apply (registry_ok_ext w); [exact Hc | exact Hci | exact Hn | | exact Hok].
    intros c Hlive. rewrite <- Hlive. apply live_ext; [exact Hci|].
    unfold ready. cbn [read_clock readyState]. rewrite Hr. reflexivity.
  - (* leaving *)
    destruct (after_leaving_frame w ws) as (Hc & Hr & _ & _ & Hci & Hn).
    apply (registry_ok_ext w); [exact Hc | exact Hci | exact Hn | | exact Hok].
    intros c Hlive. rewrite <- Hlive. apply live_ext; [exact Hci|].
    unfold ready. rewrite Hr. reflexivity.
  - (* who *)
    apply (registry_ok_ext w); [reflexivity | reflexivity | reflexivity | auto | exact Hok].
  - (* pong *)
    unfold after_pong. destruct (JsMap.get ws (clients w)); [|exact Hok].
    apply (registry_ok_ext w); [reflexivity | reflexivity | reflexivity | auto | exact Hok].
  - (* close of a registered connection *)
    apply registry_ok_after_close. exact Hok.
  - (* close, the notice cannot be built *)
    apply (registry_ok_ext (after_close w ws));
      [reflexivity | reflexivity | reflexivity | auto |].
    apply registry_ok_after_close. exact Hok.
  - (* close of a connection that never registered *)
    destruct Hok as (H1 & H2 & H3 & H4).
    unfold registry_ok, with_readyState. cbn [clients clientInfo next_loc].
    split; [exact H1|]. split; [|split; assumption].
    intros c l' Hget. destruct (H2 c l' Hget) as [Hci Hlive]. split; [exact Hci|].
    assert (Hne : ws <> c) by congruence.
    unfold live, ready in *. cbn [clientInfo readyState].
    rewrite lookup_insert_ne by exact Hne. exact Hlive.
  - exact Hok.
  - (* closing *)
    apply (registry_ok_ext w); [reflexivity | reflexivity | reflexivity | | exact Hok].
    intros c Hlive. unfold live in *. cbn [with_readyState clientInfo].
    destruct (clientInfo w !! c); [|discriminate].
    rewrite ready_with_readyState. destruct (decide (ws = c)); [reflexivity | exact Hlive].
  - (* heartbeat *)
    destruct (fold_probe_frame es (read_clock w)) as (Hc & Hn & Hci & _ & _).
    apply (registry_ok_ext w); [exact Hc | exact Hci | exact Hn | | exact Hok].
    intros c Hlive. rewrite live_fold_probe. exact Hlive.
  - exact Hok.
  - (* participants *)
    apply (registry_ok_ext w); [reflexivity | reflexivity | reflexivity | auto | exact Hok].
Qed.

Lemma run_app_step (w : world) (ev : event) (rest : list event) (w2 : world)
      (out : list action) :
  run w (ev :: rest) = Some (w2, out) ->
  enabled w ev = true /\
  exists out2, run (fst (step w ev)) rest = Some (w2, out2) /\
               out = snd (step w ev) ++ out2.
Proof.
  cbn [run]. destruct (enabled w ev); [|discriminate].
  destruct (step w ev) as [w1 out1]. cbn [fst snd].
  destruct (run w1 rest) as [[w2' out2]|]; [|discriminate].
  intros H. injection H as <- <-. eauto.
Qed.

(** Every state the broker reaches satisfies the invariant. *)
Lemma registry_ok_run (tr : list event) (w w' : world) (out : list action) :
  registry_ok w -> run w tr = Some (w', out) -> registry_ok w'.
Proof.
  revert w out. induction tr as [|ev tr IH]; intros w out Hok Hrun.
  - cbn in Hrun. injection Hrun as <- _. exact Hok.
  - apply run_app_step in Hrun. destruct Hrun as (Hen & out2 & Hrun & _).
    eapply IH; [|exact Hrun].
    eapply registry_ok_step; [apply step_transition | exact Hen | exact Hok].
Qed.

Lemma registry_ok_nodup_objects (w : world) :
  registry_ok w -> List.NoDup (List.map snd (clients w)).
Proof.
  intros (H1 & H2 & _ & H4).
  assert (Hinj : forall k1 k2 v, In (k1, v) (clients w) -> In (k2, v) (clients w) -> k1 = k2).
  { intros k1 k2 v Hin1 Hin2.
    apply (in_get _ _ _ H1) in Hin1. apply (in_get _ _ _ H1) in Hin2.
    apply H2 in Hin1. apply H2 in Hin2. eapply H4; [apply Hin1 | apply Hin2]. }
  clear H2 H4. unfold JsMap.keys in H1.
  induction (clients w) as [|[k v] m IH]; cbn; [constructor|].
  cbn in H1. inversion H1 as [|? ? Hnin Hnd]; subst.
  constructor.
  - intros Hin. apply in_map_iff in Hin. destruct Hin as ([k' v'] & Hv & Hin).
    cbn in Hv. subst v'.
    assert (k' = k) by (eapply Hinj; [right; exact Hin | left; reflexivity]).
    subst k'. apply Hnin. apply in_map_iff. exists (k, v). auto.
  - apply IH; [exact Hnd|]. intros k1 k2 v0 Hi1 Hi2. eapply Hinj; right; eassumption.
Qed.

(** What a close on a registered connection sends. *)
Lemma close_registered_sends (w : world) (ws : conn) (l : loc) (code : Z) (reason : string) :
  JsMap.get ws (clients w) = Some l ->
  printable (name (heap w !!! l)) = true ->
  exists out,
    on_close ws code reason w = (Ok tt, after_close w ws, out) /\
    sends out =
      List.map (fun c => (c, MsgSystem [Val (name (heap w !!! l)); Lit " ";
                                        Lit (exitReason code (heap w !!! l));
                                        Lit " (was here ";
                                        Int ((clock w (reads w) - joinedAt (heap w !!! l) + 500)
                                             / 1000);
                                        Lit "s)"]
                                       (clock w (S (reads w)))))
               (recipients (after_close w ws)) ++
      List.map (fun c => (c, MsgParticipantsUpdate (snapshot (after_close w ws))
                                                   (clock w (S (S (reads w))))))
               (recipients (after_close w ws)).
Proof.
  intros Hget Hp. eexists. split; [apply (on_close_registered w ws l); assumption|].
  rewrite !sends_app, !sends_deliver. cbn [sends flat_map]. rewrite app_nil_r.
  unfold leave_notice, duration_at. rewrite Math_round_div_1000. reflexivity.
Qed.

(** ** The scenarios of the specification, run on the model *)

(** Two agents register; the first announces a discovery: both receive it,
    with the sender's name and role and the broker's timestamp. *)
Example scenario_discovery :
  sends (snd (step (state_after demo_clock two_registered_history)
                   (Message wsA (discovery_frame "claiming" "src/auth/"))))
  = [(wsA, MsgDiscovery (VStr "auth-analyzer") (VStr "agent") (VStr "claiming")
                        (VStr "src/auth/") 8000);
     (wsB, MsgDiscovery (VStr "auth-analyzer") (VStr "agent") (VStr "claiming")
                        (VStr "src/auth/") 8000)].
Proof. vm_compute. reflexivity. Qed.

(** Both agents saw 1 member, then 2. *)
Example scenario_joins :
  sends (output_of demo_clock two_registered_history)
  = [(wsA, MsgSystem [Val (VStr "auth-analyzer"); Lit " joined"] 3000);
     (wsA, MsgParticipantsUpdate
             [Participant (VStr "auth-analyzer") (VStr "agent") (VStr "idle") VNull 2000]
             4000);
     (wsA, MsgSystem [Val (VStr "db-explorer"); Lit " joined"] 6000);
     (wsB, MsgSystem [Val (VStr "db-explorer"); Lit " joined"] 6000);
     (wsA, MsgParticipantsUpdate
             [Participant (VStr "auth-analyzer") (VStr "agent") (VStr "idle") VNull 2000;
              Participant (VStr "db-explorer") (VStr "agent") (VStr "idle") VNull 5000]
             7000);
     (wsB, MsgParticipantsUpdate
             [Participant (VStr "auth-analyzer") (VStr "agent") (VStr "idle") VNull 2000;
              Participant (VStr "db-explorer") (VStr "agent") (VStr "idle") VNull 5000]
             7000)].
Proof. vm_compute. reflexivity. Qed.

(** [leaving], then a close with an abnormal code: still "left normally". *)
Example scenario_leaving_then_close :
  sends (snd (step (fst (step (state_after demo_clock two_registered_history)
                              (Message wsB leaving_frame)))
                   (Close wsB 1006 "")))
  = [(wsA, MsgSystem [Val (VStr "db-explorer"); Lit " "; Lit "left normally";
                      Lit " (was here "; Int 3; Lit "s)"] 9000);
     (wsA, MsgParticipantsUpdate
             [Participant (VStr "auth-analyzer") (VStr "agent") (VStr "idle") VNull 2000]
             10000)].
Proof. vm_compute. reflexivity. Qed.

(** A socket killed while its liveness flag is true: "connection lost". *)
Example scenario_abrupt_drop :
  sends (snd (step (state_after demo_clock two_registered_history) (Close wsB 1006 "")))
  = [(wsA, MsgSystem [Val (VStr "db-explorer"); Lit " "; Lit "connection lost";
                      Lit " (was here "; Int 3; Lit "s)"] 9000);
     (wsA, MsgParticipantsUpdate
             [Participant (VStr "auth-analyzer") (VStr "agent") (VStr "idle") VNull 2000]
             10000)].
Proof. vm_compute. reflexivity. Qed.

(** * The claims *)

(** ** C1: the close handler *)

(** The close handler on a registered connection whose name can be converted
    to a string: the record is removed, then a notice made of the identity,
    the exit reason and the elapsed membership time in seconds is sent to the
    connections that remain, followed by a participants snapshot.  The exit
    reason follows the precedence of the source. *)
Lemma close_notice (w : world) (ws : conn) (l : loc) (code : Z) (reason : string) :
  JsMap.get ws (clients w) = Some l ->
  printable (name (heap w !!! l)) = true ->
  exists out,
    on_close ws code reason w = (Ok tt, after_close w ws, out) /\
    JsMap.get ws (clients (after_close w ws)) = None /\
    sends out =
      List.map (fun c => (c, MsgSystem [Val (name (heap w !!! l)); Lit " ";
                                        Lit (exitReason code (heap w !!! l));
                                        Lit " (was here ";
                                        Int ((clock w (reads w) - joinedAt (heap w !!! l) + 500)
                                             / 1000);
                                        Lit "s)"]
                                       (clock w (S (reads w)))))
               (recipients (after_close w ws)) ++
      List.map (fun c => (c, MsgParticipantsUpdate (snapshot (after_close w ws))
                                                   (clock w (S (S (reads w))))))
               (recipients (after_close w ws)) /\
    (code = 1000 \/ leaving (heap w !!! l) = true ->
       exitReason code (heap w !!! l) = "left normally") /\
    (code <> 1000 -> leaving (heap w !!! l) = false -> code = 1001 ->
       exitReason code (heap w !!! l) = "going away") /\
    (code <> 1000 -> leaving (heap w !!! l) = false -> code <> 1001 -> code = 1006 ->
       exitReason code (heap w !!! l) = "connection lost") /\
    (code <> 1000 -> leaving (heap w !!! l) = false -> code <> 1001 -> code <> 1006 ->
       alive (heap w !!! l) = false ->
       exitReason code (heap w !!! l) = "heartbeat timeout") /\
    (code <> 1000 -> leaving (heap w !!! l) = false -> code <> 1001 -> code <> 1006 ->
       alive (heap w !!! l) = true ->
       exitReason code (heap w !!! l) = "disconnected").
Proof.
  intros Hget Hp.
  destruct (close_registered_sends w ws l code reason Hget Hp) as (out & Hrun & Hsends).
  exists out. split; [exact Hrun|].
  split; [apply get_delete_eq|].
  split; [exact Hsends|].
  apply exitReason_precedence.
Qed.

(** C1, at the input where the code departs from it.  [wsB] has registered
    and gone silent: its liveness flag is false, it has no leaving flag, and
    the second heartbeat tick has terminated it.  The transport reports the
    destroyed socket with close code 1006.  The close handler removes the
    record and tests the code before the liveness flag: the reason it computes,
    and sends in the notice to [wsA], is "connection lost".  Its branch for
    "heartbeat timeout" is reached only by a code other than 1000, 1001 and
    1006 (1011, say), which no evicted connection is closed with. *)
Theorem close_exit_reason :
  record_of (state_after demo_clock silent_history) wsB
  = Some (Info (VStr "db-explorer") (VStr "agent") false 5000 (VStr "idle") VNull false) /\
  In (ws_terminate wsB) (snd (step (state_after demo_clock (removelast silent_history))
                                   HeartbeatTick)) /\
  exitReason 1006 (Info (VStr "db-explorer") (VStr "agent") false 5000 (VStr "idle")
                        VNull false) = "connection lost" /\
  exitReason 1011 (Info (VStr "db-explorer") (VStr "agent") false 5000 (VStr "idle")
                        VNull false) = "heartbeat timeout" /\
  on_close wsB 1006 "" (state_after demo_clock silent_history)
  = (Ok tt, after_close (state_after demo_clock silent_history) wsB,
     [ws_send wsA (MsgSystem [Val (VStr "db-explorer"); Lit " "; Lit "connection lost";
                              Lit " (was here "; Int 5; Lit "s)"] 11000);
      ws_send wsA (MsgParticipantsUpdate
                     [Participant (VStr "auth-analyzer") (VStr "agent") (VStr "idle")
                                  VNull 2000]
                     12000);
      console_log [Lit "- "; Val (VStr "db-explorer"); Lit " ["; Lit "connection lost";
                   Lit "] (code: "; Int 1006; Lit ", duration: "; Int 5; Lit "s)"]]) /\
  record_of (after_close (state_after demo_clock silent_history) wsB) wsB = None.
Proof.
  split; [vm_compute; reflexivity|].
  split; [vm_compute; tauto|].
  split; [reflexivity|]. split; [reflexivity|].
  split; vm_compute; reflexivity.
Qed.

(** ** C2: fan-out of chat and discovery *)

Lemma insert_leaving_name_type (h : gmap loc info) (l l' : loc) :
  name (<[l := set_leaving true (h !!! l)]> h !!! l') = name (h !!! l') /\
  type (<[l := set_leaving true (h !!! l)]> h !!! l') = type (h !!! l').
Proof.
  destruct (decide (l = l')) as [<-|Hne].
  - rewrite lookup_total_insert_eq. split; reflexivity.
  - rewrite lookup_total_insert_ne by assumption. split; reflexivity.
Qed.

Lemma closure_info_marked (w : world) (ws : conn) (msg : value) :
  name (closure_info (marked w ws msg) ws) = name (closure_info w ws) /\
  type (closure_info (marked w ws msg) ws) = type (closure_info w ws).
Proof.
  unfold marked, after_leaving, closure_info.
  destruct (strict_eq_str _ _); [|split; reflexivity].
  destruct (JsMap.get ws (clients w)); [|split; reflexivity].
  cbn [heap clientInfo with_heap]. apply insert_leaving_name_type.
Qed.

(** C2, as amended.  Every [chat] or [discovery] message is relayed with
    its text (and category) as received, the sender's role, and a timestamp
    read from the broker's clock, to every connection of the registry whose
    transport is open, in registry order: the sender is among them when it has
    registered and is open, a connection that has not registered receives
    nothing.  A registry entry whose transport is not open is skipped and the
    others are still served; the broker keeps nothing of the message for a
    later attempt (its state changes by the clock reading and, for a discovery
    of category leaving, by the leaving flag only). *)
Theorem fan_out (w : world) (ws : conn) (msg : value) (k : string) :
  k = "chat" \/ k = "discovery" ->
  get_property msg "type" = Ok (VStr k) ->
  exists m w' out,
    on_message ws (Json msg) w = (Ok tt, w', out) /\
    sends out =
      List.map (fun c => (c, m))
               (List.filter (fun c => ready w c =? 1) (JsMap.keys (clients w))) /\
    (k = "chat" ->
       m = MsgChat (or_else (field msg "from") (name (closure_info w ws)))
                   (type (closure_info w ws)) (field msg "text") (clock w (reads w))) /\
    (k = "discovery" ->
       m = MsgDiscovery (or_else (field msg "from") (name (closure_info w ws)))
                        (type (closure_info w ws)) (field msg "category")
                        (field msg "text") (clock w (reads w))) /\
    (forall c, In (c, m) (sends out) <->
               In c (JsMap.keys (clients w)) /\ ready w c = OPEN) /\
    (In (ws, m) (sends out) <->
       (exists l, JsMap.get ws (clients w) = Some l) /\ ready w ws = OPEN) /\
    (forall l, JsMap.get ws (clients w) = Some l -> clientInfo w !! ws = Some l ->
               closure_info w ws = heap w !!! l) /\
    clients w' = clients w /\ readyState w' = readyState w /\
    clientInfo w' = clientInfo w /\ reads w' = S (reads w) /\
    (k = "chat" -> heap w' = heap w).
Proof.
  intros Hk Ht.
  assert (Hin : forall (m : server_msg) c,
             In (c, m) (List.map (fun c => (c, m)) (recipients w)) <->
             In c (JsMap.keys (clients w)) /\ ready w c = OPEN).
  { intros m c. rewrite <- in_recipients. rewrite in_map_iff. split.
    - intros (c' & Heq & Hc'). congruence.
    - intros Hc. eauto. }
  assert (Halias : forall l, JsMap.get ws (clients w) = Some l ->
                             clientInfo w !! ws = Some l ->
                             closure_info w ws = heap w !!! l).
  { intros l _ Hci. unfold closure_info. rewrite Hci. reflexivity. }
  destruct Hk as [-> | ->].
  - exists (chat_msg w ws msg), (read_clock w), (deliver (chat_msg w ws msg) (recipients w)).
    split; [apply on_message_chat; exact Ht|].
    rewrite sends_deliver.
    split; [reflexivity|]. split; [reflexivity|]. split; [discriminate|].
    split; [apply Hin|]. split; [rewrite Hin, in_keys_get; reflexivity|].
    split; [exact Halias|]. repeat split; reflexivity.
  - exists (MsgDiscovery (or_else (field msg "from") (name (closure_info w ws)))
                         (type (closure_info w ws)) (field msg "category")
                         (field msg "text") (clock w (reads w))),
           (read_clock (marked w ws msg)),
           (deliver (discovery_msg (marked w ws msg) ws msg) (recipients w)).
    split; [apply on_message_discovery; exact Ht|].
    assert (Hm : discovery_msg (marked w ws msg) ws msg
                 = MsgDiscovery (or_else (field msg "from") (name (closure_info w ws)))
                         (type (closure_info w ws)) (field msg "category")
                         (field msg "text") (clock w (reads w))).
    { unfold discovery_msg.
      destruct (closure_info_marked w ws msg) as [-> ->].
      destruct (marked_frame w ws msg) as (_ & _ & -> & -> & _). reflexivity. }
    rewrite Hm, sends_deliver.
    split; [reflexivity|]. split; [discriminate|]. split; [reflexivity|].
    split; [apply Hin|]. split; [rewrite Hin, in_keys_get; reflexivity|].
    split; [exact Halias|].
    destruct (marked_frame w ws msg) as (Hc & Hr & _ & Hn & Hci & _).
    cbn [read_clock clients readyState clientInfo reads].
    repeat split; try assumption; [congruence | discriminate].
Qed.

Lemma fan_out_witness :
  exists m w',
    on_message wsA (Json (chat_value "hello")) (state_after demo_clock two_registered_history)
    = (Ok tt, w', [ws_send wsA m; ws_send wsB m]).
Proof.
  destruct (fan_out (state_after demo_clock two_registered_history) wsA
                    (chat_value "hello") "chat")
    as (m & w' & out & Hrun & Hsends & Hchat & _).
  - left; reflexivity.
  - reflexivity.
  - exists m, w'. rewrite Hrun. rewrite (Hchat eq_refl) in *.
    vm_compute in Hrun. vm_compute. injection Hrun as _ <-. reflexivity.
Defined.

(** C2 as stated fails for a connection that has not registered: [wsA] is
    connected, its transport is open, it sends a chat message, and the only
    send goes to [wsB]. *)
Lemma fan_out_counterexample :
  live (state_after demo_clock one_registered_history) wsA = true /\
  ready (state_after demo_clock one_registered_history) wsA = OPEN /\
  sends (snd (step (state_after demo_clock one_registered_history)
                   (Message wsA (chat_frame "hello"))))
  = [(wsB, MsgChat (VStr "unknown") (VStr "unknown") (VStr "hello") 5000)].
Proof.
  split; [vm_compute; reflexivity|].
  split; vm_compute; reflexivity.
Qed.

(** ** C5: the who query *)

(** C5.  A [who] message is answered with one call, a send to the requesting
    connection only, of a [who_response] that lists the registry in order:
    one entry [{name, type, joinedAt}] per registered connection and nothing
    else; the registry itself is left as it was. *)
Theorem who_reply (w : world) (ws : conn) (msg : value) :
  get_property msg "type" = Ok (VStr "who") ->
  exists online,
    on_message ws (Json msg) w
    = (Ok tt, read_clock w, [ws_send ws (MsgWhoResponse online (clock w (reads w)))]) /\
    Forall2 (fun e o => o_name o = name (heap w !!! snd e) /\
                        o_type o = type (heap w !!! snd e) /\
                        o_joinedAt o = joinedAt (heap w !!! snd e))
            (clients w) online /\
    List.length online = JsMap.size (clients w) /\
    clients (read_clock w) = clients w /\ heap (read_clock w) = heap w.
Proof.
  intros Ht. exists (online_list w).
  split; [apply on_message_who; exact Ht|].
  split.
  { unfold online_list. induction (clients w) as [|e es IH]; cbn; constructor; auto. }
  split; [unfold online_list, JsMap.size; apply length_map|].
  split; reflexivity.
Qed.

Lemma who_reply_witness :
  on_message wsA (Json who_value) (state_after demo_clock two_registered_history)
  = (Ok tt, read_clock (state_after demo_clock two_registered_history),
     [ws_send wsA (MsgWhoResponse [Online (VStr "auth-analyzer") (VStr "agent") 2000;
                                   Online (VStr "db-explorer") (VStr "agent") 5000]
                                  8000)]).
Proof.
  destruct (who_reply (state_after demo_clock two_registered_history) wsA who_value eq_refl)
    as (online & Hrun & _).
  rewrite Hrun. vm_compute in Hrun. injection Hrun as <-. reflexivity.
Defined.

(** ** C6: malformed frames *)

Lemma forallb_deliver (p : action -> bool) (m : server_msg) (cs : list conn) :
  (forall c, p (ws_send c m) = true) -> forallb p (deliver m cs) = true.
Proof.
  intros Hp. unfold deliver. induction cs as [|c cs IH]; cbn; [reflexivity|].
  rewrite Hp. exact IH.
Qed.

Lemma logged_console (line : text) : is_console (logged line) = true.
Proof. unfold logged. destruct (forallb _ _); reflexivity. Qed.

(** Whatever the frame, the message handler leaves every [readyState] as it
    is and calls nothing but [send] and the console. *)
Lemma message_transition_frame (w w' : world) (ev : event) (out : list action) :
  transition w ev w' out ->
  (exists ws data, ev = Message ws data) ->
  readyState w' = readyState w /\
  forallb (fun a => is_send a || is_console a) out = true.
Proof.
  intros Htr (ws' & data' & Hev).
  destruct Htr; try discriminate;
    rewrite ?forallb_app, ?forallb_deliver by reflexivity;
    cbn [forallb andb]; rewrite ?logged_console, ?orb_true_r; cbn [andb].
  - auto.
  - auto.
  - auto.
  - auto.
  - auto.
  - auto.
  - destruct (marked_frame w ws msg) as (_ & Hr & _). auto.
  - destruct (after_leaving_frame w ws) as (_ & Hr & _). auto.
  - auto.
Qed.

(** C6, as amended.  A frame that cannot be parsed (the text is not JSON, or
    it is the JSON value [null], which has no [type] to read) is logged with
    [console.error] and dropped; a frame that parses to anything else whose
    [type] is none of the six kinds is dropped without a word.  Either way the
    whole state of the broker (registry, records, the connection itself) is
    what it was, and nothing is sent to anyone.  On every frame whatsoever the
    message handler returns normally, leaves the transport state of every
    connection as it was, and calls nothing but [send] and the console. *)
Theorem malformed_dropped (w : world) (ws : conn) (data : frame) :
  (forall e, rejected data = Some e ->
     on_message ws data w
     = (Ok tt, w, [console_error [Lit "Invalid message:"; ErrMessage e]])) /\
  (forall msg t, data = Json msg -> get_property msg "type" = Ok t ->
     ~ In t (List.map VStr known_kinds) ->
     on_message ws data w = (Ok tt, w, [])) /\
  (exists w' out,
     on_message ws data w = (Ok tt, w', out) /\
     readyState w' = readyState w /\
     forallb (fun a => is_send a || is_console a) out = true).
Proof.
  split; [|split].
  - intros e Hrej. unfold rejected in Hrej. destruct data as [raw|msg]; cbn in Hrej.
    + injection Hrej as <-. apply on_message_not_json.
    + destruct (get_property msg "type") eqn:Ht; [discriminate|].
      injection Hrej as <-. apply on_message_no_type. exact Ht.
  - intros msg t -> Ht Hnot. eapply on_message_other; [exact Ht|].
    apply List.Forall_forall. intros k Hk.
    destruct (strict_eq_str t k) eqn:E; [|reflexivity].
    apply strict_eq_str_true in E. subst t.
    exfalso. apply Hnot. apply in_map. exact Hk.
  - destruct (on_message_transition w ws data) as (w' & out & Hrun & Htr).
    exists w', out. split; [exact Hrun|].
    apply (message_transition_frame _ _ _ _ Htr). eauto.
Qed.

Lemma malformed_dropped_witness :
  on_message wsA (NotJson "{oops") (state_after demo_clock two_registered_history)
  = (Ok tt, state_after demo_clock two_registered_history,
     [console_error [Lit "Invalid message:"; ErrMessage SyntaxError]]) /\
  on_message wsA (Json VNull) (state_after demo_clock two_registered_history)
  = (Ok tt, state_after demo_clock two_registered_history,
     [console_error [Lit "Invalid message:"; ErrMessage TypeError]]) /\
  on_message wsA (Json (VNum (42 # 1))) (state_after demo_clock two_registered_history)
  = (Ok tt, state_after demo_clock two_registered_history, []).
Proof.
  split; [|split].
  - destruct (malformed_dropped (state_after demo_clock two_registered_history) wsA
                                (NotJson "{oops")) as (Hrej & _).
    apply Hrej. reflexivity.
  - destruct (malformed_dropped (state_after demo_clock two_registered_history) wsA
                                (Json VNull)) as (Hrej & _).
    apply Hrej. reflexivity.
  - destruct (malformed_dropped (state_after demo_clock two_registered_history) wsA
                                (Json (VNum (42 # 1)))) as (_ & Hshape & _).
    apply (Hshape (VNum (42 # 1)) VUndefined); [reflexivity | reflexivity|].
    cbn. intuition discriminate.
Defined.

(** C6 as stated fails for a frame that parses but is no message: an object
    without [type] is dropped, and nothing is logged. *)
Lemma malformed_dropped_counterexample :
  rejected (Json (VObj [("text", VStr "hello")])) = None /\
  on_message wsA (Json (VObj [("text", VStr "hello")]))
             (state_after demo_clock two_registered_history)
  = (Ok tt, state_after demo_clock two_registered_history, []).
Proof.
  split; [reflexivity|].
  apply (on_message_other _ _ _ VUndefined); [reflexivity|].
  unfold known_kinds. repeat constructor.
Qed.

(** ** C8: the leaving flag *)

(** C8.  For a registered connection: a [discovery] message of category
    "leaving" sets the leaving flag of the sender's record and is relayed all
    the same to the open connections of the registry; a [leaving] message sets
    the flag and causes no call at all.  In both cases every other field of
    the record, every other record and the registry are unchanged. *)
Theorem leaving_flag (w : world) (ws : conn) (l : loc) (msg : value) :
  JsMap.get ws (clients w) = Some l ->
  (get_property msg "type" = Ok (VStr "discovery") ->
   field msg "category" = VStr "leaving" ->
   exists w',
     on_message ws (Json msg) w
     = (Ok tt, w',
        deliver (MsgDiscovery (or_else (field msg "from") (name (closure_info w ws)))
                              (type (closure_info w ws)) (VStr "leaving")
                              (field msg "text") (clock w (reads w)))
                (recipients w)) /\
     heap w' = <[l := set_leaving true (heap w !!! l)]> (heap w) /\
     clients w' = clients w /\ clientInfo w' = clientInfo w /\
     readyState w' = readyState w) /\
  (get_property msg "type" = Ok (VStr "leaving") ->
   exists w',
     on_message ws (Json msg) w = (Ok tt, w', []) /\
     heap w' = <[l := set_leaving true (heap w !!! l)]> (heap w) /\
     clients w' = clients w /\ clientInfo w' = clientInfo w /\
     readyState w' = readyState w /\ reads w' = reads w) /\
  (let i := heap w !!! l in
   let i' := <[l := set_leaving true (heap w !!! l)]> (heap w) !!! l in
   leaving i' = true /\ name i' = name i /\ type i' = type i /\ alive i' = alive i /\
   joinedAt i' = joinedAt i /\ status i' = status i /\ task i' = task i) /\
  (forall l', l' <> l ->
     <[l := set_leaving true (heap w !!! l)]> (heap w) !! l' = heap w !! l').
Proof.
  intros Hget. split; [|split; [|split]].
  - intros Ht Hcat. exists (read_clock (marked w ws msg)).
    rewrite (on_message_discovery _ _ _ Ht).
    assert (Hm : marked w ws msg
                 = with_heap w (<[l := set_leaving true (heap w !!! l)]> (heap w))).
    { unfold marked, after_leaving. rewrite Hcat, Hget. reflexivity. }
    split.
    + unfold discovery_msg.
      destruct (closure_info_marked w ws msg) as [-> ->].
      rewrite Hcat. rewrite Hm. reflexivity.
    + rewrite Hm. repeat split.
  - intros Ht. exists (after_leaving w ws).
    rewrite (on_message_leaving _ _ _ Ht).
    unfold after_leaving. rewrite Hget. repeat split.
  - cbv zeta. rewrite lookup_total_insert_eq. repeat split.
  - intros l' Hne. apply lookup_insert_ne. congruence.
Qed.

Lemma leaving_flag_witness :
  exists w',
    on_message wsB (Json leaving_value) (state_after demo_clock two_registered_history)
    = (Ok tt, w', []) /\
    record_of w' wsB
    = Some (Info (VStr "db-explorer") (VStr "agent") true 5000 (VStr "idle") VNull true).
Proof.
  destruct (leaving_flag (state_after demo_clock two_registered_history) wsB 3%nat
                         leaving_value) as (_ & Hleaving & _).
  - vm_compute; reflexivity.
  - destruct (Hleaving eq_refl) as (w' & Hrun & Hheap & Hclients & _).
    exists w'. split; [exact Hrun|].
    unfold record_of. rewrite Hclients, Hheap. vm_compute. reflexivity.
Defined.

(** ** C9: what a snapshot says about a record *)

Lemma strict_eq_str_iff (v : value) (k : string) :
  strict_eq_str v k = true <-> v = VStr k.
Proof.
  split; [apply strict_eq_str_true|]. intros ->. cbn. apply String.eqb_refl.
Qed.

Lemma participant_of_entry (i : info) : entry_for i (participant_of i).
Proof.
  unfold entry_for, participant_of, or_else. cbn.
  repeat split.
  - intros Hu. rewrite (proj2 (strict_eq_str_iff _ _) Hu). reflexivity.
  - intros Hu. destruct (strict_eq_str (type i) "user") eqn:E; [|reflexivity].
    apply strict_eq_str_true in E. contradiction.
Qed.

Lemma in_deliver (c : conn) (m m' : server_msg) (cs : list conn) :
  In (ws_send c m) (deliver m' cs) -> m = m'.
Proof.
  unfold deliver. rewrite in_map_iff. intros (c' & Heq & _). congruence.
Qed.

(** Every participants snapshot sent in a step is the snapshot of the state
    the step ends in. *)
Lemma snapshot_sent (w w' : world) (ev : event) (out : list action)
      (c : conn) (ps : list participant) (ts : Z) :
  transition w ev w' out ->
  In (ws_send c (MsgParticipantsUpdate ps ts)) out ->
  ps = snapshot w'.
Proof.
  intros Htr Hin.
  destruct Htr;
    repeat (apply in_app_or in Hin; destruct Hin as [Hin|Hin]);
    try (exfalso; eapply not_in_logged; eassumption);
    try (apply in_deliver in Hin);
    try (cbn in Hin; intuition discriminate);
    try (injection Hin as -> _; reflexivity);
    try discriminate.
  (* the heartbeat sends nothing *)
  exfalso. rewrite forallb_forall in H0. apply H0 in Hin. discriminate.
Qed.

(** C9.  In every participants snapshot the broker sends, whatever event
    caused it, the entries are those of the registry, in order, and the entry
    of a record of role "user" has status "observer" whatever status the
    record stores; for any other role the entry has the stored status, or
    "idle" when that is falsy; the task is the stored one, or null when that
    is falsy. *)
Theorem snapshot_entries (w : world) (ev : event) (c : conn)
        (ps : list participant) (ts : Z) :
  In (ws_send c (MsgParticipantsUpdate ps ts)) (snd (step w ev)) ->
  Forall2 (fun e p => entry_for (heap (fst (step w ev)) !!! snd e) p)
          (clients (fst (step w ev))) ps.
Proof.
  intros Hin.
  rewrite (snapshot_sent _ _ _ _ _ _ _ (step_transition w ev) Hin).
  unfold snapshot. induction (clients (fst (step w ev))) as [|e es IH]; cbn; constructor.
  - apply participant_of_entry.
  - exact IH.
Qed.

Lemma snapshot_entries_witness :
  Forall2 (fun e p => entry_for
                        (heap (fst (step (state_after demo_clock one_registered_history)
                                         (Message wsA (register_frame "boss" "user"))))
                         !!! snd e) p)
          [(wsB, 2%nat); (wsA, 3%nat)]
          [Participant (VStr "db-explorer") (VStr "agent") (VStr "idle") VNull 2000;
           Participant (VStr "boss") (VStr "user") (VStr "observer") VNull 5000].
Proof.
  apply (snapshot_entries (state_after demo_clock one_registered_history)
                          (Message wsA (register_frame "boss" "user")) wsB _ 7000).
  vm_compute. tauto.
Defined.

(** ** C10: registering again *)



(** ** C4: the registry and the lifecycle broadcasts *)

Lemma in_sends (c : conn) (m : server_msg) (out : list action) :
  In (c, m) (sends out) <-> In (ws_send c m) out.
Proof.
  unfold sends. rewrite in_flat_map. split.
  - intros (a & Ha & Hin). destruct a; cbn in Hin; try tauto.
    destruct Hin as [Heq|[]]. injection Heq as -> ->. exact Ha.
  - intros Hin. exists (ws_send c m). split; [exact Hin | left; reflexivity].
Qed.

Lemma step_close_registered (w : world) (ws : conn) (l : loc) (code : Z) (reason : string) :
  JsMap.get ws (clients w) = Some l ->
  printable (name (heap w !!! l)) = true ->
  fst (step w (Close ws code reason)) = after_close w ws /\
  exists line,
    snd (step w (Close ws code reason)) =
      deliver (leave_notice w code (heap w !!! l)) (recipients (after_close w ws)) ++
      deliver (MsgParticipantsUpdate (snapshot (after_close w ws))
                                     (clock w (S (S (reads w)))))
              (recipients (after_close w ws)) ++ [console_log line].
Proof.
  intros Hget Hp. unfold step. cbn [handler].
  rewrite (on_close_registered _ _ _ _ _ Hget Hp). cbn [fst snd]. eauto.
Qed.

Lemma step_close_throws (w : world) (ws : conn) (l : loc) (code : Z) (reason : string) :
  JsMap.get ws (clients w) = Some l ->
  printable (name (heap w !!! l)) = false ->
  step w (Close ws code reason) = (removed w ws, []) /\
  uncaught w (Close ws code reason) = Some TypeError.
Proof.
  intros Hget Hp. unfold step, uncaught. cbn [handler].
  rewrite (on_close_throws _ _ _ _ _ Hget Hp). split; reflexivity.
Qed.

Lemma step_register (w : world) (ws : conn) (msg : value) :
  get_property msg "type" = Ok (VStr "register") ->
  printable (field msg "name") = true ->
  fst (step w (Message ws (Json msg))) = after_register w ws msg /\
  snd (step w (Message ws (Json msg))) =
    deliver (join_notice w msg) (recipients (after_register w ws msg)) ++
    deliver (MsgParticipantsUpdate (snapshot (after_register w ws msg))
                                   (clock w (S (S (reads w)))))
            (recipients (after_register w ws msg)) ++
    [logged [Lit "+ "; Val (name (registered_info w msg)); Lit " (";
             Val (type (registered_info w msg)); Lit ")"]].
Proof.
  intros Ht Hname. unfold step. cbn [handler].
  rewrite (on_message_register _ _ _ Ht Hname). split; reflexivity.
Qed.

Lemma step_register_throws (w : world) (ws : conn) (msg : value) :
  get_property msg "type" = Ok (VStr "register") ->
  printable (field msg "name") = false ->
  step w (Message ws (Json msg)) = (registered w ws msg, [invalid_message TypeError]).
Proof.
  intros Ht Hname. unfold step. cbn [handler].
  rewrite (on_message_register_throws _ _ _ Ht Hname). reflexivity.
Qed.

(** What a close and a [register] leave, whether or not their notice can be
    built. *)
Lemma step_close_state (w : world) (ws : conn) (l : loc) (code : Z) (reason : string) :
  JsMap.get ws (clients w) = Some l ->
  clients (fst (step w (Close ws code reason))) = JsMap.delete ws (clients w) /\
  heap (fst (step w (Close ws code reason))) = heap w /\
  readyState (fst (step w (Close ws code reason))) = <[ws := CLOSED]> (readyState w).
Proof.
  intros Hget. destruct (printable (name (heap w !!! l))) eqn:Hp.
  - destruct (step_close_registered w ws l code reason Hget Hp) as [-> _]. repeat split.
  - destruct (step_close_throws w ws l code reason Hget Hp) as [-> _]. repeat split.
Qed.

Lemma step_register_state (w : world) (ws : conn) (msg : value) :
  get_property msg "type" = Ok (VStr "register") ->
  clients (fst (step w (Message ws (Json msg)))) = JsMap.set ws (next_loc w) (clients w) /\
  heap (fst (step w (Message ws (Json msg))))
  = <[next_loc w := registered_info w msg]> (heap w) /\
  readyState (fst (step w (Message ws (Json msg)))) = readyState w /\
  clientInfo (fst (step w (Message ws (Json msg)))) = <[ws := next_loc w]> (clientInfo w).
Proof.
  intros Ht. destruct (printable (field msg "name")) eqn:Hname.
  - destruct (step_register w ws msg Ht Hname) as [-> _]. repeat split.
  - rewrite (step_register_throws w ws msg Ht Hname). repeat split.
Qed.

Lemma snapshot_ext (w w' : world) :
  clients w' = clients w -> heap w' = heap w -> snapshot w' = snapshot w.
Proof. unfold snapshot. intros -> ->. reflexivity. Qed.

Lemma recipients_ext (w w' : world) :
  clients w' = clients w -> readyState w' = readyState w -> recipients w' = recipients w.
Proof. unfold recipients, ready. intros -> ->. reflexivity. Qed.

Lemma ready_range_insert (w : world) (rs0 : gmap conn Z) (ws : conn) (rs : Z) :
  ready_range w -> rs0 = <[ws := rs]> (readyState w) ->
  rs = OPEN \/ rs = CLOSING \/ rs = CLOSED ->
  forall c v, rs0 !! c = Some v -> v = OPEN \/ v = CLOSING \/ v = CLOSED.
Proof.
  intros Hw -> Hrs c v. rewrite lookup_insert. destruct (decide (ws = c)).
  - intros H. injection H as <-. exact Hrs.
  - apply Hw.
Qed.

Lemma ready_range_probe (w : world) (e : conn * loc) :
  ready_range w -> ready_range (probe w e).
Proof.
  intros Hw. unfold probe. destruct (negb _); [|exact Hw].
  destruct (_ || _); [|exact Hw].
  unfold ready_range. cbn [readyState].
  eapply ready_range_insert; [exact Hw | reflexivity | auto].
Qed.

Lemma ready_range_fold_probe (es : list (conn * loc)) (w : world) :
  ready_range w -> ready_range (fold_left probe es w).
Proof.
  revert w. induction es as [|e es IH]; intros w Hw; cbn [fold_left]; [exact Hw|].
  apply IH. apply ready_range_probe. exact Hw.
Qed.

Lemma ready_range_step (w w' : world) (ev : event) (out : list action) :
  transition w ev w' out -> ready_range w -> ready_range w'.
Proof.
  intros Htr Hw. destruct Htr; try exact Hw.
  - unfold ready_range. cbn [after_connection readyState].
    eapply ready_range_insert; [exact Hw | reflexivity | auto].
  - unfold ready_range. destruct (marked_frame w ws msg) as (_ & Hr & _).
    cbn [read_clock readyState]. rewrite Hr. exact Hw.
  - unfold ready_range. destruct (after_leaving_frame w ws) as (_ & Hr & _).
    rewrite Hr. exact Hw.
  - unfold after_pong. destruct (JsMap.get ws (clients w)); exact Hw.
  - unfold ready_range. cbn [after_close readyState].
    eapply ready_range_insert; [exact Hw | reflexivity | auto].
  - unfold ready_range. cbn [removed readyState].
    eapply ready_range_insert; [exact Hw | reflexivity | auto].
  - unfold ready_range. cbn [with_readyState readyState].
    eapply ready_range_insert; [exact Hw | reflexivity | auto].
  - unfold ready_range. cbn [with_readyState readyState].
    eapply ready_range_insert; [exact Hw | reflexivity | auto].
  - apply ready_range_fold_probe. exact Hw.
Qed.

Lemma ready_range_run (tr : list event) (w w' : world) (out : list action) :
  ready_range w -> run w tr = Some (w', out) -> ready_range w'.
Proof.
  revert w out. induction tr as [|ev tr IH]; intros w out Hw Hrun.
  - cbn in Hrun. injection Hrun as <- _. exact Hw.
  - apply run_app_step in Hrun. destruct Hrun as (_ & out2 & Hrun & _).
    eapply IH; [|exact Hrun].
    eapply ready_range_step; [apply step_transition | exact Hw].
Qed.

Lemma ready_range_init (clk : nat -> Z) : ready_range (init clk).
Proof. intros ws rs H. cbn in H. rewrite lookup_empty in H. discriminate. Qed.

(** C4, as amended.  In every state the broker reaches, a connection is in
    the registry only if it has connected and its close event has not been
    handled: its transport is open or closing, not closed.  The close handler
    removes the record before it sends anything: whatever it sends goes to
    connections other than the one that left, and the snapshot is computed from
    the registry without it.  The register handler adds the record before it
    sends: every snapshot it sends contains the entry of the connection that
    joined.  When the name can be converted to a string, the close handler
    does send the notice and the snapshot to each open connection that
    remains, and the register handler does send the snapshot to the connection
    that joined when its transport is open. *)
Theorem registry_lifecycle (clk : nat -> Z) (tr : list event) (w : world)
        (out : list action) :
  run (init clk) tr = Some (w, out) ->
  (forall ws, In ws (JsMap.keys (clients w)) ->
     clientInfo w !! ws <> None /\ (ready w ws = OPEN \/ ready w ws = CLOSING)) /\
  (forall ws code reason l, JsMap.get ws (clients w) = Some l ->
     ~ In ws (JsMap.keys (clients (fst (step w (Close ws code reason))))) /\
     ready (fst (step w (Close ws code reason))) ws = CLOSED /\
     (forall c m, In (c, m) (sends (snd (step w (Close ws code reason)))) ->
        c <> ws /\ In c (JsMap.keys (clients (fst (step w (Close ws code reason)))))) /\
     (forall c ps ts,
        In (c, MsgParticipantsUpdate ps ts) (sends (snd (step w (Close ws code reason)))) ->
        ps = snapshot (fst (step w (Close ws code reason))) /\
        List.length ps = List.length (JsMap.delete ws (clients w))) /\
     (printable (name (heap w !!! l)) = true ->
      forall c, c <> ws -> In c (JsMap.keys (clients w)) -> ready w c = OPEN ->
        In (c, leave_notice w code (heap w !!! l))
           (sends (snd (step w (Close ws code reason)))) /\
        In (c, MsgParticipantsUpdate (snapshot (fst (step w (Close ws code reason))))
                                     (clock w (S (S (reads w)))))
           (sends (snd (step w (Close ws code reason)))))) /\
  (forall ws msg, get_property msg "type" = Ok (VStr "register") ->
     In ws (JsMap.keys (clients (fst (step w (Message ws (Json msg)))))) /\
     record_of (fst (step w (Message ws (Json msg)))) ws = Some (registered_info w msg) /\
     (forall c ps ts,
        In (c, MsgParticipantsUpdate ps ts) (sends (snd (step w (Message ws (Json msg))))) ->
        ps = snapshot (fst (step w (Message ws (Json msg)))) /\
        In (participant_of (registered_info w msg)) ps) /\
     (printable (field msg "name") = true -> ready w ws = OPEN ->
        In (ws, MsgParticipantsUpdate (snapshot (fst (step w (Message ws (Json msg)))))
                                      (clock w (S (S (reads w)))))
           (sends (snd (step w (Message ws (Json msg))))))).
Proof.
  intros Hrun.
  pose proof (registry_ok_run tr _ _ _ (registry_ok_init clk) Hrun) as (H1 & H2 & H3 & H4).
  split; [|split].
  - intros ws Hin. apply in_keys_get in Hin. destruct Hin as [l Hget].
    destruct (H2 ws l Hget) as [Hci Hlive]. split; [congruence|].
    pose proof (ready_range_run tr _ _ _ (ready_range_init clk) Hrun) as Hrange.
    unfold live in Hlive. rewrite Hci in Hlive. unfold ready in *.
    destruct (readyState w !! ws) as [rs|] eqn:Hrs; cbn [default from_option id] in *;
      [|discriminate].
    destruct (Hrange ws rs Hrs) as [->|[->| ->]]; [auto | auto | discriminate].
  - intros ws code reason l Hget.
    destruct (step_close_state w ws l code reason Hget) as (Hc & Hh & Hr).
    pose proof (step_transition w (Close ws code reason)) as Htr.
    split; [rewrite Hc, in_keys_delete; tauto|].
    split; [unfold ready; rewrite Hr, lookup_insert_eq; reflexivity|].
    assert (Hsnap : snapshot (fst (step w (Close ws code reason)))
                    = snapshot (after_close w ws))
      by (apply snapshot_ext; [rewrite Hc | rewrite Hh]; reflexivity).
    assert (Hsent : forall c m, In (c, m) (sends (snd (step w (Close ws code reason)))) ->
                                In c (recipients (after_close w ws)) /\
                                forall ps ts, m = MsgParticipantsUpdate ps ts ->
                                              ps = snapshot (after_close w ws)).
    { intros c m Hin. apply in_sends in Hin.
      destruct (printable (name (heap w !!! l))) eqn:Hp.
      - destruct (step_close_registered w ws l code reason Hget Hp) as (_ & line & Hout).
        rewrite Hout in Hin.
        repeat (apply in_app_or in Hin; destruct Hin as [Hin|Hin]).
        + unfold deliver in Hin. apply in_map_iff in Hin.
          destruct Hin as (c' & Heq & Hc'). injection Heq as <- <-.
          split; [exact Hc' | discriminate].
        + unfold deliver in Hin. apply in_map_iff in Hin.
          destruct Hin as (c' & Heq & Hc'). injection Heq as <- <-.
          split; [exact Hc'|]. intros ps ts Heq. injection Heq as <- _. reflexivity.
        + destruct Hin as [Hin|[]]. discriminate.
      - destruct (step_close_throws w ws l code reason Hget Hp) as [Hstep _].
        rewrite Hstep in Hin. destruct Hin. }
    split; [|split].
    + intros c m Hin. destruct (Hsent c m Hin) as [Hrec _].
      apply in_recipients in Hrec. destruct Hrec as [Hrec _].
      rewrite Hc. cbn [after_close clients] in Hrec.
      split; [|exact Hrec]. apply in_keys_delete in Hrec. tauto.
    + intros c ps ts Hin. destruct (Hsent c _ Hin) as [_ Hps].
      rewrite Hsnap, (Hps ps ts eq_refl).
      split; [reflexivity|]. unfold snapshot. cbn [after_close clients]. apply length_map.
    + intros Hp c Hne Hin Hopen.
      destruct (step_close_registered w ws l code reason Hget Hp) as (_ & line & Hout).
      rewrite Hsnap, Hout, !sends_app, !sends_deliver.
      assert (Hrec : In c (recipients (after_close w ws))).
      { apply in_recipients. cbn [after_close clients]. split.
        - apply in_keys_delete. split; [exact Hne | exact Hin].
        - unfold ready in *. cbn [after_close readyState].
          rewrite lookup_insert_ne by congruence. exact Hopen. }
      split.
      * apply in_or_app. left. apply in_map_iff. exists c. auto.
      * apply in_or_app. right. apply in_or_app. left. apply in_map_iff. exists c. auto.
  - intros ws msg Ht.
    destruct (step_register_state w ws msg Ht) as (Hc & Hh & Hr & _).
    assert (Hget : JsMap.get ws (clients (fst (step w (Message ws (Json msg)))))
                   = Some (next_loc w)) by (rewrite Hc; apply get_set_eq).
    assert (Hrec : heap (fst (step w (Message ws (Json msg)))) !!! next_loc w
                   = registered_info w msg) by (rewrite Hh; apply lookup_total_insert_eq).
    split; [apply in_keys_get; eauto|].
    split; [unfold record_of; rewrite Hget, Hrec; reflexivity|].
    assert (Hsnap : In (participant_of (registered_info w msg))
                       (snapshot (fst (step w (Message ws (Json msg)))))).
    { unfold snapshot. apply in_map_iff. exists (ws, next_loc w).
      cbn [snd]. rewrite Hrec. split; [reflexivity|]. apply get_in. exact Hget. }
    split.
    + intros c ps ts Hin. apply in_sends in Hin.
      rewrite (snapshot_sent _ _ _ _ _ _ _ (step_transition w _) Hin). auto.
    + intros Hname Hopen.
      destruct (step_register w ws msg Ht Hname) as [Hw Hout].
      rewrite Hout, Hw. apply in_sends. apply in_or_app. right. apply in_or_app. left.
      unfold deliver. apply in_map_iff. exists ws. split; [reflexivity|].
      apply in_recipients. split; [cbn [after_register clients]; apply in_keys_get;
                                   rewrite get_set_eq; eauto|].
      unfold ready in *. cbn [after_register readyState]. exact Hopen.
Qed.

Lemma registry_lifecycle_witness :
  JsMap.keys (clients (state_after demo_clock two_registered_history)) = [wsA; wsB] /\
  (ready (state_after demo_clock two_registered_history) wsA = OPEN \/
   ready (state_after demo_clock two_registered_history) wsA = CLOSING) /\
  ~ In wsA (JsMap.keys (clients (fst (step (state_after demo_clock two_registered_history)
                                           (Close wsA 1000 ""))))) /\
  In (wsB, MsgSystem [Val (VStr "auth-analyzer"); Lit " "; Lit "left normally";
                      Lit " (was here "; Int 6; Lit "s)"] 9000)
     (sends (snd (step (state_after demo_clock two_registered_history)
                       (Close wsA 1000 "")))).
Proof.
  destruct (registry_lifecycle demo_clock two_registered_history
              (state_after demo_clock two_registered_history)
              (output_of demo_clock two_registered_history))
    as (Hlive & Hclose & _).
  - vm_compute; reflexivity.
  - split; [vm_compute; reflexivity|].
    destruct (Hlive wsA) as [_ Hopen]; [vm_compute; tauto|].
    split; [exact Hopen|].
    destruct (Hclose wsA 1000 "" 2%nat) as (Hgone & _ & _ & _ & Hsent);
      [vm_compute; reflexivity|].
    split; [exact Hgone|].
    destruct (Hsent eq_refl wsB) as [Hnotice _];
      [discriminate | vm_compute; tauto | vm_compute; reflexivity|].
    exact Hnotice.
Defined.

(** C4 as stated fails between [terminate()] and the close event: the
    heartbeat has destroyed the socket of the silent [wsB], whose transport is
    closing and no longer open, and the record of [wsB] is still in the
    registry, where it stays until the close event is handled. *)
Lemma registry_lifecycle_counterexample :
  In (ws_terminate wsB) (output_of demo_clock silent_history) /\
  In wsB (JsMap.keys (clients (state_after demo_clock silent_history))) /\
  ready (state_after demo_clock silent_history) wsB = CLOSING /\
  ready (state_after demo_clock silent_history) wsB <> OPEN.
Proof.
  split; [vm_compute; tauto|].
  split; [vm_compute; tauto|].
  split; [vm_compute; reflexivity | vm_compute; discriminate].
Qed.

(** ** C7: timestamps *)

Lemma stamps_app (a b : list action) : stamps (a ++ b) = stamps a ++ stamps b.
Proof. unfold stamps. rewrite sends_app, map_app. reflexivity. Qed.

Lemma stamps_deliver (m : server_msg) (cs : list conn) :
  stamps (deliver m cs) = repeat (timestamp_of m) (List.length cs).
Proof.
  unfold stamps. rewrite sends_deliver.
  induction cs as [|c cs IH]; cbn; [reflexivity | rewrite IH; reflexivity].
Qed.

Lemma stamped_nil (clk : nat -> Z) (lo hi : nat) : stamped clk lo hi [].
Proof. exists []. repeat split; constructor. Qed.

Lemma stamped_repeat (clk : nat -> Z) (lo hi i k : nat) :
  (lo <= i < hi)%nat -> stamped clk lo hi (repeat (clk i) k).
Proof.
  intros Hi. exists (repeat i k). split; [|split].
  - induction k as [|k IH]; cbn; [reflexivity | rewrite IH; reflexivity].
  - induction k as [|k IH]; cbn; constructor; [exact IH|].
    apply List.Forall_forall. intros x Hx. apply repeat_spec in Hx. subst. constructor.
  - apply List.Forall_forall. intros x Hx. apply repeat_spec in Hx. subst. exact Hi.
Qed.

Lemma stamped_app (clk : nat -> Z) (lo mid hi : nat) (a b : list Z) :
  stamped clk lo mid a -> stamped clk mid hi b -> (lo <= mid <= hi)%nat ->
  stamped clk lo hi (a ++ b).
Proof.
  intros (ia & -> & Hsa & Hba) (ib & -> & Hsb & Hbb) Hm.
  exists (ia ++ ib). split; [rewrite map_app; reflexivity|]. split.
  - induction ia as [|i ia IH]; cbn; [exact Hsb|].
    inversion Hsa as [|? ? Hsa' Hle]; subst. inversion Hba as [|? ? Hi Hba']; subst.
    constructor; [apply IH; assumption|].
    apply List.Forall_app. split; [exact Hle|].
    eapply List.Forall_impl; [|exact Hbb]. cbn. intros j Hj. unfold Nat.le. lia.
  - apply List.Forall_app. split.
    + eapply List.Forall_impl; [|exact Hba]. cbn. intros i Hi. lia.
    + eapply List.Forall_impl; [|exact Hbb]. cbn. intros i Hi. lia.
Qed.

Lemma stamps_logged (line : text) : stamps [logged line] = [].
Proof. unfold stamps. rewrite sends_logged. reflexivity. Qed.

(** What a step sends is stamped with the clock readings the step takes. *)
Lemma transition_stamped (w w' : world) (ev : event) (out : list action) :
  transition w ev w' out ->
  clock w' = clock w /\ (reads w <= reads w')%nat /\
  stamped (clock w) (reads w) (reads w') (stamps out).
Proof.
  intros Htr. destruct Htr;
    repeat rewrite ?stamps_app, ?stamps_deliver, ?stamps_logged;
    try (change (stamps [console_log _]) with (@nil Z));
    try (change (stamps [console_error _]) with (@nil Z));
    try (change (stamps [invalid_message _]) with (@nil Z));
    try (change (stamps []) with (@nil Z));
    rewrite ?app_nil_r.
  - (* connection *) cbn. repeat split; [lia | apply stamped_nil].
  - repeat split; [lia | apply stamped_nil].
  - repeat split; [lia | apply stamped_nil].
  - (* register *)
    cbn [after_register clock reads join_notice timestamp_of].
    repeat split; [lia|].
    apply (stamped_app _ _ (S (S (reads w)))); [| |lia].
    + apply stamped_repeat. lia.
    + apply stamped_repeat. lia.
  - (* register, the notice cannot be built *)
    cbn. repeat split; [lia | apply stamped_nil].
  - (* status update *)
    cbn. repeat split; [lia|]. apply stamped_repeat. lia.
  - (* chat *)
    cbn. repeat split; [lia|]. apply stamped_repeat. lia.
  - (* discovery *)
    destruct (marked_frame w ws msg) as (_ & _ & Hclk & Hn & _).
    cbn [read_clock clock reads discovery_msg timestamp_of]. rewrite Hclk, Hn.
    repeat split; [lia|]. apply stamped_repeat. lia.
  - (* leaving *)
    destruct (after_leaving_frame w ws) as (_ & _ & Hclk & Hn & _).
    rewrite Hclk, Hn. repeat split; [lia | apply stamped_nil].
  - (* who *)
    cbn. repeat split; [lia|]. apply (stamped_repeat _ _ _ _ 1). lia.
  - (* pong *)
    unfold after_pong. destruct (JsMap.get ws (clients w)); cbn;
      (repeat split; [lia | apply stamped_nil]).
  - (* close *)
    cbn [after_close clock reads leave_notice timestamp_of].
    repeat split; [lia|].
    apply (stamped_app _ _ (S (S (reads w)))); [| |lia].
    + apply stamped_repeat. lia.
    + apply stamped_repeat. lia.
  - (* close, the notice cannot be built *)
    cbn. repeat split; [lia | apply stamped_nil].
  - cbn. repeat split; [lia | apply stamped_nil].
  - repeat split; [lia | apply stamped_nil].
  - cbn. repeat split; [lia | apply stamped_nil].
  - (* heartbeat *)
    destruct (fold_probe_frame es (read_clock w)) as (_ & _ & _ & -> & ->).
    unfold stamps. rewrite (sends_no_send _ H0).
    cbn. repeat split; [lia | apply stamped_nil].
  - repeat split; [lia | apply stamped_nil].
  - (* participants *)
    cbn. repeat split; [lia|]. apply stamped_repeat. lia.
Qed.

Lemma run_stamped (tr : list event) (w w' : world) (out : list action) :
  run w tr = Some (w', out) ->
  clock w' = clock w /\ (reads w <= reads w')%nat /\
  stamped (clock w) (reads w) (reads w') (stamps out).
Proof.
  revert w out. induction tr as [|ev tr IH]; intros w out Hrun.
  - cbn in Hrun. injection Hrun as <- <-. repeat split; [lia | apply stamped_nil].
  - apply run_app_step in Hrun. destruct Hrun as (_ & out2 & Hrun & ->).
    destruct (transition_stamped _ _ _ _ (step_transition w ev)) as (Hc1 & Hr1 & Hs1).
    destruct (IH _ _ Hrun) as (Hc2 & Hr2 & Hs2).
    rewrite Hc1 in Hc2, Hs2.
    split; [exact Hc2|]. split; [lia|].
    rewrite stamps_app. eapply stamped_app; [exact Hs1 | exact Hs2 | lia].
Qed.

Lemma strongly_sorted_split (R : Z -> Z -> Prop) (pre mid post : list Z) (t1 t2 : Z) :
  StronglySorted R (pre ++ t1 :: mid ++ t2 :: post) -> R t1 t2.
Proof.
  induction pre as [|p pre IH]; cbn; intros Hs.
  - inversion Hs as [|? ? _ Hall]; subst.
    rewrite List.Forall_forall in Hall. apply Hall. apply in_or_app. right. left. reflexivity.
  - inversion Hs; subst. auto.
Qed.

(** C7, as amended.  Every timestamp the broker sends is a reading of its
    own clock ([Date.now()]) taken while the event is handled, later sends
    carrying later readings, and nothing of the message enters it; hence for
    any two messages in receipt order the timestamp of the second is greater
    than or equal to that of the first provided the clock does not go
    backwards between the two readings. *)
Theorem timestamps_in_receipt_order (w : world) (tr : list event) (w' : world)
        (out : list action) :
  run w tr = Some (w', out) ->
  stamped (clock w) (reads w) (reads w') (stamps out) /\
  ((forall n m, (n <= m)%nat -> clock w n <= clock w m) ->
   forall pre t1 mid t2 post,
     stamps out = pre ++ t1 :: mid ++ t2 :: post -> t1 <= t2) /\
  (forall ws msg k, k = "chat" \/ k = "discovery" ->
     get_property msg "type" = Ok (VStr k) ->
     Forall (fun t => t = clock w' (reads w'))
            (stamps (snd (step w' (Message ws (Json msg)))))).
Proof.
  intros Hrun. destruct (run_stamped _ _ _ _ Hrun) as (_ & _ & Hst).
  split; [exact Hst|]. split.
  - intros Hmono pre t1 mid t2 post Heq.
    destruct Hst as (idxs & Hts & Hsorted & _).
    assert (Hss : StronglySorted Z.le (List.map (clock w) idxs)).
    { clear Hts. induction Hsorted as [|i idxs Hs IH Hall]; cbn; constructor; [exact IH|].
      apply List.Forall_forall. intros t Ht. apply in_map_iff in Ht.
      destruct Ht as (j & <- & Hj). rewrite List.Forall_forall in Hall.
      apply Hmono. apply Hall. exact Hj. }
    rewrite <- Hts, Heq in Hss. eapply strongly_sorted_split. exact Hss.
  - intros ws msg k Hk Ht. unfold step. cbn [handler].
    destruct Hk as [-> | ->].
    + rewrite (on_message_chat _ _ _ Ht). cbn [snd]. rewrite stamps_deliver.
      apply List.Forall_forall. intros t Hin. apply repeat_spec in Hin. exact Hin.
    + rewrite (on_message_discovery _ _ _ Ht). cbn [snd]. rewrite stamps_deliver.
      destruct (marked_frame w' ws msg) as (_ & _ & Hclk & Hn & _).
      apply List.Forall_forall. intros t Hin. apply repeat_spec in Hin. subst t.
      cbn [discovery_msg timestamp_of]. rewrite Hclk, Hn. reflexivity.
Qed.

Lemma timestamps_in_receipt_order_witness :
  stamped demo_clock 0 6 (stamps (output_of demo_clock two_chats_history)).
Proof.
  destruct (timestamps_in_receipt_order (init demo_clock) two_chats_history
              (state_after demo_clock two_chats_history)
              (output_of demo_clock two_chats_history))
    as (Hst & _).
  - vm_compute; reflexivity.
  - assert (E : reads (state_after demo_clock two_chats_history) = 6%nat)
      by (vm_compute; reflexivity).
    rewrite E in Hst. exact Hst.
Defined.

(** C7 as stated fails when the broker's clock steps backwards between two
    messages: the second chat message is stamped below the first. *)
Lemma timestamps_in_receipt_order_counterexample :
  sends (output_of backwards_clock two_chats_history)
  = [(wsA, MsgSystem [Val (VStr "auth-analyzer"); Lit " joined"] 98000);
     (wsA, MsgParticipantsUpdate
             [Participant (VStr "auth-analyzer") (VStr "agent") (VStr "idle") VNull 99000]
             97000);
     (wsA, MsgChat (VStr "auth-analyzer") (VStr "agent") (VStr "first") 96000);
     (wsA, MsgChat (VStr "auth-analyzer") (VStr "agent") (VStr "second") 95000)] /\
  ~ (96000 <= 95000).
Proof.
  split; [vm_compute; reflexivity | lia].
Qed.

(** ** C3: the heartbeat *)

Lemma in_probe_actions (h : gmap loc info) (es : list (conn * loc)) (a : action) :
  In a (flat_map (probe_actions h) es) <->
  exists e, In e es /\ In a (probe_actions h e).
Proof. apply in_flat_map. Qed.

Lemma names_fold_probe (es : list (conn * loc)) (w : world) :
  names_printable w -> names_printable (fold_left probe es w).
Proof.
  revert w. induction es as [|e es IH]; intros w Hw; cbn [fold_left]; [exact Hw|].
  apply IH. apply names_probe. exact Hw.
Qed.

(** One tick, in a reachable state whose names can all be converted: a
    registered connection whose liveness flag is false is terminated and not
    pinged; one whose flag is true is pinged and not terminated; either way
    the flag is false afterwards and nothing else of the record changes. *)
Lemma heartbeat_tick (w : world) (ws : conn) (l : loc) :
  registry_ok w ->
  names_printable w ->
  JsMap.get ws (clients w) = Some l ->
  exists out,
    heartbeat w = (Ok tt, after_heartbeat w, out) /\
    (alive (heap w !!! l) = false ->
       In (ws_terminate ws) out /\ ~ In (ws_ping ws) out) /\
    (alive (heap w !!! l) = true ->
       In (ws_ping ws) out /\ ~ In (ws_terminate ws) out) /\
    heap (after_heartbeat w) !!! l = set_alive false (heap w !!! l) /\
    clients (after_heartbeat w) = clients w.
Proof.
  intros Hok Hnames Hget.
  pose proof (registry_ok_nodup_objects w Hok) as Hnd.
  destruct Hok as (Hkeys & _).
  exists (flat_map (probe_actions (heap w)) (clients w)).
  split; [apply heartbeat_spec; assumption|].
  assert (Hin : In (ws, l) (clients w)) by (apply get_in; exact Hget).
  assert (Huniq : forall e, In e (clients w) -> fst e = ws -> e = (ws, l)).
  { intros [c l'] He Hc. cbn in Hc. subst c.
    apply (in_get _ _ _ Hkeys) in He. congruence. }
  split; [|split; [|split]].
  - intros Ha. split.
    + apply in_probe_actions. exists (ws, l). split; [exact Hin|].
      unfold probe_actions. cbn [fst snd]. rewrite Ha. cbn. auto.
    + intros Hping. apply in_probe_actions in Hping. destruct Hping as (e & He & Hp).
      unfold probe_actions in Hp.
      destruct (negb (alive (heap w !!! snd e))) eqn:Hneg; cbn in Hp.
      * destruct Hp as [Hp|[Hp|[]]]; discriminate.
      * destruct Hp as [Hp|[]]. injection Hp as Hc.
        rewrite (Huniq e He Hc) in Hneg. cbn [snd] in Hneg. rewrite Ha in Hneg. discriminate.
  - intros Ha. split.
    + apply in_probe_actions. exists (ws, l). split; [exact Hin|].
      unfold probe_actions. cbn [fst snd]. rewrite Ha. cbn. auto.
    + intros Hterm. apply in_probe_actions in Hterm. destruct Hterm as (e & He & Hp).
      unfold probe_actions in Hp.
      destruct (negb (alive (heap w !!! snd e))) eqn:Hneg; cbn in Hp.
      * destruct Hp as [Hp|[Hp|[]]]; [discriminate|]. injection Hp as Hc.
        rewrite (Huniq e He Hc) in Hneg. cbn [snd] in Hneg. rewrite Ha in Hneg. discriminate.
      * destruct Hp as [Hp|[]]. discriminate.
  - unfold after_heartbeat.
    rewrite fold_probe_heap_in; [reflexivity | exact Hnd |].
    apply in_map_iff. exists (ws, l). auto.
  - unfold after_heartbeat.
    destruct (fold_probe_frame (clients w) (read_clock w)) as (-> & _). reflexivity.
Qed.

(** A pong from a registered connection sets its flag, and only that. *)
Lemma pong_sets_alive (w : world) (ws : conn) (l : loc) :
  JsMap.get ws (clients w) = Some l ->
  exists w', on_pong ws w = (Ok tt, w', []) /\
             heap w' = <[l := set_alive true (heap w !!! l)]> (heap w) /\
             clients w' = clients w.
Proof.
  intros Hget. exists (after_pong w ws). rewrite on_pong_spec.
  unfold after_pong. rewrite Hget. repeat split.
Qed.

(** The broker calls [terminate] nowhere but in the heartbeat. *)
Lemma terminate_only_on_heartbeat (w : world) (ev : event) (c : conn) :
  In (ws_terminate c) (snd (step w ev)) -> ev = HeartbeatTick.
Proof.
  intros Hin. pose proof (step_transition w ev) as Htr.
  destruct Htr; try reflexivity; exfalso;
    repeat (apply in_app_or in Hin; destruct Hin as [Hin|Hin]);
    try (unfold deliver in Hin; apply in_map_iff in Hin;
         destruct Hin as (c' & Heq & _); discriminate);
    try (unfold logged in Hin; destruct (forallb printable_piece line));
    try (cbn in Hin; intuition discriminate).
Qed.

(** A registered connection that answers no ping is terminated by the second
    of two ticks, whatever its flag was before the first. *)
Lemma silent_for_two_ticks (w : world) (ws : conn) (l : loc) :
  registry_ok w ->
  names_printable w ->
  JsMap.get ws (clients w) = Some l ->
  In (ws_terminate ws) (snd (step (fst (step w HeartbeatTick)) HeartbeatTick)).
Proof.
  intros Hok Hnames Hget.
  assert (Hnames' : names_printable (after_heartbeat w))
    by (apply names_fold_probe; exact Hnames).
  destruct (heartbeat_tick w ws l Hok Hnames Hget)
    as (out1 & Hrun1 & _ & _ & Hheap & Hclients).
  assert (Hstep1 : fst (step w HeartbeatTick) = after_heartbeat w).
  { unfold step. cbn [handler]. rewrite Hrun1. reflexivity. }
  rewrite Hstep1.
  assert (Hok' : registry_ok (after_heartbeat w)).
  { rewrite <- Hstep1. eapply registry_ok_step;
      [apply step_transition | reflexivity | exact Hok]. }
  assert (Hget' : JsMap.get ws (clients (after_heartbeat w)) = Some l)
    by (rewrite Hclients; exact Hget).
  destruct (heartbeat_tick _ ws l Hok' Hnames' Hget') as (out2 & Hrun2 & Hdead & _).
  unfold step. cbn [handler]. rewrite Hrun2. cbn [snd].
  apply Hdead. rewrite Hheap. reflexivity.
Qed.

(** C3, at the input where the code departs from it.  [wsB] registers and
    then answers no ping: the second tick terminates it, the transport then
    reports the destroyed socket with close code 1006, and the notice sent to
    the remaining connection says "connection lost"; no notice of the whole
    history says "heartbeat timeout". *)
Theorem heartbeat_eviction_notice :
  In (ws_terminate wsB) (output_of demo_clock silent_history) /\
  record_of (state_after demo_clock silent_history) wsB
  = Some (Info (VStr "db-explorer") (VStr "agent") false 5000 (VStr "idle") VNull false) /\
  sends (snd (step (state_after demo_clock silent_history) (Close wsB 1006 "")))
  = [(wsA, MsgSystem [Val (VStr "db-explorer"); Lit " "; Lit "connection lost";
                      Lit " (was here "; Int 5; Lit "s)"] 11000);
     (wsA, MsgParticipantsUpdate
             [Participant (VStr "auth-analyzer") (VStr "agent") (VStr "idle") VNull 2000]
             12000)] /\
  existsb (fun p => gives_reason "heartbeat timeout" (snd p))
          (sends (output_of demo_clock (silent_history ++ [Close wsB 1006 ""]))) = false.
Proof.
  split; [vm_compute; tauto|].
  split; [vm_compute; reflexivity|].
  split; vm_compute; reflexivity.
Qed.

(** * Further properties of the broker *)

(** ** Records of other connections *)

Lemma registry_ok_distinct (w : world) (ws ws' : conn) (l l' : loc) :
  registry_ok w -> ws <> ws' ->
  JsMap.get ws (clients w) = Some l -> JsMap.get ws' (clients w) = Some l' ->
  l <> l'.
Proof.
  intros (_ & H2 & _ & H4) Hne Hget Hget' ->.
  apply Hne. eapply H4; [apply (H2 ws l' Hget) | apply (H2 ws' l' Hget')].
Qed.

Lemma registry_ok_allocated (w : world) (ws : conn) (l : loc) :
  registry_ok w -> JsMap.get ws (clients w) = Some l -> (l < next_loc w)%nat.
Proof.
  intros (_ & H2 & H3 & _) Hget. eapply H3. apply (H2 ws l Hget).
Qed.

(** What a step does to the entry and the record of a connection other than
    the one the event comes from: the entry stays, and the record is the same
    object with the same fields, except that a heartbeat tick may clear its
    liveness flag (it does unless the loop stops before it reaches the
    entry). *)
Lemma transition_other_record (w w' : world) (ev : event) (out : list action)
      (ws' : conn) (l' : loc) :
  transition w ev w' out ->
  registry_ok w -> enabled w ev = true ->
  subject ev <> Some ws' ->
  JsMap.get ws' (clients w) = Some l' ->
  JsMap.get ws' (clients w') = Some l' /\
  (heap w' !!! l' = heap w !!! l' \/
   is_heartbeat ev = true /\ heap w' !!! l' = set_alive false (heap w !!! l')).
Proof.
  intros Htr Hok Hen Hsub Hget'.
  pose proof (registry_ok_allocated _ _ _ Hok Hget') as Halloc.
  assert (Hdist : forall ws l, ws <> ws' -> JsMap.get ws (clients w) = Some l -> l <> l').
  { intros ws l Hne Hget. eapply registry_ok_distinct; eassumption. }
  destruct Htr; cbn [subject is_heartbeat] in *;
    try (assert (Hne : ws <> ws') by congruence).
  - (* connection *)
    cbn [after_connection clients heap]. split; [exact Hget'|]. left.
    apply lookup_total_insert_ne. lia.
  - auto.
  - auto.
  - (* register *)
    cbn [after_register clients heap]. split.
    + rewrite get_set_ne by exact Hne. exact Hget'.
    + left. apply lookup_total_insert_ne. lia.
  - (* register, the notice cannot be built *)
    cbn [registered clients heap]. split.
    + rewrite get_set_ne by exact Hne. exact Hget'.
    + left. apply lookup_total_insert_ne. lia.
  - (* status update *)
    cbn [read_clock after_status_update with_heap clients heap]. split; [exact Hget'|].
    left. apply lookup_total_insert_ne. eapply Hdist; eassumption.
  - auto.
  - (* discovery *)
    unfold marked, after_leaving. destruct (strict_eq_str _ _); [|auto].
    destruct (JsMap.get ws (clients w)) as [l|] eqn:Hget; [|auto].
    cbn [read_clock with_heap clients heap]. split; [exact Hget'|].
    left. apply lookup_total_insert_ne. eapply Hdist; eassumption.
  - (* leaving *)
    unfold after_leaving.
    destruct (JsMap.get ws (clients w)) as [l|] eqn:Hget; [|auto].
    cbn [with_heap clients heap]. split; [exact Hget'|].
    left. apply lookup_total_insert_ne. eapply Hdist; eassumption.
  - auto.
  - (* pong *)
    unfold after_pong.
    destruct (JsMap.get ws (clients w)) as [l|] eqn:Hget; [|auto].
    cbn [with_heap clients heap]. split; [exact Hget'|].
    left. apply lookup_total_insert_ne. eapply Hdist; eassumption.
  - (* close *)
    cbn [after_close clients heap]. split; [|left; reflexivity].
    rewrite get_delete_ne by exact Hne. exact Hget'.
  - (* close, the notice cannot be built *)
    cbn [removed clients heap]. split; [|left; reflexivity].
    rewrite get_delete_ne by exact Hne. exact Hget'.
  - auto.
  - auto.
  - auto.
  - (* heartbeat *)
    destruct (fold_probe_frame es (read_clock w)) as (-> & _).
    split; [exact Hget'|].
    pose proof (registry_ok_nodup_objects w Hok) as Hnd.
    rewrite H, map_app in Hnd. apply List.NoDup_app_remove_r in Hnd.
    destruct (in_dec Nat.eq_dec l' (List.map snd es)) as [Hin|Hnin].
    + right. split; [reflexivity|].
      apply (fold_probe_heap_in es (read_clock w)); assumption.
    + left. apply (fold_probe_heap_other es (read_clock w)). exact Hnin.
  - auto.
  - auto.
Qed.

(** X1.  An event that comes from one connection (a message, pong, close,
    error, or its arrival) leaves every other registered connection where it
    is in the registry and leaves its record untouched, in every state the
    broker reaches. *)
Theorem other_records_untouched (clk : nat -> Z) (tr : list event) (w : world)
        (out : list action) (ev : event) (ws ws' : conn) (i' : info) :
  run (init clk) tr = Some (w, out) ->
  enabled w ev = true ->
  subject ev = Some ws -> ws <> ws' ->
  record_of w ws' = Some i' ->
  record_of (fst (step w ev)) ws' = Some i' /\
  JsMap.get ws' (clients (fst (step w ev))) = JsMap.get ws' (clients w).
Proof.
  intros Hrun Hen Hsub Hne Hrec.
  pose proof (registry_ok_run tr _ _ _ (registry_ok_init clk) Hrun) as Hok.
  unfold record_of in Hrec.
  destruct (JsMap.get ws' (clients w)) as [l'|] eqn:Hget'; [|discriminate].
  injection Hrec as <-.
  destruct (transition_other_record w _ ev _ ws' l' (step_transition w ev) Hok Hen)
    as [Hg Hh]; [congruence | exact Hget' |].
  assert (Hnb : is_heartbeat ev = false) by (destruct ev; cbn in *; congruence).
  destruct Hh as [Hh|[Hb _]]; [|congruence].
  unfold record_of. rewrite Hg, Hh. auto.
Qed.

(** ** Names in the registry can be printed *)

Lemma names_after_leaving (w : world) (ws : conn) :
  names_printable w -> names_printable (after_leaving w ws).
Proof.
  intros Hw. unfold after_leaving. destruct (JsMap.get ws (clients w)) as [l|]; [|exact Hw].
  unfold names_printable. cbn [with_heap heap]. apply names_insert; [exact Hw | apply Hw].
Qed.

Lemma names_on_message (w w' : world) (ws : conn) (data : frame) (out : list action) :
  registers_printable (Message ws data) = true ->
  names_printable w ->
  on_message ws data w = (Ok tt, w', out) ->
  names_printable w'.
Proof.
  intros Hev Hw Hrun. destruct data as [raw|msg].
  { rewrite on_message_not_json in Hrun. congruence. }
  cbn [registers_printable] in Hev.
  destruct (get_property msg "type") as [t|e] eqn:Ht.
  2:{ rewrite (on_message_no_type _ _ _ _ Ht) in Hrun. congruence. }
  destruct (strict_eq_str t "register") eqn:E1.
  { apply strict_eq_str_true in E1; subst t.
    rewrite (on_message_register _ _ _ Ht Hev) in Hrun. injection Hrun as <- _.
    unfold names_printable. cbn [after_register heap].
    apply names_insert; [exact Hw | exact Hev]. }
  destruct (strict_eq_str t "status_update") eqn:E2.
  { apply strict_eq_str_true in E2; subst t.
    destruct (JsMap.get ws (clients w)) as [l|] eqn:Hget.
    - rewrite (on_message_status_update _ _ _ _ Ht Hget) in Hrun. injection Hrun as <- _.
      unfold names_printable. cbn [read_clock after_status_update with_heap heap].
      apply names_insert; [exact Hw | apply Hw].
    - rewrite (on_message_status_update_unregistered _ _ _ Ht Hget) in Hrun. congruence. }
  destruct (strict_eq_str t "chat") eqn:E3.
  { apply strict_eq_str_true in E3; subst t.
    rewrite (on_message_chat _ _ _ Ht) in Hrun. injection Hrun as <- _. exact Hw. }
  destruct (strict_eq_str t "discovery") eqn:E4.
  { apply strict_eq_str_true in E4; subst t.
    rewrite (on_message_discovery _ _ _ Ht) in Hrun. injection Hrun as <- _.
    assert (Hm : names_printable (marked w ws msg)).
    { unfold marked. destruct (strict_eq_str (field msg "category") "leaving");
        [apply names_after_leaving|]; exact Hw. }
    exact Hm. }
  destruct (strict_eq_str t "leaving") eqn:E5.
  { apply strict_eq_str_true in E5; subst t.
    rewrite (on_message_leaving _ _ _ Ht) in Hrun. injection Hrun as <- _.
    apply names_after_leaving. exact Hw. }
  destruct (strict_eq_str t "who") eqn:E6.
  { apply strict_eq_str_true in E6; subst t.
    rewrite (on_message_who _ _ _ Ht) in Hrun. injection Hrun as <- _. exact Hw. }
  rewrite (on_message_other _ _ _ _ Ht) in Hrun; [congruence|].
  unfold known_kinds. repeat constructor; assumption.
Qed.

Lemma names_step (w : world) (ev : event) :
  registers_printable ev = true ->
  names_printable w ->
  names_printable (fst (step w ev)).
Proof.
  intros Hev Hw. unfold step.
  destruct ev as [ws|ws data|ws|ws code reason|ws m|ws| |]; cbn [handler].
  - rewrite on_connection_spec. cbn [fst].
    unfold names_printable. cbn [after_connection heap].
    apply names_insert; [exact Hw | reflexivity].
  - destruct (on_message_transition w ws data) as (w' & out & Hrun & _).
    rewrite Hrun. cbn [fst]. eapply names_on_message; eassumption.
  - rewrite on_pong_spec. cbn [fst]. unfold after_pong.
    destruct (JsMap.get ws (clients w)) as [l|]; [|exact Hw].
    unfold names_printable. cbn [with_heap heap]. apply names_insert; [exact Hw | apply Hw].
  - destruct (JsMap.get ws (clients w)) as [l|] eqn:Hget.
    + rewrite (on_close_registered _ _ _ _ _ Hget (Hw l)). exact Hw.
    + rewrite (on_close_unregistered _ _ _ _ Hget). exact Hw.
  - exact Hw.
  - exact Hw.
  - destruct (heartbeat_runs w) as (es & rest & r & out & _ & -> & _). cbn [fst].
    apply names_fold_probe. exact Hw.
  - rewrite participantTick_spec. destruct (clients w); exact Hw.
Qed.

(** While every name can be converted, no exception escapes a handler. *)
Lemma names_no_uncaught (w : world) (ev : event) :
  registry_ok w -> names_printable w -> uncaught w ev = None.
Proof.
  intros Hok Hw. unfold uncaught.
  destruct ev as [ws|ws data|ws|ws code reason|ws m|ws| |]; cbn [handler].
  - rewrite on_connection_spec. reflexivity.
  - destruct (on_message_returns w ws data) as (w' & out & ->). reflexivity.
  - rewrite on_pong_spec. reflexivity.
  - destruct (JsMap.get ws (clients w)) as [l|] eqn:Hget.
    + rewrite (on_close_registered _ _ _ _ _ Hget (Hw l)). reflexivity.
    + rewrite (on_close_unregistered _ _ _ _ Hget). reflexivity.
  - reflexivity.
  - reflexivity.
  - rewrite (heartbeat_spec w Hw (registry_ok_nodup_objects w Hok)). reflexivity.
  - rewrite participantTick_spec. destruct (clients w); reflexivity.
Qed.

(** In a history whose [register] messages carry names that can be converted
    to a string, every record holds such a name. *)
Lemma names_run (tr : list event) (w w' : world) (out : list action) :
  names_printable w ->
  forallb registers_printable tr = true ->
  run w tr = Some (w', out) ->
  names_printable w'.
Proof.
  revert w out. induction tr as [|ev tr IH]; intros w out Hw Htr Hrun.
  - cbn in Hrun. injection Hrun as <- _. exact Hw.
  - cbn [forallb] in Htr. apply andb_prop in Htr. destruct Htr as [Hev Htr].
    apply run_app_step in Hrun. destruct Hrun as (_ & out2 & Hrun & _).
    eapply IH; [|exact Htr|exact Hrun]. apply names_step; assumption.
Qed.

Lemma names_init (clk : nat -> Z) : names_printable (init clk).
Proof. intros l. reflexivity. Qed.

(** ** The heartbeat under traffic *)

(** Through any history that holds no event of [ws], a registered [ws] stays
    registered with the same object; a cleared liveness flag stays cleared,
    and without heartbeat ticks the record does not change at all. *)
Lemma run_without (tr : list event) (w w' : world) (out : list action)
      (ws : conn) (l : loc) :
  registry_ok w ->
  JsMap.get ws (clients w) = Some l ->
  run w tr = Some (w', out) ->
  List.Forall (fun ev => subject ev <> Some ws) tr ->
  registry_ok w' /\
  JsMap.get ws (clients w') = Some l /\
  (alive (heap w !!! l) = false -> alive (heap w' !!! l) = false) /\
  (List.Forall (fun ev => is_heartbeat ev = false) tr -> heap w' !!! l = heap w !!! l).
Proof.
  revert w out. induction tr as [|ev tr IH]; intros w out Hok Hget Hrun Hsilent.
  - cbn in Hrun. injection Hrun as <- _. auto.
  - apply run_app_step in Hrun. destruct Hrun as (Hen & out2 & Hrun & _).
    inversion Hsilent as [|? ? Hev Hrest]; subst.
    pose proof (step_transition w ev) as Htr.
    pose proof (registry_ok_step _ _ _ _ Htr Hen Hok) as Hok1.
    destruct (transition_other_record _ _ _ _ ws l Htr Hok Hen Hev Hget) as [Hget1 Hheap1].
    destruct (IH _ _ Hok1 Hget1 Hrun Hrest) as (Hok' & Hget' & Hdead & Hsame).
    split; [exact Hok'|]. split; [exact Hget'|]. split.
    + intros Ha. apply Hdead.
      destruct Hheap1 as [-> | [_ ->]]; [exact Ha | reflexivity].
    + intros Hnt. inversion Hnt as [|? ? Hnb Hnt']; subst.
      rewrite (Hsame Hnt').
      destruct Hheap1 as [-> | [Hb _]]; [reflexivity | congruence].
Qed.

Lemma step_heartbeat (w : world) (ws : conn) (l : loc) :
  registry_ok w ->
  names_printable w ->
  JsMap.get ws (clients w) = Some l ->
  fst (step w HeartbeatTick) = after_heartbeat w /\
  registry_ok (after_heartbeat w) /\
  JsMap.get ws (clients (after_heartbeat w)) = Some l /\
  alive (heap (after_heartbeat w) !!! l) = false /\
  (alive (heap w !!! l) = false ->
     In (ws_terminate ws) (snd (step w HeartbeatTick)) /\
     ~ In (ws_ping ws) (snd (step w HeartbeatTick))) /\
  (alive (heap w !!! l) = true ->
     In (ws_ping ws) (snd (step w HeartbeatTick)) /\
     ~ In (ws_terminate ws) (snd (step w HeartbeatTick))).
Proof.
  intros Hok Hnames Hget.
  destruct (heartbeat_tick w ws l Hok Hnames Hget)
    as (out & Hrun & Hdead & Halive & Hheap & Hc).
  assert (Hfst : fst (step w HeartbeatTick) = after_heartbeat w).
  { unfold step. cbn [handler]. rewrite Hrun. reflexivity. }
  assert (Hsnd : snd (step w HeartbeatTick) = out).
  { unfold step. cbn [handler]. rewrite Hrun. reflexivity. }
  rewrite Hsnd. split; [exact Hfst|]. split.
  { rewrite <- Hfst. eapply registry_ok_step;
      [apply step_transition | reflexivity | exact Hok]. }
  split; [rewrite Hc; exact Hget|]. split; [rewrite Hheap; reflexivity|]. auto.
Qed.

(** X2.  Eviction under traffic: in any state the broker reaches, once a tick
    has probed a registered connection, if no event of that connection
    follows (no pong, no message, no close), the next tick terminates it and
    does not ping it, whatever the other connections and timers did in
    between.  The history is one in which every registered name can be
    converted to a string, so that every name the tick logs can be. *)
Theorem silent_connection_terminated (clk : nat -> Z) (tr0 tr : list event)
        (w w2 : world) (out0 out : list action) (ws : conn) (l : loc) :
  run (init clk) tr0 = Some (w, out0) ->
  JsMap.get ws (clients w) = Some l ->
  run (fst (step w HeartbeatTick)) tr = Some (w2, out) ->
  List.Forall (fun ev => subject ev <> Some ws) tr ->
  forallb registers_printable (tr0 ++ tr) = true ->
  In (ws_terminate ws) (snd (step w2 HeartbeatTick)) /\
  ~ In (ws_ping ws) (snd (step w2 HeartbeatTick)) /\
  names_printable w2.
Proof.
  intros Hrun0 Hget Hrun Hsilent Hnames.
  rewrite forallb_app in Hnames. apply andb_prop in Hnames. destruct Hnames as [Hn0 Hn].
  pose proof (names_run tr0 _ _ _ (names_init clk) Hn0 Hrun0) as Hpw.
  pose proof (names_run tr _ _ _ (names_step w HeartbeatTick eq_refl Hpw) Hn Hrun) as Hpw2.
  pose proof (registry_ok_run tr0 _ _ _ (registry_ok_init clk) Hrun0) as Hok.
  destruct (step_heartbeat w ws l Hok Hpw Hget) as (Hfst & Hok1 & Hget1 & Hdead1 & _).
  rewrite Hfst in Hrun.
  destruct (run_without tr _ _ _ ws l Hok1 Hget1 Hrun Hsilent) as (Hok2 & Hget2 & Hdead2 & _).
  destruct (step_heartbeat w2 ws l Hok2 Hpw2 Hget2) as (_ & _ & _ & _ & Hterm & _).
  destruct (Hterm (Hdead2 Hdead1)) as [Ht Hp]. auto.
Qed.

(** X3.  A connection that answers is kept: in any state the broker reaches,
    after a pong of a registered connection, and whatever other connections
    do before the next tick, that tick pings the connection and does not
    terminate it.  The history is one in which every registered name can be
    converted to a string, so that every name the tick logs can be. *)
Theorem answering_connection_kept (clk : nat -> Z) (tr0 tr : list event)
        (w w2 : world) (out0 out : list action) (ws : conn) (l : loc) :
  run (init clk) tr0 = Some (w, out0) ->
  JsMap.get ws (clients w) = Some l ->
  run (fst (step w (Pong ws))) tr = Some (w2, out) ->
  List.Forall (fun ev => subject ev <> Some ws) tr ->
  List.Forall (fun ev => is_heartbeat ev = false) tr ->
  forallb registers_printable (tr0 ++ tr) = true ->
  In (ws_ping ws) (snd (step w2 HeartbeatTick)) /\
  ~ In (ws_terminate ws) (snd (step w2 HeartbeatTick)) /\
  names_printable w2.
Proof.
  intros Hrun0 Hget Hrun Hsilent Hnotick Hnames.
  rewrite forallb_app in Hnames. apply andb_prop in Hnames. destruct Hnames as [Hn0 Hn].
  pose proof (names_run tr0 _ _ _ (names_init clk) Hn0 Hrun0) as Hpw.
  pose proof (names_run tr _ _ _ (names_step w (Pong ws) eq_refl Hpw) Hn Hrun) as Hpw2.
  pose proof (registry_ok_run tr0 _ _ _ (registry_ok_init clk) Hrun0) as Hok.
  assert (Hlive : enabled w (Pong ws) = true).
  { destruct Hok as (_ & H2 & _). apply (H2 ws l Hget). }
  pose proof (registry_ok_step _ _ _ _ (step_transition w (Pong ws)) Hlive Hok) as Hok1.
  assert (Hfst : fst (step w (Pong ws)) = after_pong w ws).
  { unfold step. cbn [handler]. rewrite on_pong_spec. reflexivity. }
  rewrite Hfst in Hrun, Hok1.
  assert (Hget1 : JsMap.get ws (clients (after_pong w ws)) = Some l).
  { unfold after_pong. rewrite Hget. exact Hget. }
  assert (Halive1 : alive (heap (after_pong w ws) !!! l) = true).
  { unfold after_pong. rewrite Hget. cbn [with_heap heap].
    rewrite lookup_total_insert_eq. reflexivity. }
  destruct (run_without tr _ _ _ ws l Hok1 Hget1 Hrun Hsilent) as (Hok2 & Hget2 & _ & Hsame).
  destruct (step_heartbeat w2 ws l Hok2 Hpw2 Hget2) as (_ & _ & _ & _ & _ & Hping).
  assert (Halive2 : alive (heap w2 !!! l) = true) by (rewrite (Hsame Hnotick); exact Halive1).
  destruct (Hping Halive2) as [Hp Ht]. auto.
Qed.

(** ** Status updates *)

(** X4.  A [status_update] from a registered connection assigns two fields of
    its record and nothing else: status becomes the message's status, or
    "idle" when that is missing or falsy, and task becomes the message's task,
    or null when that is missing or falsy (so a field left out of the message
    is reset, not kept).  Name, role, liveness flag, joinedAt and leaving flag
    stay, as do the registry and every other object; one snapshot, computed
    after the assignment, is sent to the open connections of the registry.
    From a connection that has not registered the message does nothing at
    all. *)
Theorem status_update_effect (w : world) (ws : conn) (msg : value) :
  get_property msg "type" = Ok (VStr "status_update") ->
  (forall l, JsMap.get ws (clients w) = Some l ->
     exists w' out,
       on_message ws (Json msg) w = (Ok tt, w', out) /\
       heap w' = <[l := Info (name (heap w !!! l)) (type (heap w !!! l))
                             (alive (heap w !!! l)) (joinedAt (heap w !!! l))
                             (if truthy (field msg "status") then field msg "status"
                              else VStr "idle")
                             (if truthy (field msg "task") then field msg "task"
                              else VNull)
                             (leaving (heap w !!! l))]> (heap w) /\
       clients w' = clients w /\ clientInfo w' = clientInfo w /\
       readyState w' = readyState w /\
       sends out = List.map (fun c => (c, MsgParticipantsUpdate (snapshot w')
                                                               (clock w (reads w))))
                            (recipients w)) /\
  (JsMap.get ws (clients w) = None -> on_message ws (Json msg) w = (Ok tt, w, [])).
Proof.
  intros Ht. split.
  - intros l Hget. do 2 eexists.
    split; [eapply on_message_status_update; eassumption|].
    split; [reflexivity|]. repeat split.
    rewrite sends_app, sends_deliver, sends_logged. apply app_nil_r.
  - intros Hget. apply on_message_status_update_unregistered; assumption.
Qed.

Lemma status_update_effect_witness :
  exists w' out,
    on_message wsA (Json (status_value "reading src/auth"))
               (state_after demo_clock two_registered_history) = (Ok tt, w', out) /\
    record_of w' wsA
    = Some (Info (VStr "auth-analyzer") (VStr "agent") true 2000
                 (VStr "reading src/auth") VNull false).
Proof.
  destruct (status_update_effect (state_after demo_clock two_registered_history) wsA
              (status_value "reading src/auth") eq_refl) as [Hreg _].
  destruct (Hreg 2%nat) as (w' & out & Hrun & Hheap & Hclients & _).
  - vm_compute; reflexivity.
  - exists w', out. split; [exact Hrun|].
    unfold record_of. rewrite Hclients, Hheap. vm_compute. reflexivity.
Defined.

(** ** Messages the broker does not know *)

(** X5.  A frame that parses to a value whose [type] is none of "register",
    "status_update", "chat", "discovery", "leaving" and "who" (a number, a
    string, an array, an object without [type], a [type] spelt otherwise) is
    ignored without a trace: the state is the same and the broker calls
    nothing, not even the console. *)
Theorem unknown_message_ignored (w : world) (ws : conn) (msg t : value) :
  get_property msg "type" = Ok t ->
  ~ In t (List.map VStr known_kinds) ->
  on_message ws (Json msg) w = (Ok tt, w, []).
Proof.
  intros Ht Hnot. eapply on_message_other; [exact Ht|].
  apply List.Forall_forall. intros k Hk.
  destruct (strict_eq_str t k) eqn:E; [|reflexivity].
  apply strict_eq_str_true in E. subst t.
  exfalso. apply Hnot. apply in_map. exact Hk.
Qed.

Lemma unknown_message_ignored_witness :
  on_message wsA (Json (VObj [("type", VStr "Chat"); ("text", VStr "hello")]))
             (state_after demo_clock two_registered_history)
  = (Ok tt, state_after demo_clock two_registered_history, []) /\
  on_message wsA (Json (VArr [VStr "chat"]))
             (state_after demo_clock two_registered_history)
  = (Ok tt, state_after demo_clock two_registered_history, []).
Proof.
  split.
  - apply (unknown_message_ignored _ wsA _ (VStr "Chat")); [reflexivity|].
    cbn. intuition discriminate.
  - apply (unknown_message_ignored _ wsA _ VUndefined); [reflexivity|].
    cbn. intuition discriminate.
Defined.

(** ** Connections that have not registered *)

(** X6.  A connection that is not in the registry cannot touch it: its pong,
    its [leaving] and its [status_update] change nothing and call nothing,
    and its close is silent, with no notice, no snapshot and no log, the
    registry and all records staying as they were. *)
Theorem unregistered_connection_inert (w : world) (ws : conn) :
  JsMap.get ws (clients w) = None ->
  on_pong ws w = (Ok tt, w, []) /\
  (forall msg, get_property msg "type" = Ok (VStr "leaving") ->
     on_message ws (Json msg) w = (Ok tt, w, [])) /\
  (forall msg, get_property msg "type" = Ok (VStr "status_update") ->
     on_message ws (Json msg) w = (Ok tt, w, [])) /\
  (forall code reason, exists w',
     on_close ws code reason w = (Ok tt, w', []) /\
     clients w' = clients w /\ heap w' = heap w /\ clientInfo w' = clientInfo w /\
     reads w' = reads w).
Proof.
  intros Hget. split; [|split; [|split]].
  - rewrite on_pong_spec. unfold after_pong. rewrite Hget. reflexivity.
  - intros msg Ht. rewrite (on_message_leaving _ _ _ Ht).
    unfold after_leaving. rewrite Hget. reflexivity.
  - intros msg Ht. apply on_message_status_update_unregistered; assumption.
  - intros code reason. eexists.
    split; [apply on_close_unregistered; exact Hget|]. repeat split.
Qed.

Lemma unregistered_connection_inert_witness :
  on_pong wsA (state_after demo_clock one_registered_history)
  = (Ok tt, state_after demo_clock one_registered_history, []) /\
  sends (snd (step (state_after demo_clock one_registered_history) (Close wsA 1006 "")))
  = [].
Proof.
  destruct (unregistered_connection_inert (state_after demo_clock one_registered_history) wsA)
    as (Hpong & _ & _ & Hclose).
  - vm_compute; reflexivity.
  - split; [exact Hpong|].
    destruct (Hclose 1006 "") as (w' & Hrun & _).
    unfold step. cbn [handler]. rewrite Hrun. reflexivity.
Defined.

(** ** The who query, repeated *)

(** X7.  [who] is a pure query: it leaves the registry and every record as
    they were, so a second [who] right after the first, from the same or from
    another connection, is answered with the same list. *)
Theorem who_twice (w : world) (ws ws' : conn) (msg msg' : value) :
  get_property msg "type" = Ok (VStr "who") ->
  get_property msg' "type" = Ok (VStr "who") ->
  exists online,
    sends (snd (step w (Message ws (Json msg))))
    = [(ws, MsgWhoResponse online (clock w (reads w)))] /\
    sends (snd (step (fst (step w (Message ws (Json msg)))) (Message ws' (Json msg'))))
    = [(ws', MsgWhoResponse online (clock w (S (reads w))))] /\
    clients (fst (step w (Message ws (Json msg)))) = clients w /\
    heap (fst (step w (Message ws (Json msg)))) = heap w.
Proof.
  intros Ht Ht'. exists (online_list w).
  unfold step. cbn [handler].
  rewrite (on_message_who _ _ _ Ht). cbn [fst snd].
  rewrite (on_message_who _ _ _ Ht'). cbn [fst snd].
  repeat split.
Qed.

Lemma who_twice_witness :
  exists online,
    sends (snd (step (state_after demo_clock two_registered_history)
                     (Message wsA (Json who_value))))
    = [(wsA, MsgWhoResponse online 8000)] /\
    sends (snd (step (fst (step (state_after demo_clock two_registered_history)
                                (Message wsA (Json who_value))))
                     (Message wsB (Json who_value))))
    = [(wsB, MsgWhoResponse online 9000)].
Proof.
  destruct (who_twice (state_after demo_clock two_registered_history) wsA wsB
                      who_value who_value eq_refl eq_refl)
    as (online & H1 & H2 & _).
  exists online. split; [exact H1 | exact H2].
Defined.

(** ** A first registration *)

Lemma length_set_absent {V} (k : conn) (v : V) (m : list (conn * V)) :
  JsMap.get k m = None -> List.length (JsMap.set k v m) = S (List.length m).
Proof.
  induction m as [|[k' v'] m IH]; cbn; [reflexivity|].
  destruct (Nat.eqb k k'); [discriminate|]. intros H. cbn. rewrite IH by exact H.
  reflexivity.
Qed.

(** X8.  A [register] from a connection that is not yet in the registry
    appends it: the connections already registered keep their order and their
    entries, the newcomer comes last, and the snapshot grows by one entry.
    The record takes the message's name as it is, even when there is none,
    and the role "agent" when the message gives no role or a falsy one. *)
Theorem first_registration (w : world) (ws : conn) (msg : value) :
  JsMap.get ws (clients w) = None ->
  get_property msg "type" = Ok (VStr "register") ->
  exists w' out,
    on_message ws (Json msg) w = (Ok tt, w', out) /\
    JsMap.keys (clients w') = JsMap.keys (clients w) ++ [ws] /\
    (forall ws', ws' <> ws -> JsMap.get ws' (clients w') = JsMap.get ws' (clients w)) /\
    (forall l, l <> next_loc w -> heap w' !! l = heap w !! l) /\
    record_of w' ws
    = Some (Info (field msg "name")
                 (if truthy (field msg "agentType") then field msg "agentType"
                  else VStr "agent")
                 true (clock w (reads w)) (VStr "idle") VNull false) /\
    List.length (snapshot w') = S (List.length (snapshot w)).
Proof.
  intros Hget Ht.
  assert (Hstate : forall w', clients w' = JsMap.set ws (next_loc w) (clients w) ->
                              heap w' = <[next_loc w := registered_info w msg]> (heap w) ->
    JsMap.keys (clients w') = JsMap.keys (clients w) ++ [ws] /\
    (forall ws', ws' <> ws -> JsMap.get ws' (clients w') = JsMap.get ws' (clients w)) /\
    (forall l, l <> next_loc w -> heap w' !! l = heap w !! l) /\
    record_of w' ws = Some (registered_info w msg) /\
    List.length (snapshot w') = S (List.length (snapshot w))).
  { intros w' Hc Hh.
    split; [rewrite Hc; apply keys_set_absent; exact Hget|].
    split; [intros ws' Hne; rewrite Hc; apply get_set_ne; congruence|].
    split; [intros l Hne; rewrite Hh; apply lookup_insert_ne; congruence|].
    split.
    - unfold record_of. rewrite Hc, Hh, get_set_eq, lookup_total_insert_eq. reflexivity.
    - unfold snapshot. rewrite Hc, !length_map. apply length_set_absent. exact Hget. }
  destruct (printable (field msg "name")) eqn:Hname.
  - exists (after_register w ws msg). eexists.
    split; [apply on_message_register; assumption|].
    apply Hstate; reflexivity.
  - exists (registered w ws msg). eexists.
    split; [apply on_message_register_throws; assumption|].
    apply Hstate; reflexivity.
Qed.

Lemma first_registration_witness :
  exists w' out,
    on_message wsA (Json bare_register_value)
               (state_after demo_clock one_registered_history) = (Ok tt, w', out) /\
    JsMap.keys (clients w') = [wsB; wsA] /\
    record_of w' wsA
    = Some (Info VUndefined (VStr "agent") true 5000 (VStr "idle") VNull false).
Proof.
  destruct (first_registration (state_after demo_clock one_registered_history) wsA
                               bare_register_value)
    as (w' & out & Hrun & Hkeys & _ & _ & Hrec & _).
  - vm_compute; reflexivity.
  - reflexivity.
  - exists w', out. split; [exact Hrun|].
    split; [rewrite Hkeys; vm_compute; reflexivity|].
    rewrite Hrec. vm_compute. reflexivity.
Defined.

(** ** Who is sent to *)

Lemma in_sends_deliver (c : conn) (m m' : server_msg) (cs : list conn) :
  In (c, m) (sends (deliver m' cs)) -> In c cs /\ m = m'.
Proof.
  rewrite sends_deliver, in_map_iff. intros (c' & Heq & Hc'). split; congruence.
Qed.

Lemma transition_recipients (w w' : world) (ev : event) (out : list action)
      (c : conn) (m : server_msg) :
  transition w ev w' out ->
  In (c, m) (sends out) ->
  (In c (recipients w') /\ is_who_response m = false) \/
  ((exists data, ev = Message c data) /\ is_who_response m = true).
Proof.
  intros Htr Hin.
  destruct Htr; rewrite ?sends_app in Hin;
    repeat (apply in_app_or in Hin; destruct Hin as [Hin|Hin]);
    try (unfold logged in Hin; destruct (forallb printable_piece line); destruct Hin);
    try (apply in_sends_deliver in Hin; destruct Hin as [Hc ->]);
    try (cbn in Hin; contradiction).
  - left. split; [exact Hc | reflexivity].
  - left. split; [exact Hc | reflexivity].
  - left. split; [exact Hc | reflexivity].
  - left. split; [exact Hc | reflexivity].
  - left. split; [|reflexivity].
    destruct (marked_frame w ws msg) as (Hcl & Hrs & _).
    unfold recipients, ready in *. cbn [read_clock clients readyState].
    rewrite Hcl, Hrs. exact Hc.
  - right. cbn in Hin. destruct Hin as [Heq|[]]. injection Heq as <- <-.
    split; [eauto | reflexivity].
  - left. split; [exact Hc | reflexivity].
  - left. split; [exact Hc | reflexivity].
  - exfalso. rewrite (sends_no_send _ H0) in Hin. destruct Hin.
  - left. split; [exact Hc | reflexivity].
Qed.

(** X9.  Whom the broker sends to: whatever the event and the state, every
    message other than a [who_response] goes to a connection that is in the
    registry with an open transport when the handler finishes, and a
    [who_response] goes to the connection whose message is being handled.  In
    particular nothing is ever sent to a connection that has closed or has
    not registered, except the answer to its own [who]. *)
Theorem sends_reach_open_members_only (w : world) (ev : event) (c : conn)
        (m : server_msg) :
  In (ws_send c m) (snd (step w ev)) ->
  (is_who_response m = false /\
   In c (JsMap.keys (clients (fst (step w ev)))) /\
   ready (fst (step w ev)) c = OPEN) \/
  (is_who_response m = true /\ exists data, ev = Message c data).
Proof.
  intros Hin. apply in_sends in Hin.
  destruct (transition_recipients _ _ _ _ c m (step_transition w ev) Hin)
    as [[Hc Hm]|[Hs Hm]].
  - left. apply in_recipients in Hc. tauto.
  - right. split; [exact Hm | exact Hs].
Qed.

Lemma sends_reach_open_members_only_witness :
  In wsB (JsMap.keys (clients (fst (step (state_after demo_clock two_registered_history)
                                         (Message wsA (chat_frame "hello")))))) /\
  ready (fst (step (state_after demo_clock two_registered_history)
                   (Message wsA (chat_frame "hello")))) wsB = OPEN.
Proof.
  destruct (sends_reach_open_members_only
              (state_after demo_clock two_registered_history)
              (Message wsA (chat_frame "hello")) wsB
              (MsgChat (VStr "auth-analyzer") (VStr "agent") (VStr "hello") 8000))
    as [(_ & Hin & Hopen)|(Hwho & _)].
  - vm_compute. tauto.
  - split; [exact Hin | exact Hopen].
  - discriminate Hwho.
Defined.

Lemma other_records_untouched_witness :
  record_of (fst (step (state_after demo_clock two_registered_history)
                       (Message wsA (Json (status_value "busy"))))) wsB
  = Some (Info (VStr "db-explorer") (VStr "agent") true 5000 (VStr "idle") VNull false).
Proof.
  destruct (other_records_untouched demo_clock two_registered_history
              (state_after demo_clock two_registered_history)
              (output_of demo_clock two_registered_history)
              (Message wsA (Json (status_value "busy"))) wsA wsB
              (Info (VStr "db-explorer") (VStr "agent") true 5000 (VStr "idle") VNull false))
    as [Hrec _].
  - vm_compute; reflexivity.
  - vm_compute; reflexivity.
  - reflexivity.
  - vm_compute; congruence.
  - vm_compute; reflexivity.
  - exact Hrec.
Defined.

Lemma silent_connection_terminated_witness :
  In (ws_terminate wsB)
     (snd (step (end_state (fst (step (state_after demo_clock two_registered_history)
                                      HeartbeatTick))
                           [Pong wsA; Message wsA (chat_frame "anyone there?")])
                HeartbeatTick)).
Proof.
  destruct (silent_connection_terminated demo_clock two_registered_history
              [Pong wsA; Message wsA (chat_frame "anyone there?")]
              (state_after demo_clock two_registered_history)
              (end_state (fst (step (state_after demo_clock two_registered_history)
                                    HeartbeatTick))
                         [Pong wsA; Message wsA (chat_frame "anyone there?")])
              (output_of demo_clock two_registered_history)
              (end_output (fst (step (state_after demo_clock two_registered_history)
                                     HeartbeatTick))
                          [Pong wsA; Message wsA (chat_frame "anyone there?")])
              wsB 3%nat)
    as [Hterm _].
  - vm_compute; reflexivity.
  - vm_compute; reflexivity.
  - vm_compute; reflexivity.
  - repeat constructor; cbn; vm_compute; congruence.
  - vm_compute; reflexivity.
  - exact Hterm.
Defined.

Lemma answering_connection_kept_witness :
  In (ws_ping wsA)
     (snd (step (end_state (fst (step (state_after demo_clock silent_history) (Pong wsA)))
                           [Message wsB (chat_frame "still here"); ParticipantTick])
                HeartbeatTick)).
Proof.
  destruct (answering_connection_kept demo_clock silent_history
              [Message wsB (chat_frame "still here"); ParticipantTick]
              (state_after demo_clock silent_history)
              (end_state (fst (step (state_after demo_clock silent_history) (Pong wsA)))
                         [Message wsB (chat_frame "still here"); ParticipantTick])
              (output_of demo_clock silent_history)
              (end_output (fst (step (state_after demo_clock silent_history) (Pong wsA)))
                          [Message wsB (chat_frame "still here"); ParticipantTick])
              wsA 2%nat)
    as [Hping _].
  - vm_compute; reflexivity.
  - vm_compute; reflexivity.
  - vm_compute; reflexivity.
  - repeat constructor; cbn; vm_compute; congruence.
  - repeat constructor.
  - vm_compute; reflexivity.
  - exact Hping.
Defined.

(** ** No duplicate sends *)

Lemma nodup_map_pair (m : server_msg) (cs : list conn) :
  List.NoDup cs -> List.NoDup (List.map (fun c => (c, m)) cs).
Proof.
  intros Hnd. induction Hnd as [|c cs Hnin Hnd IH]; cbn; constructor; [|exact IH].
  intros Hin. apply in_map_iff in Hin. destruct Hin as (c' & Heq & Hc'). congruence.
Qed.

Lemma nodup_recipients (w : world) :
  List.NoDup (JsMap.keys (clients w)) -> List.NoDup (recipients w).
Proof. intros Hnd. unfold recipients. apply List.NoDup_filter. exact Hnd. Qed.

Lemma nodup_two_broadcasts (m1 m2 : server_msg) (cs : list conn) :
  m1 <> m2 -> List.NoDup cs ->
  List.NoDup (List.map (fun c => (c, m1)) cs ++ List.map (fun c => (c, m2)) cs).
Proof.
  intros Hne Hnd. apply List.NoDup_app; [apply nodup_map_pair; exact Hnd
                                        | apply nodup_map_pair; exact Hnd |].
  intros [c m] H1 H2. apply in_map_iff in H1. apply in_map_iff in H2.
  destruct H1 as (c1 & E1 & _). destruct H2 as (c2 & E2 & _). congruence.
Qed.

Lemma transition_nodup (w w' : world) (ev : event) (out : list action) :
  transition w ev w' out ->
  List.NoDup (JsMap.keys (clients w)) ->
  List.NoDup (sends out).
Proof.
  intros Htr Hnd.
  destruct Htr; rewrite ?sends_app, ?sends_deliver, ?sends_logged; cbn [sends flat_map];
    rewrite ?app_nil_r;
    try (constructor; fail);
    try (apply nodup_map_pair, nodup_recipients; exact Hnd).
  - (* register *)
    apply nodup_two_broadcasts; [discriminate|].
    apply nodup_recipients. cbn [after_register clients].
    apply nodup_keys_set. exact Hnd.
  - (* who *)
    constructor; [intros [] | constructor].
  - (* close *)
    apply nodup_two_broadcasts; [discriminate|].
    apply nodup_recipients. cbn [after_close clients].
    apply nodup_keys_delete. exact Hnd.
  - (* heartbeat *)
    rewrite (sends_no_send _ H0). constructor.
Qed.

(** X10.  No duplicates at the source: in every state the broker reaches,
    handling one event never sends the same message twice to the same
    connection. *)
Theorem no_duplicate_sends (clk : nat -> Z) (tr : list event) (w : world)
        (out : list action) (ev : event) :
  run (init clk) tr = Some (w, out) ->
  List.NoDup (sends (snd (step w ev))).
Proof.
  intros Hrun.
  destruct (registry_ok_run tr _ _ _ (registry_ok_init clk) Hrun) as (Hnd & _).
  eapply transition_nodup; [apply step_transition | exact Hnd].
Qed.

Lemma no_duplicate_sends_witness :
  List.NoDup (sends (snd (step (state_after demo_clock two_registered_history)
                               (Message wsA (chat_frame "hello"))))).
Proof.
  apply (no_duplicate_sends demo_clock two_registered_history
           (state_after demo_clock two_registered_history)
           (output_of demo_clock two_registered_history)).
  vm_compute; reflexivity.
Defined.

(** ** The role stamped on relayed messages *)

(** X11.  In every state the broker reaches, a [chat] or [discovery] message
    from a registered connection is relayed with the role stored in that
    connection's registry record, and with the record's name as sender unless
    the message carries a truthy [from] of its own, which then is used
    unchecked. *)
Theorem relayed_role_is_registered_role (clk : nat -> Z) (tr : list event)
        (w : world) (out : list action) (ws : conn) (i : info) (msg : value) :
  run (init clk) tr = Some (w, out) ->
  record_of w ws = Some i ->
  (get_property msg "type" = Ok (VStr "chat") ->
   sends (snd (step w (Message ws (Json msg))))
   = List.map (fun c => (c, MsgChat (if truthy (field msg "from") then field msg "from"
                                     else name i)
                                    (type i) (field msg "text") (clock w (reads w))))
              (recipients w)) /\
  (get_property msg "type" = Ok (VStr "discovery") ->
   sends (snd (step w (Message ws (Json msg))))
   = List.map (fun c => (c, MsgDiscovery (if truthy (field msg "from") then field msg "from"
                                          else name i)
                                         (type i) (field msg "category")
                                         (field msg "text") (clock w (reads w))))
              (recipients w)).
Proof.
  intros Hrun Hrec.
  destruct (registry_ok_run tr _ _ _ (registry_ok_init clk) Hrun) as (_ & H2 & _).
  unfold record_of in Hrec.
  destruct (JsMap.get ws (clients w)) as [l|] eqn:Hget; [|discriminate].
  injection Hrec as <-.
  assert (Hci : closure_info w ws = heap w !!! l).
  { unfold closure_info. destruct (H2 ws l Hget) as [-> _]. reflexivity. }
  split; intros Ht; unfold step; cbn [handler].
  - rewrite (on_message_chat _ _ _ Ht). cbn [snd]. rewrite sends_deliver.
    unfold chat_msg. rewrite Hci. reflexivity.
  - rewrite (on_message_discovery _ _ _ Ht). cbn [snd]. rewrite sends_deliver.
    unfold discovery_msg.
    destruct (closure_info_marked w ws msg) as [-> ->].
    destruct (marked_frame w ws msg) as (_ & _ & -> & -> & _).
    rewrite Hci. reflexivity.
Qed.

Lemma relayed_role_is_registered_role_witness :
  sends (snd (step (state_after demo_clock two_registered_history)
                   (Message wsA (Json (VObj [("type", VStr "chat"); ("text", VStr "hi");
                                             ("from", VStr "someone-else")])))))
  = [(wsA, MsgChat (VStr "someone-else") (VStr "agent") (VStr "hi") 8000);
     (wsB, MsgChat (VStr "someone-else") (VStr "agent") (VStr "hi") 8000)].
Proof.
  destruct (relayed_role_is_registered_role demo_clock two_registered_history
              (state_after demo_clock two_registered_history)
              (output_of demo_clock two_registered_history) wsA
              (Info (VStr "auth-analyzer") (VStr "agent") true 2000 (VStr "idle") VNull false)
              (VObj [("type", VStr "chat"); ("text", VStr "hi");
                     ("from", VStr "someone-else")]))
    as [Hchat _].
  - vm_compute; reflexivity.
  - vm_compute; reflexivity.
  - rewrite (Hchat eq_refl). vm_compute. reflexivity.
Defined.

(** ** The periodic snapshot *)

(** X12.  The periodic refresh sends nothing and reads no clock while the
    registry is empty; otherwise it sends one snapshot, holding one entry per
    registered connection, to each open connection of the registry.  It never
    changes the registry or a record. *)
Theorem participant_refresh (w : world) :
  (clients w = [] -> step w ParticipantTick = (w, [])) /\
  (clients w <> [] ->
   fst (step w ParticipantTick) = read_clock w /\
   sends (snd (step w ParticipantTick))
   = List.map (fun c => (c, MsgParticipantsUpdate (snapshot w) (clock w (reads w))))
              (recipients w) /\
   List.length (snapshot w) = JsMap.size (clients w)) /\
  clients (fst (step w ParticipantTick)) = clients w /\
  heap (fst (step w ParticipantTick)) = heap w.
Proof.
  assert (Hstep : step w ParticipantTick
                  = match clients w with
                    | [] => (w, [])
                    | _ :: _ => (read_clock w,
                                 deliver (MsgParticipantsUpdate (snapshot w) (clock w (reads w)))
                                         (recipients w))
                    end).
  { unfold step. cbn [handler]. rewrite participantTick_spec.
    destruct (clients w); reflexivity. }
  rewrite Hstep. split; [|split; [|split]].
  - intros ->. reflexivity.
  - intros Hne. destruct (clients w) as [|e es] eqn:Hc; [congruence|].
    cbn [fst snd]. split; [reflexivity|]. split; [apply sends_deliver|].
    unfold snapshot, JsMap.size. rewrite Hc. apply length_map.
  - destruct (clients w) eqn:Hc; cbn [fst read_clock clients]; congruence.
  - destruct (clients w) eqn:Hc; reflexivity.
Qed.

(** ** Leaving the registry *)

Lemma transition_keeps_entry (w w' : world) (ev : event) (out : list action) (ws : conn) :
  transition w ev w' out ->
  is_close_of ws ev = false ->
  In ws (JsMap.keys (clients w)) -> In ws (JsMap.keys (clients w')).
Proof.
  intros Htr Hnc Hin. destruct Htr; cbn [is_close_of] in Hnc; try exact Hin.
  - (* register *)
    cbn [after_register clients]. apply in_keys_get.
    destruct (Nat.eq_dec ws0 ws) as [->|Hne].
    + rewrite get_set_eq. eauto.
    + rewrite get_set_ne by exact Hne. apply in_keys_get. exact Hin.
  - (* register, the notice cannot be built *)
    cbn [registered clients]. apply in_keys_get.
    destruct (Nat.eq_dec ws0 ws) as [->|Hne].
    + rewrite get_set_eq. eauto.
    + rewrite get_set_ne by exact Hne. apply in_keys_get. exact Hin.
  - (* discovery *)
    destruct (marked_frame w ws0 msg) as (Hc & _).
    cbn [read_clock clients]. rewrite Hc. exact Hin.
  - (* leaving *)
    destruct (after_leaving_frame w ws0) as (Hc & _). rewrite Hc. exact Hin.
  - (* pong *)
    unfold after_pong. destruct (JsMap.get ws0 (clients w)); exact Hin.
  - (* close of another connection *)
    cbn [after_close clients]. apply in_keys_delete. split; [|exact Hin].
    intros ->. rewrite Nat.eqb_refl in Hnc. discriminate.
  - (* close of another connection, the notice cannot be built *)
    cbn [removed clients]. apply in_keys_delete. split; [|exact Hin].
    intros ->. rewrite Nat.eqb_refl in Hnc. discriminate.
  - (* heartbeat *)
    destruct (fold_probe_frame es (read_clock w)) as (-> & _). exact Hin.
Qed.

(** X13.  Only its own close event takes a connection out of the registry:
    once registered it stays through every history that does not hold its
    close event, whatever it or others send, and also after a heartbeat tick
    has terminated it. *)
Theorem registered_until_closed (w w' : world) (tr : list event) (out : list action)
        (ws : conn) :
  In ws (JsMap.keys (clients w)) ->
  run w tr = Some (w', out) ->
  List.Forall (fun ev => is_close_of ws ev = false) tr ->
  In ws (JsMap.keys (clients w')).
Proof.
  revert w out. induction tr as [|ev tr IH]; intros w out Hin Hrun Hnc.
  - cbn in Hrun. injection Hrun as <- _. exact Hin.
  - apply run_app_step in Hrun. destruct Hrun as (_ & out2 & Hrun & _).
    inversion Hnc as [|? ? Hev Hrest]; subst.
    eapply IH; [|exact Hrun | exact Hrest].
    eapply transition_keeps_entry; [apply step_transition | exact Hev | exact Hin].
Qed.

Lemma registered_until_closed_witness :
  In wsB (JsMap.keys (clients (end_state (state_after demo_clock two_registered_history)
                                         [HeartbeatTick; HeartbeatTick;
                                          Message wsB leaving_frame; Close wsA 1000 ""]))).
Proof.
  apply (registered_until_closed (state_after demo_clock two_registered_history) _
           [HeartbeatTick; HeartbeatTick; Message wsB leaving_frame; Close wsA 1000 ""]
           (end_output (state_after demo_clock two_registered_history)
                       [HeartbeatTick; HeartbeatTick;
                        Message wsB leaving_frame; Close wsA 1000 ""])).
  - vm_compute. tauto.
  - vm_compute; reflexivity.
  - repeat constructor.
Defined.

(** ** An announced departure *)

Lemma same_but_alive_refl (i : info) : same_but_alive i i.
Proof. repeat split. Qed.

Lemma same_but_alive_trans (i1 i2 i3 : info) :
  same_but_alive i1 i2 -> same_but_alive i2 i3 -> same_but_alive i1 i3.
Proof.
  unfold same_but_alive. intros (A1 & A2 & A3 & A4 & A5 & A6) (B1 & B2 & B3 & B4 & B5 & B6).
  repeat split; congruence.
Qed.

(** Through a history without events of [ws], the record of [ws] keeps all
    its fields but the liveness flag. *)
Lemma run_without_fields (tr : list event) (w w' : world) (out : list action)
      (ws : conn) (l : loc) :
  registry_ok w ->
  JsMap.get ws (clients w) = Some l ->
  run w tr = Some (w', out) ->
  List.Forall (fun ev => subject ev <> Some ws) tr ->
  same_but_alive (heap w !!! l) (heap w' !!! l).
Proof.
  revert w out. induction tr as [|ev tr IH]; intros w out Hok Hget Hrun Hsilent.
  - cbn in Hrun. injection Hrun as <- _. apply same_but_alive_refl.
  - apply run_app_step in Hrun. destruct Hrun as (Hen & out2 & Hrun & _).
    inversion Hsilent as [|? ? Hev Hrest]; subst.
    pose proof (step_transition w ev) as Htr.
    pose proof (registry_ok_step _ _ _ _ Htr Hen Hok) as Hok1.
    destruct (transition_other_record _ _ _ _ ws l Htr Hok Hen Hev Hget) as [Hget1 Hheap1].
    eapply same_but_alive_trans; [|eapply IH; eassumption].
    destruct Hheap1 as [-> | [_ ->]]; repeat split.
Qed.

(** X14.  An announced departure is reported as such: in every state the
    broker reaches, once a registered connection has sent [leaving] (or a
    discovery of category "leaving"), and whatever others do and however many
    heartbeat ticks pass before its close event, the notice sent at that close
    says "left normally", whatever the close code.  The history is one in
    which every registered name can be converted to a string, so that the
    name in the notice can be. *)
Theorem announced_departure (clk : nat -> Z) (tr0 tr : list event) (w w2 : world)
        (out0 out : list action) (ws : conn) (l : loc) (msg : value)
        (code : Z) (reason : string) :
  run (init clk) tr0 = Some (w, out0) ->
  JsMap.get ws (clients w) = Some l ->
  get_property msg "type" = Ok (VStr "leaving") \/
  (get_property msg "type" = Ok (VStr "discovery") /\
   field msg "category" = VStr "leaving") ->
  run (fst (step w (Message ws (Json msg)))) tr = Some (w2, out) ->
  List.Forall (fun ev => subject ev <> Some ws) tr ->
  forallb registers_printable (tr0 ++ tr) = true ->
  printable (name (heap w !!! l)) = true /\
  exists d ts,
    sends (snd (step w2 (Close ws code reason)))
    = List.map (fun c => (c, MsgSystem [Val (name (heap w !!! l)); Lit " ";
                                        Lit "left normally"; Lit " (was here ";
                                        Int d; Lit "s)"] ts))
               (recipients (after_close w2 ws)) ++
      List.map (fun c => (c, MsgParticipantsUpdate (snapshot (after_close w2 ws))
                                                   (clock w2 (S (S (reads w2))))))
               (recipients (after_close w2 ws)).
Proof.
  intros Hrun0 Hget Hkind Hrun Hsilent Hnames.
  rewrite forallb_app in Hnames. apply andb_prop in Hnames. destruct Hnames as [Hn0 _].
  split; [apply (names_run tr0 _ _ _ (names_init clk) Hn0 Hrun0)|].
  pose proof (registry_ok_run tr0 _ _ _ (registry_ok_init clk) Hrun0) as Hok.
  assert (Hen : enabled w (Message ws (Json msg)) = true).
  { destruct Hok as (_ & H2 & _). apply (H2 ws l Hget). }
  pose proof (registry_ok_step _ _ _ _ (step_transition w _) Hen Hok) as Hok1.
  assert (Hw1 : fst (step w (Message ws (Json msg)))
                = with_heap w (<[l := set_leaving true (heap w !!! l)]> (heap w)) \/
                fst (step w (Message ws (Json msg)))
                = read_clock (with_heap w (<[l := set_leaving true (heap w !!! l)]> (heap w)))).
  { unfold step. cbn [handler]. destruct Hkind as [Ht|[Ht Hcat]].
    - left. rewrite (on_message_leaving _ _ _ Ht). cbn [fst].
      unfold after_leaving. rewrite Hget. reflexivity.
    - right. rewrite (on_message_discovery _ _ _ Ht). cbn [fst].
      unfold marked, after_leaving. rewrite Hcat, Hget. reflexivity. }
  assert (Hget1 : JsMap.get ws (clients (fst (step w (Message ws (Json msg))))) = Some l).
  { destruct Hw1 as [-> | ->]; exact Hget. }
  assert (Hrec1 : heap (fst (step w (Message ws (Json msg)))) !!! l
                  = set_leaving true (heap w !!! l)).
  { destruct Hw1 as [-> | ->]; cbn [read_clock with_heap heap];
      apply lookup_total_insert_eq. }
  destruct (run_without tr _ _ _ ws l Hok1 Hget1 Hrun Hsilent) as (_ & Hget2 & _).
  pose proof (run_without_fields tr _ _ _ ws l Hok1 Hget1 Hrun Hsilent) as Hsame.
  rewrite Hrec1 in Hsame. destruct Hsame as (Hname & _ & _ & _ & _ & Hleaving).
  cbn [set_leaving name leaving] in Hname, Hleaving.
  assert (Hp2 : printable (name (heap w2 !!! l)) = true).
  { rewrite Hname. apply (names_run tr0 _ _ _ (names_init clk) Hn0 Hrun0). }
  destruct (close_registered_sends w2 ws l code reason Hget2 Hp2)
    as (out' & Hclose & Hsends).
  do 2 eexists. unfold step. cbn [handler]. rewrite Hclose. cbn [snd].
  rewrite Hsends. rewrite Hname.
  assert (Hexit : exitReason code (heap w2 !!! l) = "left normally").
  { unfold exitReason. rewrite Hleaving, orb_true_r. reflexivity. }
  rewrite Hexit. reflexivity.
Qed.

Lemma announced_departure_witness :
  exists d ts,
    sends (snd (step (end_state (fst (step (state_after demo_clock two_registered_history)
                                           (Message wsB leaving_frame)))
                                [HeartbeatTick; Pong wsA; HeartbeatTick])
                     (Close wsB 1006 "")))
    = [(wsA, MsgSystem [Val (VStr "db-explorer"); Lit " "; Lit "left normally";
                        Lit " (was here "; Int d; Lit "s)"] ts);
       (wsA, MsgParticipantsUpdate
               [Participant (VStr "auth-analyzer") (VStr "agent") (VStr "idle") VNull 2000]
               12000)].
Proof.
  destruct (announced_departure demo_clock two_registered_history
              [HeartbeatTick; Pong wsA; HeartbeatTick]
              (state_after demo_clock two_registered_history)
              (end_state (fst (step (state_after demo_clock two_registered_history)
                                    (Message wsB leaving_frame)))
                         [HeartbeatTick; Pong wsA; HeartbeatTick])
              (output_of demo_clock two_registered_history)
              (end_output (fst (step (state_after demo_clock two_registered_history)
                                     (Message wsB leaving_frame)))
                          [HeartbeatTick; Pong wsA; HeartbeatTick])
              wsB 3%nat (VObj [("type", VStr "leaving")]) 1006 "")
    as (_ & d & ts & Hsends).
  - vm_compute; reflexivity.
  - vm_compute; reflexivity.
  - left; reflexivity.
  - vm_compute; reflexivity.
  - repeat constructor; cbn; vm_compute; congruence.
  - vm_compute; reflexivity.
  - exists d, ts. rewrite Hsends. vm_compute. reflexivity.
Defined.

(** * Properties of the client adapter *)

(** ** The shared message buffer *)

Lemma strict_eq_refl (v : value) : Client.primitive v = true -> Client.strict_eq v v = true.
Proof.
  destruct v; cbn; try discriminate; intros _; auto.
  - destruct b; reflexivity.
  - apply Qeq_bool_iff. reflexivity.
  - apply String.eqb_refl.
Qed.

Lemma get_property_total (msg t : value) (k k' : string) :
  get_property msg k = Ok t -> exists v, get_property msg k' = Ok v.
Proof. destruct msg; cbn; intros H; try discriminate; eauto. Qed.

Lemma same_key_refl (msg t : value) :
  get_property msg "type" = Ok t ->
  List.Forall (fun k => forall v, get_property msg k = Ok v -> Client.primitive v = true)
              key_fields ->
  Client.same_key msg msg = Ok true.
Proof.
  intros Ht Hprim. unfold key_fields in Hprim.
  inversion Hprim as [|? ? H1 Hprim1]; subst.
  inversion Hprim1 as [|? ? H2 Hprim2]; subst.
  inversion Hprim2 as [|? ? H3 _]; subst.
  destruct (get_property_total msg t "type" "timestamp" Ht) as [vt Hvt].
  destruct (get_property_total msg t "type" "from" Ht) as [vf Hvf].
  destruct (get_property_total msg t "type" "text" Ht) as [vx Hvx].
  unfold Client.same_key. rewrite Hvt, Hvf, Hvx.
  rewrite !strict_eq_refl by eauto. reflexivity.
Qed.

Lemma some_app_self (msg : value) (ms : list value) :
  Client.some msg ms = Ok false ->
  Client.same_key msg msg = Ok true ->
  Client.some msg (ms ++ [msg]) = Ok true.
Proof.
  intros Hnone Hself. induction ms as [|m ms IH]; cbn [Client.some app] in *.
  - rewrite Hself. reflexivity.
  - destruct (Client.same_key m msg) as [[|]|e]; try discriminate. auto.
Qed.

Lemma some_push_self (msg : value) (ms : list value) :
  Client.some msg ms = Ok false ->
  Client.same_key msg msg = Ok true ->
  Client.some msg (Client.push msg ms) = Ok true.
Proof.
  intros Hnone Hself. unfold Client.push.
  destruct (100 <? List.length (ms ++ [msg]))%nat eqn:E; [|apply some_app_self; assumption].
  destruct ms as [|m ms]; cbn [app List.tl].
  - cbn in E. discriminate.
  - cbn [Client.some] in Hnone.
    destruct (Client.same_key m msg) as [[|]|e]; try discriminate.
    apply some_app_self; assumption.
Qed.

Lemma on_message_buffer (answer_tag : string -> option (string * string))
      (name : value) (data : frame) (ms : list value) (conn : Client.connection) :
  fst (fst (Client.on_message answer_tag name data ms conn))
  = match data with
    | NotJson _ => ms
    | Json msg =>
        match get_property msg "type" with
        | Throw _ => ms
        | Ok t =>
            if strict_eq_str t "who_response" then ms
            else match Client.some msg ms with
                 | Ok false => Client.push msg ms
                 | _ => ms
                 end
        end
    end.
Proof.
  unfold Client.on_message. destruct data as [raw|msg]; cbn [JSON_parse]; [reflexivity|].
  destruct (get_property msg "type") as [t|e]; [|reflexivity].
  destruct (strict_eq_str t "who_response").
  - destruct (get_property msg "clients"); reflexivity.
  - destruct (Client.some msg ms) as [[|]|e]; cbn [negb];
      try reflexivity; destruct (Client.check_answer _ _ _ _) as [[c calls]|]; reflexivity.
Qed.

(** X15.  De-duplication in the client: when a frame whose [timestamp],
    [from] and [text] are not arrays or objects is handled a second time, by
    the handler of the same or of another agent of the process, the shared
    buffer is left as the first handling left it. *)
Theorem client_dedup (answer_tag : string -> option (string * string))
        (name1 name2 : value) (data : frame) (ms : list value)
        (conn1 conn2 : Client.connection) :
  (forall msg, data = Json msg ->
     List.Forall (fun k => forall v, get_property msg k = Ok v -> Client.primitive v = true)
                 key_fields) ->
  fst (fst (Client.on_message answer_tag name2 data
              (fst (fst (Client.on_message answer_tag name1 data ms conn1))) conn2))
  = fst (fst (Client.on_message answer_tag name1 data ms conn1)).
Proof.
  intros Hprim. rewrite !on_message_buffer.
  destruct data as [raw|msg]; [reflexivity|].
  destruct (get_property msg "type") as [t|e] eqn:Ht; [|reflexivity].
  destruct (strict_eq_str t "who_response"); [reflexivity|].
  destruct (Client.some msg ms) as [[|]|e] eqn:Hsome; rewrite ?Hsome; try reflexivity.
  rewrite some_push_self; [reflexivity | exact Hsome |].
  eapply same_key_refl; [exact Ht | apply Hprim; reflexivity].
Qed.

Lemma client_dedup_witness :
  fst (fst (Client.on_message demo_answer_tag (VStr "db-explorer")
              (Json (relayed_chat "auth-analyzer" "found the bug" 8000))
              (fst (fst (Client.on_message demo_answer_tag (VStr "auth-analyzer")
                           (Json (relayed_chat "auth-analyzer" "found the bug" 8000))
                           [] idle_connection)))
              idle_connection))
  = [relayed_chat "auth-analyzer" "found the bug" 8000].
Proof.
  rewrite (client_dedup demo_answer_tag (VStr "auth-analyzer") (VStr "db-explorer")
             (Json (relayed_chat "auth-analyzer" "found the bug" 8000)) []
             idle_connection idle_connection).
  - reflexivity.
  - intros msg Hmsg. injection Hmsg as <-.
    repeat constructor; intros v Hv; cbn in Hv; injection Hv as <-; reflexivity.
Defined.

(** X16.  The buffer is bounded and loses only its oldest entry: a buffer of
    at most 100 messages has at most 100 after any frame; a frame either
    leaves the buffer as it is (not JSON, null, a [who_response], a duplicate)
    or appends its message at the end, dropping the first entry when the
    buffer was full. *)
Theorem client_buffer_bounded (answer_tag : string -> option (string * string))
        (name : value) (data : frame) (ms : list value) (conn : Client.connection) :
  (List.length ms <= 100)%nat ->
  (List.length (fst (fst (Client.on_message answer_tag name data ms conn))) <= 100)%nat /\
  (fst (fst (Client.on_message answer_tag name data ms conn)) = ms \/
   exists msg, data = Json msg /\
     ((List.length ms < 100)%nat /\
      fst (fst (Client.on_message answer_tag name data ms conn)) = ms ++ [msg] \/
      (List.length ms = 100)%nat /\
      fst (fst (Client.on_message answer_tag name data ms conn)) = List.tl ms ++ [msg])).
Proof.
  intros Hlen. rewrite !on_message_buffer.
  destruct data as [raw|msg]; [auto|].
  destruct (get_property msg "type") as [t|e]; [|auto].
  destruct (strict_eq_str t "who_response"); [auto|].
  destruct (Client.some msg ms) as [[|]|e]; auto.
  unfold Client.push. rewrite length_app. cbn [List.length].
  destruct (Nat.ltb_spec 100 (List.length ms + 1)) as [Hfull|Hroom].
  - assert (Hl : List.length ms = 100%nat) by lia.
    destruct ms as [|m ms]; [discriminate|]. cbn [app List.tl List.length] in *.
    split; [rewrite length_app; cbn; lia|].
    right. exists msg. split; [reflexivity|]. right. split; [exact Hl | reflexivity].
  - split; [rewrite length_app; cbn; lia|].
    right. exists msg. split; [reflexivity|]. left. split; [lia | reflexivity].
Qed.

Lemma client_buffer_bounded_witness :
  (List.length (fst (fst (Client.on_message demo_answer_tag (VStr "db-explorer")
                            (Json (relayed_chat "auth-analyzer" "one more" 9000))
                            (repeat (relayed_chat "auth-analyzer" "found the bug" 8000) 100)
                            idle_connection))) <= 100)%nat.
Proof.
  apply (client_buffer_bounded demo_answer_tag (VStr "db-explorer")
           (Json (relayed_chat "auth-analyzer" "one more" 9000))
           (repeat (relayed_chat "auth-analyzer" "found the bug" 8000) 100)
           idle_connection).
  rewrite repeat_length. lia.
Defined.

(** ** Answers to who and to questions *)

(** X17.  A [who_response] never enters the message buffer: it only replaces
    the agent's last list of clients, by the frame's [clients], or by an empty
    list when that is missing or falsy; pending questions stay and nothing is
    called. *)
Theorem client_who_response (answer_tag : string -> option (string * string))
        (name msg : value) (ms : list value) (conn : Client.connection) :
  get_property msg "type" = Ok (VStr "who_response") ->
  Client.on_message answer_tag name (Json msg) ms conn
  = (ms,
     Client.Connection (Client.ws conn) (Client.type conn) (Client.connected conn)
                       (Client.registered conn) (Client.pendingQuestions conn)
                       (if truthy (field msg "clients") then field msg "clients"
                        else VArr []),
     []).
Proof.
  intros Ht. destruct (type_is_string _ _ Ht) as (props & -> & Hp).
  unfold Client.on_message. cbn [JSON_parse get_property]. rewrite Hp.
  reflexivity.
Qed.

Lemma client_who_response_witness :
  Client.on_message demo_answer_tag (VStr "db-explorer")
    (Json (VObj [("type", VStr "who_response"); ("timestamp", VNum (inject_Z 9000))]))
    [relayed_chat "auth-analyzer" "found the bug" 8000] idle_connection
  = ([relayed_chat "auth-analyzer" "found the bug" 8000],
     Client.Connection (Some (7%nat, 1)) (VStr "agent") true true ∅ (VArr []),
     []).
Proof.
  apply (client_who_response demo_answer_tag (VStr "db-explorer")
           (VObj [("type", VStr "who_response"); ("timestamp", VNum (inject_Z 9000))])).
  reflexivity.
Defined.

Lemma same_key_no_throw (m msg t : value) :
  get_property msg "type" = Ok t ->
  match m with VNull | VUndefined => false | _ => true end = true ->
  exists b, Client.same_key m msg = Ok b.
Proof.
  intros Ht Hm. unfold Client.same_key.
  destruct (get_property_total msg t "type" "timestamp" Ht) as [gt ->].
  destruct (get_property_total msg t "type" "from" Ht) as [gf ->].
  destruct (get_property_total msg t "type" "text" Ht) as [gx ->].
  assert (Hget : forall k, exists v, get_property m k = Ok v).
  { intros k. destruct m; try discriminate; cbn; eauto. }
  destruct (Hget "timestamp") as [mt ->].
  destruct (Hget "from") as [mf ->].
  destruct (Hget "text") as [mx ->].
  destruct (negb (Client.strict_eq mt gt)); [eauto|].
  destruct (negb (Client.strict_eq mf gf)); eauto.
Qed.

Lemma some_no_throw (msg t : value) (ms : list value) :
  get_property msg "type" = Ok t ->
  no_null ms = true ->
  exists b, Client.some msg ms = Ok b.
Proof.
  intros Ht Hnn. induction ms as [|m ms IH]; cbn [Client.some]; [eauto|].
  cbn in Hnn. apply andb_prop in Hnn. destruct Hnn as [Hm Hms].
  destruct (same_key_no_throw m msg t Ht Hm) as [[|] ->]; eauto.
Qed.

(** X18.  An answer resolves a question once.  When a chat message from
    someone else carries the answer tag of a pending question, the handler
    clears the question's timer, removes the question and resolves it with the
    answer; a second delivery of that message then calls nothing.  A chat
    message whose [from] is the agent's own name calls nothing and leaves the
    pending questions as they are, tag or not. *)
Theorem client_answer_once (answer_tag : string -> option (string * string))
        (name msg from : value) (s qId answer : string) (pending : nat)
        (ms : list value) (conn : Client.connection) :
  get_property msg "type" = Ok (VStr "chat") ->
  get_property msg "text" = Ok (VStr s) ->
  s <> "" ->
  get_property msg "from" = Ok from ->
  answer_tag s = Some (qId, answer) ->
  Client.pendingQuestions conn !! qId = Some pending ->
  no_null ms = true ->
  (Client.strict_eq from name = false ->
   exists ms' conn',
     Client.on_message answer_tag name (Json msg) ms conn
     = (ms', conn', [Client.clearTimeout pending; Client.resolve pending answer]) /\
     Client.pendingQuestions conn' = delete qId (Client.pendingQuestions conn) /\
     no_null ms' = true /\
     snd (Client.on_message answer_tag name (Json msg) ms' conn') = []) /\
  (Client.strict_eq from name = true ->
   snd (Client.on_message answer_tag name (Json msg) ms conn) = [] /\
   snd (fst (Client.on_message answer_tag name (Json msg) ms conn)) = conn).
Proof.
  intros Ht Htxt Hs Hfrom Htag Hpend Hnn.
  assert (Htruthy : truthy (VStr s) = true).
  { cbn. destruct (String.eqb_spec s ""); [contradiction | reflexivity]. }
  assert (Hnn' : forall isDupe, no_null (if negb isDupe then Client.push msg ms else ms) = true).
  { intros [|]; cbn [negb]; [exact Hnn|].
    unfold Client.push.
    assert (Happ : no_null (ms ++ [msg]) = true).
    { unfold no_null in *. rewrite forallb_app, Hnn. cbn.
      destruct msg; cbn in Ht; try discriminate; reflexivity. }
    destruct (100 <? List.length (ms ++ [msg]))%nat; [|exact Happ].
    destruct (ms ++ [msg]) as [|m rest]; [reflexivity|].
    cbn in Happ. apply andb_prop in Happ. apply Happ. }
  split.
  - intros Hother.
    destruct (some_no_throw msg _ ms Ht Hnn) as [isDupe Hsome].
    exists (if negb isDupe then Client.push msg ms else ms),
           (Client.set_pendingQuestions (delete qId (Client.pendingQuestions conn)) conn).
    split; [|split; [|split]].
    + unfold Client.on_message, Client.check_answer. cbn [JSON_parse].
      rewrite Ht, Htxt, Hfrom, Hsome. cbn [strict_eq_str String.eqb Ascii.eqb Bool.eqb].
      rewrite Htruthy, Hother, Htag, Hpend. reflexivity.
    + reflexivity.
    + apply Hnn'.
    + destruct (some_no_throw msg _ _ Ht (Hnn' isDupe)) as [isDupe' Hsome'].
      unfold Client.on_message, Client.check_answer. cbn [JSON_parse].
      rewrite Ht, Htxt, Hfrom, Hsome'. cbn [strict_eq_str String.eqb Ascii.eqb Bool.eqb].
      rewrite Htruthy, Hother, Htag. cbn [Client.set_pendingQuestions Client.pendingQuestions].
      rewrite lookup_delete_eq. reflexivity.
  - intros Hown.
    destruct (some_no_throw msg _ ms Ht Hnn) as [isDupe Hsome].
    unfold Client.on_message, Client.check_answer. cbn [JSON_parse].
    rewrite Ht, Htxt, Hfrom, Hsome. cbn [strict_eq_str String.eqb Ascii.eqb Bool.eqb].
    rewrite Htruthy, Hown. split; reflexivity.
Qed.

Lemma client_answer_once_witness :
  snd (Client.on_message demo_answer_tag (VStr "db-explorer")
         (Json (relayed_chat "user" "[A:1f2e] use the v2 endpoint" 9000))
         [] asking_connection)
  = [Client.clearTimeout 4; Client.resolve 4 "use the v2 endpoint"].
Proof.
  destruct (client_answer_once demo_answer_tag (VStr "db-explorer")
              (relayed_chat "user" "[A:1f2e] use the v2 endpoint" 9000) (VStr "user")
              "[A:1f2e] use the v2 endpoint" "1f2e" "use the v2 endpoint" 4%nat
              [] asking_connection)
    as [Hother _]; [reflexivity | reflexivity | discriminate | reflexivity | reflexivity
                    | reflexivity | reflexivity |].
  destruct (Hother eq_refl) as (ms' & conn' & Hrun & _). rewrite Hrun. reflexivity.
Defined.

(** ** From the client's broadcast to the broker's fan-out *)

Lemma step_chat (w : world) (ws : conn) (msg : value) :
  get_property msg "type" = Ok (VStr "chat") ->
  sends (snd (step w (Message ws (Json msg))))
  = List.map (fun c => (c, chat_msg w ws msg)) (recipients w).
Proof.
  intros Ht. unfold step. cbn [handler]. rewrite (on_message_chat _ _ _ Ht).
  cbn [snd]. apply sends_deliver.
Qed.

Lemma step_discovery (w : world) (ws : conn) (msg : value) :
  get_property msg "type" = Ok (VStr "discovery") ->
  sends (snd (step w (Message ws (Json msg))))
  = List.map (fun c => (c, MsgDiscovery
                             (or_else (field msg "from") (name (closure_info w ws)))
                             (type (closure_info w ws)) (field msg "category")
                             (field msg "text") (clock w (reads w))))
             (recipients w).
Proof.
  intros Ht. unfold step. cbn [handler]. rewrite (on_message_discovery _ _ _ Ht).
  cbn [snd]. rewrite sends_deliver. unfold discovery_msg.
  destruct (closure_info_marked w ws msg) as [-> ->].
  destruct (marked_frame w ws msg) as (_ & _ & -> & -> & _). reflexivity.
Qed.

(** X19.  From the client's [broadcast] to the broker's fan-out: for an
    agent whose connection is open, [broadcast] succeeds with exactly one
    send, and the broker, on receiving that frame from whatever connection,
    relays it to the open connections of its registry under the name given to
    [broadcast] (not the name the connection registered with), with the text
    unchanged: as a [discovery] of the given category when the category is
    truthy, and as a [chat] otherwise.  The three arguments are tool
    arguments: left out, or values of the parsed request. *)
Theorem client_broadcast_relayed (connections : list (value * Client.connection))
        (message category senderName : value) (agent : Client.connection)
        (socket : nat) (w : world) (ws : conn) :
  Client.tool_argument message = true ->
  Client.tool_argument category = true ->
  Client.tool_argument senderName = true ->
  truthy senderName = true ->
  Client.connections_get senderName connections = Some agent ->
  Client.connected agent = true ->
  Client.ws agent = Some (socket, 1) ->
  exists data,
    Client.broadcast connections message category senderName
    = (Client.Success "Message sent", [Client.send socket data]) /\
    sends (snd (step w (Message ws data)))
    = List.map
        (fun c => (c, if truthy category
                      then MsgDiscovery senderName (type (closure_info w ws)) category
                                        message (clock w (reads w))
                      else MsgChat senderName (type (closure_info w ws)) message
                                   (clock w (reads w))))
        (recipients w).
Proof.
  intros _ _ _ Hname Hget Hconn Hws.
  assert (Hdef : forall v, truthy v = true -> match v with VUndefined => false | _ => true end = true).
  { intros v Hv. destruct v; try reflexivity. discriminate. }
  eexists. split.
  { unfold Client.broadcast. rewrite Hname, Hget, Hconn, Hws. cbn [negb Z.eqb Pos.eqb].
    reflexivity. }
  unfold Client.JSON_stringify.
  destruct (truthy category) eqn:Hcat.
  - cbn [List.filter snd]. rewrite (Hdef _ Hcat), (Hdef _ Hname).
    assert (Hmsg : forall props : list (string * value),
              own_property "from" props = senderName ->
              own_property "category" props = category ->
              own_property "text" props = message ->
              get_property (VObj props) "type" = Ok (VStr "discovery") ->
              sends (snd (step w (Message ws (Json (VObj props)))))
              = List.map (fun c => (c, MsgDiscovery senderName (type (closure_info w ws))
                                                    category message (clock w (reads w))))
                         (recipients w)).
    { intros props Hf Hc Hx Ht. rewrite (step_discovery _ _ _ Ht).
      unfold field, props_of, or_else. rewrite Hf, Hc, Hx, Hname. reflexivity. }
    destruct message; apply Hmsg; reflexivity.
  - cbn [List.filter snd]. rewrite (Hdef _ Hname).
    assert (Hmsg : forall props : list (string * value),
              own_property "from" props = senderName ->
              own_property "text" props = message ->
              get_property (VObj props) "type" = Ok (VStr "chat") ->
              sends (snd (step w (Message ws (Json (VObj props)))))
              = List.map (fun c => (c, MsgChat senderName (type (closure_info w ws))
                                               message (clock w (reads w))))
                         (recipients w)).
    { intros props Hf Hx Ht. rewrite (step_chat _ _ _ Ht).
      unfold chat_msg, field, props_of, or_else. rewrite Hf, Hx, Hname. reflexivity. }
    destruct message; apply Hmsg; reflexivity.
Qed.

Lemma client_broadcast_relayed_witness :
  exists data,
    Client.broadcast agent_connections (VStr "src/auth/") (VStr "claiming")
                     (VStr "auth-analyzer")
    = (Client.Success "Message sent", [Client.send 7 data]) /\
    sends (snd (step (state_after demo_clock two_registered_history) (Message wsA data)))
    = [(wsA, MsgDiscovery (VStr "auth-analyzer") (VStr "agent") (VStr "claiming")
                          (VStr "src/auth/") 8000);
       (wsB, MsgDiscovery (VStr "auth-analyzer") (VStr "agent") (VStr "claiming")
                          (VStr "src/auth/") 8000)].
Proof.
  destruct (client_broadcast_relayed agent_connections (VStr "src/auth/") (VStr "claiming")
              (VStr "auth-analyzer") idle_connection 7%nat
              (state_after demo_clock two_registered_history) wsA)
    as (data & Hb & Hsends); try reflexivity.
  exists data. split; [exact Hb|]. rewrite Hsends. vm_compute. reflexivity.
Defined.

Lemma participant_refresh_witness :
  sends (snd (step (state_after demo_clock two_registered_history) ParticipantTick))
  = [(wsA, MsgParticipantsUpdate
             [Participant (VStr "auth-analyzer") (VStr "agent") (VStr "idle") VNull 2000;
              Participant (VStr "db-explorer") (VStr "agent") (VStr "idle") VNull 5000]
             8000);
     (wsB, MsgParticipantsUpdate
             [Participant (VStr "auth-analyzer") (VStr "agent") (VStr "idle") VNull 2000;
              Participant (VStr "db-explorer") (VStr "agent") (VStr "idle") VNull 5000]
             8000)] /\
  List.length (snapshot (state_after demo_clock two_registered_history)) = 2%nat.
Proof.
  destruct (participant_refresh (state_after demo_clock two_registered_history))
    as (_ & Hsome & _).
  destruct Hsome as (_ & Hsends & Hlen); [vm_compute; discriminate|].
  split; [rewrite Hsends | rewrite Hlen]; vm_compute; reflexivity.
Defined.

(** ** Names that cannot be converted to a string *)

(** X20.  The close handler on a registered connection whose name can be
    converted to a string: it returns normally, the record is out of the
    registry, and the connections that remain open are sent a notice made of
    the name, the exit reason and the membership time in seconds (the
    difference of two clock readings, rounded), then a snapshot.  A leaving
    flag gives the reason "left normally" whatever the code, and code 1006
    gives "connection lost" even when the liveness flag is false. *)
Theorem close_notice_sent (w : world) (ws : conn) (l : loc) (code : Z) (reason : string) :
  JsMap.get ws (clients w) = Some l ->
  printable (name (heap w !!! l)) = true ->
  uncaught w (Close ws code reason) = None /\
  record_of (fst (step w (Close ws code reason))) ws = None /\
  sends (snd (step w (Close ws code reason))) =
    List.map (fun c => (c, MsgSystem [Val (name (heap w !!! l)); Lit " ";
                                      Lit (exitReason code (heap w !!! l));
                                      Lit " (was here ";
                                      Int ((clock w (reads w) - joinedAt (heap w !!! l) + 500)
                                           / 1000);
                                      Lit "s)"]
                                     (clock w (S (reads w)))))
             (recipients (after_close w ws)) ++
    List.map (fun c => (c, MsgParticipantsUpdate (snapshot (after_close w ws))
                                                 (clock w (S (S (reads w))))))
             (recipients (after_close w ws)) /\
  (leaving (heap w !!! l) = true -> exitReason code (heap w !!! l) = "left normally") /\
  (leaving (heap w !!! l) = false -> alive (heap w !!! l) = false -> code = 1006 ->
   exitReason code (heap w !!! l) = "connection lost").
Proof.
  intros Hget Hp.
  destruct (close_notice w ws l code reason Hget Hp)
    as (out & Hrun & Hgone & Hsends & P1 & _ & P3 & _).
  unfold uncaught, step. cbn [handler]. rewrite Hrun. cbn [fst snd].
  split; [reflexivity|].
  split; [unfold record_of; rewrite Hgone; reflexivity|].
  split; [exact Hsends|].
  split; [auto|]. intros Hl _ ->. apply P3; [discriminate | exact Hl | discriminate | reflexivity].
Qed.

Lemma close_notice_sent_witness :
  sends (snd (step (state_after demo_clock two_registered_history) (Close wsB 1001 "")))
  = [(wsA, MsgSystem [Val (VStr "db-explorer"); Lit " "; Lit "going away";
                      Lit " (was here "; Int 3; Lit "s)"] 9000);
     (wsA, MsgParticipantsUpdate
             [Participant (VStr "auth-analyzer") (VStr "agent") (VStr "idle") VNull 2000]
             10000)].
Proof.
  destruct (close_notice_sent (state_after demo_clock two_registered_history) wsB 3%nat
                              1001 "")
    as (_ & _ & Hsends & _).
  - vm_compute; reflexivity.
  - vm_compute; reflexivity.
  - rewrite Hsends. vm_compute. reflexivity.
Defined.

(** X21.  A [register] message whose name cannot be converted to a string
    (an object with a property [toString], say) is taken into the registry all
    the same: the record is made and entered, then the text of the join notice
    raises, the [catch] logs "Invalid message", and neither notice nor snapshot
    is sent.  The close event of that connection then raises out of the close
    handler, which has no [try]: the record is removed, and nothing is sent to
    the connections that remain. *)
Theorem unconvertible_name_escapes (w : world) (ws : conn) (msg : value) :
  get_property msg "type" = Ok (VStr "register") ->
  printable (field msg "name") = false ->
  step w (Message ws (Json msg)) = (registered w ws msg, [invalid_message TypeError]) /\
  uncaught w (Message ws (Json msg)) = None /\
  record_of (registered w ws msg) ws = Some (registered_info w msg) /\
  (forall code reason,
     step (registered w ws msg) (Close ws code reason)
     = (removed (registered w ws msg) ws, []) /\
     uncaught (registered w ws msg) (Close ws code reason) = Some TypeError /\
     record_of (removed (registered w ws msg) ws) ws = None).
Proof.
  intros Ht Hname.
  assert (Hget : JsMap.get ws (clients (registered w ws msg)) = Some (next_loc w))
    by (cbn [registered clients]; apply get_set_eq).
  assert (Hrec : heap (registered w ws msg) !!! next_loc w = registered_info w msg)
    by (cbn [registered heap]; apply lookup_total_insert_eq).
  split; [apply step_register_throws; assumption|].
  split.
  { unfold uncaught. cbn [handler].
    rewrite (on_message_register_throws _ _ _ Ht Hname). reflexivity. }
  split; [unfold record_of; rewrite Hget, Hrec; reflexivity|].
  intros code reason.
  assert (Hp : printable (name (heap (registered w ws msg) !!! next_loc w)) = false)
    by (rewrite Hrec; exact Hname).
  destruct (step_close_throws _ ws _ code reason Hget Hp) as [Hstep Hunc].
  split; [exact Hstep|]. split; [exact Hunc|].
  unfold record_of. cbn [removed clients]. rewrite get_delete_eq. reflexivity.
Qed.

Lemma unconvertible_name_escapes_witness :
  sends (snd (step (state_after demo_clock one_registered_history)
                   (Message wsA (Json odd_register_value)))) = [] /\
  JsMap.keys (clients (fst (step (state_after demo_clock one_registered_history)
                                 (Message wsA (Json odd_register_value))))) = [wsB; wsA] /\
  uncaught (fst (step (state_after demo_clock one_registered_history)
                      (Message wsA (Json odd_register_value))))
           (Close wsA 1000 "") = Some TypeError.
Proof.
  destruct (unconvertible_name_escapes (state_after demo_clock one_registered_history) wsA
                                       odd_register_value)
    as (Hstep & _ & _ & Hclose).
  - reflexivity.
  - reflexivity.
  - rewrite Hstep. cbn [fst snd].
    split; [reflexivity|]. split; [vm_compute; reflexivity|].
    destruct (Hclose 1000 "") as (_ & Hunc & _). exact Hunc.
Defined.
